(** * Pr0xies: the URL codecs, the URL rewriters, the cookie validator,
      the hook dispatcher and the service-worker edge

    A shallow embedding of
      - [Ultraviolet-exact-clone/static/uv/uv.bundle.js]  (codecs, Ultraviolet,
        and the client script with HookEvent / EventEmitter / FetchHook),
      - [Ultraviolet-exact-clone/static/uv/uv.handler.js] (rewriteUrl),
      - [Ultraviolet-clone/static/sw.js]                  (encodeUrl, decodeUrl,
        createProxyUrl, handleProxyRequest).

    JavaScript strings are sequences of UTF-16 code units; they are modelled
    as [list Z].  A JavaScript call either returns or throws; this is the
    [outcome] type, and [try { .. } catch (e) { .. }] is [try_catch]. *)

From Stdlib Require Import ZArith List Bool Lia String Ascii.
Import ListNotations.
Local Open Scope Z_scope.

(* ================================================================== *)
(** ** Outcomes: return or throw *)

Inductive exn : Type :=
| URIError
| InvalidCharacterError
| TypeError
| RangeError
| NetworkError
| ListenerError.

Inductive outcome (A : Type) : Type :=
| Ok (a : A)
| Throw (e : exn).

Arguments Ok {A} a.
Arguments Throw {A} e.

Definition bind {A B} (m : outcome A) (k : A -> outcome B) : outcome B :=
  match m with
  | Ok a => k a
  | Throw e => Throw e
  end.

Notation "x <- m ;; k" := (bind m (fun x => k))
  (at level 61, m at next level, right associativity).

Definition try_catch {A} (body : outcome A) (handler : exn -> outcome A)
  : outcome A :=
  match body with
  | Ok a => Ok a
  | Throw e => handler e
  end.

Definition throws {A} (m : outcome A) : bool :=
  match m with
  | Ok _ => false
  | Throw _ => true
  end.

(* ================================================================== *)
(** ** JavaScript strings *)

Definition jsstring := list Z.

(** A string literal of the source, as code units. *)
Definition js (s : string) : jsstring :=
  map (fun a => Z.of_N (N_of_ascii a)) (list_ascii_of_string s).

Arguments js s%_string.

(** [error.message], up to the wording of the host. *)
Definition message (e : exn) : jsstring :=
  match e with
  | URIError => js "URI malformed"
  | InvalidCharacterError => js "Invalid character"
  | TypeError => js "Invalid URL"
  | RangeError => js "Invalid status"
  | NetworkError => js "Failed to fetch"
  | ListenerError => js "listener"
  end.

Definition jsstring_eqb (a b : jsstring) : bool :=
  if list_eq_dec Z.eq_dec a b then true else false.

Definition mem (c : Z) (set : jsstring) : bool := existsb (Z.eqb c) set.

Definition between (lo hi c : Z) : bool := (lo <=? c) && (c <=? hi).

Definition isUpper := between 65 90.
Definition isLower := between 97 122.
Definition isDigit := between 48 57.
Definition isAlnum (c : Z) : bool := isUpper c || isLower c || isDigit c.

(** [String.prototype.startsWith]. *)
Fixpoint startsWith (s p : jsstring) : bool :=
  match p, s with
  | [], _ => true
  | _ :: _, [] => false
  | x :: p', y :: s' => (x =? y) && startsWith s' p'
  end.

(** [String.prototype.includes]. *)
Fixpoint includes (s p : jsstring) : bool :=
  startsWith s p ||
  match s with
  | [] => false
  | _ :: s' => includes s' p
  end.

(** [String.prototype.endsWith]. *)
Definition endsWith (s p : jsstring) : bool := startsWith (rev s) (rev p).

(** [String.prototype.slice(n)] for [0 <= n]. *)
Definition slice (n : nat) (s : jsstring) : jsstring := skipn n s.

(** WhiteSpace and LineTerminator code units of ECMAScript, as stripped by
    [String.prototype.trim]. *)
Definition isWhiteSpace (c : Z) : bool :=
  between 9 13 c || (c =? 32) || (c =? 160) || (c =? 5760) ||
  between 8192 8202 c || (c =? 8232) || (c =? 8233) || (c =? 8239) ||
  (c =? 8287) || (c =? 12288) || (c =? 65279).

Fixpoint trimStart (s : jsstring) : jsstring :=
  match s with
  | [] => []
  | c :: r => if isWhiteSpace c then trimStart r else s
  end.

Definition trimEnd (s : jsstring) : jsstring := rev (trimStart (rev s)).

Definition trim (s : jsstring) : jsstring := trimEnd (trimStart s).

(** [String.prototype.toLowerCase] on ASCII letters (header names, schemes
    and host names). *)
Definition toLowerCase (s : jsstring) : jsstring :=
  map (fun c => if isUpper c then c + 32 else c) s.

(** [s.replace(/x/g, y)] for single code units [x] and [y]. *)
Definition replaceAll (x y : Z) (s : jsstring) : jsstring :=
  map (fun c => if c =? x then y else c) s.

(** [s.replace(/x/g, '')]. *)
Definition removeAll (x : Z) (s : jsstring) : jsstring :=
  filter (fun c => negb (c =? x)) s.

(* ================================================================== *)
(** ** Host built-ins: percent-encoding (ECMAScript 19.2.6 and B.2.1) *)

Definition hexdigit (d : Z) : Z := if d <? 10 then 48 + d else 55 + d.

Definition hexval (c : Z) : option Z :=
  if isDigit c then Some (c - 48)
  else if between 65 70 c then Some (c - 55)
  else if between 97 102 c then Some (c - 87)
  else None.

(** [%XX] for one octet. *)
Definition pct (b : Z) : jsstring := [37; hexdigit (b / 16); hexdigit (b mod 16)].

(** uriUnreserved of [encodeURIComponent]: alphanumerics and [-_.!~*'()]. *)
Definition uriUnreserved (c : Z) : bool := isAlnum c || mem c (js "-_.!~*'()").

Definition isLead (c : Z) : bool := between 55296 56319 c.
Definition isTrail (c : Z) : bool := between 56320 57343 c.

Definition utf8_encode (cp : Z) : list Z :=
  if cp <? 128 then [cp]
  else if cp <? 2048 then
    [Z.lor 192 (Z.shiftr cp 6); Z.lor 128 (Z.land cp 63)]
  else if cp <? 65536 then
    [Z.lor 224 (Z.shiftr cp 12);
     Z.lor 128 (Z.land (Z.shiftr cp 6) 63);
     Z.lor 128 (Z.land cp 63)]
  else
    [Z.lor 240 (Z.shiftr cp 18);
     Z.lor 128 (Z.land (Z.shiftr cp 12) 63);
     Z.lor 128 (Z.land (Z.shiftr cp 6) 63);
     Z.lor 128 (Z.land cp 63)].

Definition pct_octets (bs : list Z) : jsstring := flat_map pct bs.

(** [encodeURIComponent]: URIError on a lone surrogate. *)
Fixpoint encodeURIComponent (s : jsstring) : outcome jsstring :=
  match s with
  | [] => Ok []
  | c :: r =>
    if uriUnreserved c then
      r' <- encodeURIComponent r ;; Ok (c :: r')
    else if isLead c then
      match r with
      | d :: r2 =>
        if isTrail d then
          r' <- encodeURIComponent r2 ;;
          Ok (pct_octets
                (utf8_encode ((c - 55296) * 1024 + (d - 56320) + 65536)) ++ r')
        else Throw URIError
      | [] => Throw URIError
      end
    else if isTrail c then Throw URIError
    else
      r' <- encodeURIComponent r ;; Ok (pct_octets (utf8_encode c) ++ r')
  end.

(** [decodeURIComponent] in two passes with the same failures as the one
    pass of the standard: first every [%] must start an escape [%XX], then
    the escaped octets must form valid UTF-8. *)
Inductive uri_item : Type :=
| Lit (c : Z)
| Oct (b : Z).

Fixpoint uri_items (s : jsstring) : outcome (list uri_item) :=
  match s with
  | [] => Ok []
  | c :: r =>
    if c =? 37 then
      match r with
      | h1 :: h2 :: r2 =>
        match hexval h1, hexval h2 with
        | Some a, Some b =>
          its <- uri_items r2 ;; Ok (Oct (16 * a + b) :: its)
        | _, _ => Throw URIError
        end
      | _ => Throw URIError
      end
    else
      its <- uri_items r ;; Ok (Lit c :: its)
  end.

Definition isCont (b : Z) : bool := between 128 191 b.

Definition utf16_encode (cp : Z) : jsstring :=
  if cp <? 65536 then [cp]
  else [55296 + Z.shiftr (cp - 65536) 10; 56320 + Z.land (cp - 65536) 1023].

Fixpoint utf8_items (its : list uri_item) : outcome jsstring :=
  match its with
  | [] => Ok []
  | Lit c :: r => s <- utf8_items r ;; Ok (c :: s)
  | Oct b :: r =>
    if b <? 128 then s <- utf8_items r ;; Ok (b :: s)
    else if b <? 192 then Throw URIError
    else if b <? 224 then
      match r with
      | Oct b1 :: r1 =>
        let cp := Z.land b 31 * 64 + Z.land b1 63 in
        if isCont b1 && (128 <=? cp) then
          s <- utf8_items r1 ;; Ok (utf16_encode cp ++ s)
        else Throw URIError
      | _ => Throw URIError
      end
    else if b <? 240 then
      match r with
      | Oct b1 :: Oct b2 :: r2 =>
        let cp := (Z.land b 15 * 64 + Z.land b1 63) * 64 + Z.land b2 63 in
        if isCont b1 && isCont b2 && (2048 <=? cp)
           && negb (between 55296 57343 cp) then
          s <- utf8_items r2 ;; Ok (utf16_encode cp ++ s)
        else Throw URIError
      | _ => Throw URIError
      end
    else if b <? 248 then
      match r with
      | Oct b1 :: Oct b2 :: Oct b3 :: r3 =>
        let cp := ((Z.land b 7 * 64 + Z.land b1 63) * 64 + Z.land b2 63) * 64
                  + Z.land b3 63 in
        if isCont b1 && isCont b2 && isCont b3
           && between 65536 1114111 cp then
          s <- utf8_items r3 ;; Ok (utf16_encode cp ++ s)
        else Throw URIError
      | _ => Throw URIError
      end
    else Throw URIError
  end.

Definition decodeURIComponent (s : jsstring) : outcome jsstring :=
  its <- uri_items s ;; utf8_items its.

(** [escape] (Annex B): [A-Za-z0-9@*_+-./] are kept, other code units below
    256 become [%XX], the rest [%uXXXX]. *)
Definition escapeUnreserved (c : Z) : bool := isAlnum c || mem c (js "@*_+-./").

Definition escape_unit (c : Z) : jsstring :=
  if escapeUnreserved c then [c]
  else if c <? 256 then pct c
  else [37; 117; hexdigit (c / 4096); hexdigit ((c / 256) mod 16);
        hexdigit ((c / 16) mod 16); hexdigit (c mod 16)].

Definition escape (s : jsstring) : jsstring := flat_map escape_unit s.

(** [unescape] (Annex B): never fails; a [%] that starts no escape is kept.
    [%uXXXX] is tried before [%XX]. *)
Definition hex2 (a b : Z) : option Z :=
  match hexval a, hexval b with
  | Some x, Some y => Some (x * 16 + y)
  | _, _ => None
  end.

Definition hex4 (a b c d : Z) : option Z :=
  match hex2 a b, hex2 c d with
  | Some x, Some y => Some (x * 256 + y)
  | _, _ => None
  end.

Fixpoint unescape (s : jsstring) : jsstring :=
  match s with
  | [] => []
  | c :: r =>
    if c =? 37 then
      match r with
      | u :: a :: r2 =>
        let short :=
          match hex2 u a with
          | Some v => v :: unescape r2
          | None => c :: unescape r
          end in
        match r2 with
        | b :: c' :: d :: r5 =>
          if u =? 117 then
            match hex4 a b c' d with
            | Some v => v :: unescape r5
            | None => short
            end
          else short
        | _ => short
        end
      | _ => c :: unescape r
      end
    else c :: unescape r
  end.

(* ================================================================== *)
(** ** Host built-ins: [btoa] and [atob] (HTML, forgiving-base64) *)

Definition b64chars : jsstring :=
  js "ABCDEFGHIJKLMNOPQRSTUVWXYZabcdefghijklmnopqrstuvwxyz0123456789+/".

Definition b64char (n : Z) : Z := nth (Z.to_nat n) b64chars 0.

Definition b64val (c : Z) : option Z :=
  if isUpper c then Some (c - 65)
  else if isLower c then Some (c - 71)
  else if isDigit c then Some (c + 4)
  else if c =? 43 then Some 62
  else if c =? 47 then Some 63
  else None.

Fixpoint b64_encode (bytes : list Z) : jsstring :=
  match bytes with
  | [] => []
  | [a] => [b64char (a / 4); b64char (a mod 4 * 16); 61; 61]
  | [a; b] =>
    [b64char (a / 4); b64char (a mod 4 * 16 + b / 16);
     b64char (b mod 16 * 4); 61]
  | a :: b :: c :: r =>
    b64char (a / 4) :: b64char (a mod 4 * 16 + b / 16)
      :: b64char (b mod 16 * 4 + c / 64) :: b64char (c mod 64)
      :: b64_encode r
  end.

(** [btoa]: InvalidCharacterError on a code unit above 255. *)
Definition btoa (s : jsstring) : outcome jsstring :=
  if existsb (fun c => 255 <? c) s then Throw InvalidCharacterError
  else Ok (b64_encode s).

Definition isAsciiWhitespace (c : Z) : bool :=
  (c =? 9) || (c =? 10) || (c =? 12) || (c =? 13) || (c =? 32).

(** Remove one trailing [=], if there is one. *)
Fixpoint drop_last_eq (d : jsstring) : jsstring :=
  match d with
  | [] => []
  | [c] => if c =? 61 then [] else [c]
  | c :: r => c :: drop_last_eq r
  end.

Definition strip_padding (d : jsstring) : jsstring :=
  if (List.length d mod 4 =? 0)%nat then drop_last_eq (drop_last_eq d) else d.

(** Sextets to octets; the bits left over in a last group of two or three
    are dropped; a last group of one, or a code unit outside the alphabet,
    is a failure. *)
Fixpoint b64_decode (d : jsstring) : option (list Z) :=
  match d with
  | [] => Some []
  | [_] => None
  | [c1; c2] =>
    match b64val c1, b64val c2 with
    | Some v1, Some v2 => Some [v1 * 4 + v2 / 16]
    | _, _ => None
    end
  | [c1; c2; c3] =>
    match b64val c1, b64val c2, b64val c3 with
    | Some v1, Some v2, Some v3 =>
      Some [v1 * 4 + v2 / 16; v2 mod 16 * 16 + v3 / 4]
    | _, _, _ => None
    end
  | c1 :: c2 :: c3 :: c4 :: r =>
    match b64val c1, b64val c2, b64val c3, b64val c4, b64_decode r with
    | Some v1, Some v2, Some v3, Some v4, Some bs =>
      Some (v1 * 4 + v2 / 16 :: v2 mod 16 * 16 + v3 / 4
              :: v3 mod 4 * 64 + v4 :: bs)
    | _, _, _, _, _ => None
    end
  end.

(** [atob]: InvalidCharacterError on failure. *)
Definition atob (s : jsstring) : outcome jsstring :=
  let d := strip_padding (filter (fun c => negb (isAsciiWhitespace c)) s) in
  match b64_decode d with
  | Some bs => Ok bs
  | None => Throw InvalidCharacterError
  end.

(* ================================================================== *)
(** ** The host: [URL] and [location]

    [new URL(url, base)] and the global [location] belong to the browser.
    The program is modelled over any host; [new_URL] throws TypeError where
    the host's parser fails. *)

Record URL : Type := mkURL {
  url_href : jsstring;
  url_protocol : jsstring;
  url_host : jsstring;
  url_hostname : jsstring;
  url_origin : jsstring;
  url_pathname : jsstring;
  url_search : jsstring
}.

Class Host : Type := {
  new_URL : jsstring -> option jsstring -> outcome URL;
  location : URL
}.

(** [a || b] on strings: the empty string is falsy. *)
Definition or_else (a b : jsstring) : jsstring :=
  match a with
  | [] => b
  | _ => a
  end.

(* ================================================================== *)
(** ** uv.bundle.js: [codecs] *)

Module codecs.

Inductive id : Type := none | plain | xor | base64.

(** The loop shared by [xor.encode] and [xor.decode]:
    [result += i % 2 ? String.fromCharCode(str.charCodeAt(i) ^ 2) : str[i]]. *)
Fixpoint xor_loop (i : nat) (str : jsstring) : jsstring :=
  match str with
  | [] => []
  | c :: r => (if Nat.odd i then Z.lxor c 2 else c) :: xor_loop (S i) r
  end.

Definition encode (k : id) (str : jsstring) : outcome jsstring :=
  match k with
  | none => Ok str
  | plain =>
    match str with
    | [] => Ok str
    | _ => encodeURIComponent str
    end
  | xor =>
    match str with
    | [] => Ok str
    | _ => encodeURIComponent (xor_loop 0 str)
    end
  | base64 =>
    match str with
    | [] => Ok str
    | _ => e <- encodeURIComponent str ;; btoa e
    end
  end.

Definition decode (k : id) (str : jsstring) : outcome jsstring :=
  match k with
  | none => Ok str
  | plain =>
    match str with
    | [] => Ok str
    | _ => decodeURIComponent str
    end
  | xor =>
    match str with
    | [] => Ok str
    | _ => d <- decodeURIComponent str ;; Ok (xor_loop 0 d)
    end
  | base64 =>
    match str with
    | [] => Ok str
    | _ => b <- atob str ;; decodeURIComponent b
    end
  end.

End codecs.

(* ================================================================== *)
(** ** uv.bundle.js: [Ultraviolet] *)

Module bundle.

Record Meta : Type := {
  base : jsstring;     (* [null] is the empty string: both are falsy *)
  origin : jsstring;
  url : jsstring
}.

Record Ultraviolet : Type := {
  prefix : jsstring;
  encodeUrl : jsstring -> outcome jsstring;
  decodeUrl : jsstring -> outcome jsstring;
  meta : Meta
}.

Record Options : Type := {
  opt_prefix : jsstring;
  opt_codec : option codecs.id;
  opt_encodeUrl : option (jsstring -> outcome jsstring);
  opt_decodeUrl : option (jsstring -> outcome jsstring);
  opt_meta : option Meta
}.

(** [options = {}]. *)
Definition no_options : Options :=
  {| opt_prefix := []; opt_codec := None; opt_encodeUrl := None;
     opt_decodeUrl := None; opt_meta := None |}.

Section WithHost.
Context {H : Host}.

(** [constructor(options = {})]. *)
Definition new (options : Options) : Ultraviolet :=
  let codec := match opt_codec options with
               | Some k => k
               | None => codecs.xor
               end in
  let m := match opt_meta options with
           | Some m => m
           | None => {| base := []; origin := []; url := [] |}
           end in
  {| prefix := or_else (opt_prefix options) (js "/service/");
     encodeUrl := match opt_encodeUrl options with
                  | Some f => f
                  | None => codecs.encode codec
                  end;
     decodeUrl := match opt_decodeUrl options with
                  | Some f => f
                  | None => codecs.decode codec
                  end;
     meta := {| base := base m;
                origin := or_else (origin m) (url_origin location);
                url := url m |} |}.

(** [this.urlRegex = /^(#|about:|data:|mailto:|blob:|javascript:)/]. *)
Definition urlRegex_test (u : jsstring) : bool :=
  existsb (startsWith u)
    [js "#"; js "about:"; js "data:"; js "mailto:"; js "blob:";
     js "javascript:"].

(** [if (!code) return code; return String(code);] *)
Definition rewriteJS (code : jsstring) : jsstring := code.

Definition rewriteUrl (this : Ultraviolet) (u : jsstring)
           (m : option Meta) : outcome jsstring :=
  let m := match m with Some m => m | None => meta this end in
  match u with
  | [] => Ok u
  | _ =>
    let u := trim u in
    if urlRegex_test u then Ok u
    else if startsWith u (js "javascript:") then
      Ok (js "javascript:" ++ rewriteJS (slice 11 u))
    else
      try_catch
        (let b := or_else (base m) (or_else (url m) (url_href location)) in
         resolved <-
           (if startsWith u (js "//") then Ok (url_protocol location ++ u)
            else (r <- new_URL u (Some b) ;; Ok (url_href r))) ;;
         let o := or_else (origin m) (url_origin location) in
         e <- encodeUrl this resolved ;;
         Ok (o ++ prefix this ++ e))
        (fun _ =>
           let o := or_else (origin m) (url_origin location) in
           e <- encodeUrl this u ;;
           Ok (o ++ prefix this ++ e))
  end.

Definition sourceUrl (this : Ultraviolet) (u : jsstring)
           (m : option Meta) : outcome jsstring :=
  let m := match m with Some m => m | None => meta this end in
  match u with
  | [] => Ok u
  | _ =>
    if urlRegex_test u then Ok u
    else
      try_catch
        (let o := or_else (origin m) (url_origin location) in
         let p := o ++ prefix this in
         if startsWith u p then
           decodeUrl this (slice (List.length p) u)
         else if startsWith u (prefix this) then
           decodeUrl this (slice (List.length (prefix this)) u)
         else Ok u)
        (fun _ => Ok u)
  end.

Record Cookie : Type := {
  name : jsstring;
  value : jsstring;
  domain : jsstring;   (* absent is the empty string *)
  path : jsstring;     (* absent is the empty string *)
  secure : bool;
  httpOnly : bool
}.

Definition nonempty (s : jsstring) : bool :=
  match s with
  | [] => false
  | _ => true
  end.

Definition validateCookie (this : Ultraviolet) (cookie : Cookie)
           (m : Meta) (js_ : bool) : bool :=
  if httpOnly cookie && js_ then false
  else
    let u := or_else (url m) (url (meta this)) in
    match new_URL u None with
    | Throw _ => false
    | Ok parsed =>
      let hostname := url_hostname parsed in
      let path_ := url_pathname parsed in
      let protocol := url_protocol parsed in
      let d := domain cookie in
      if nonempty d
         && (if startsWith d (js ".") then
               negb (endsWith hostname (slice 1 d))
               && negb (jsstring_eqb hostname (slice 1 d))
             else
               negb (jsstring_eqb hostname d)
               && negb (endsWith hostname (js "." ++ d)))
      then false
      else if secure cookie && jsstring_eqb protocol (js "http:") then false
      else if nonempty (path cookie)
              && negb (startsWith path_ (path cookie)) then false
      else true
    end.

Fixpoint join (sep : jsstring) (l : list jsstring) : jsstring :=
  match l with
  | [] => []
  | [x] => x
  | x :: r => x ++ sep ++ join sep r
  end.

Definition serializeCookies (this : Ultraviolet) (cookies : list Cookie)
           (m : Meta) (js_ : bool) : jsstring :=
  let valid := filter (fun c => validateCookie this c m js_) cookies in
  join (js "; ") (map (fun c => name c ++ js "=" ++ value c) valid).

End WithHost.

End bundle.

(* ================================================================== *)
(** ** uv.config.js: [__uv$config] *)

Record Config : Type := {
  config_prefix : jsstring;
  config_encodeUrl : jsstring -> outcome jsstring;
  config_decodeUrl : jsstring -> outcome jsstring
}.

Definition uv_config : Config :=
  {| config_prefix := js "/service/";
     config_encodeUrl := codecs.encode codecs.xor;
     config_decodeUrl := codecs.decode codecs.xor |}.

(* ================================================================== *)
(** ** uv.handler.js: [rewriteUrl] *)

Module handler.

Section WithHost.
Context {H : Host}.
Variable config : Config.

(** [const uv = new Ultraviolet(config)]. *)
Definition uv : bundle.Ultraviolet :=
  bundle.new {| bundle.opt_prefix := config_prefix config;
                bundle.opt_codec := None;
                bundle.opt_encodeUrl := Some (config_encodeUrl config);
                bundle.opt_decodeUrl := Some (config_decodeUrl config);
                bundle.opt_meta := None |}.

Definition special (u : jsstring) : bool :=
  startsWith u (js "data:") || startsWith u (js "blob:") ||
  startsWith u (js "javascript:") || startsWith u (js "about:") ||
  startsWith u (js "mailto:") || startsWith u (js "tel:") ||
  startsWith u (js "#").

(** [source] is [uv.source], the decoded URL of the current page. *)
Definition rewriteUrl (source : jsstring) (u base : jsstring)
  : outcome jsstring :=
  match u with
  | [] => Ok u
  | _ =>
    let u := trim u in
    try_catch
      (if special u then Ok u
       else if includes u (config_prefix config) then Ok u
       else
         r <- new_URL u (Some (or_else base source)) ;;
         e <- bundle.encodeUrl uv (url_href r) ;;
         Ok (config_prefix config ++ e))
      (fun _ => Ok u)
  end.

End WithHost.

End handler.

(* ================================================================== *)
(** ** uv.bundle.js, client script: [HookEvent], [EventEmitter],
       [UVClient.override], [FetchHook] *)

Module client.

(** The JavaScript values passed to [fetch]. *)
Inductive value : Type :=
| Undefined
| Str (s : jsstring).

(** [HookEvent] of a [fetch] call: [data] is [{ input, init }]. *)
Record HookEvent : Type := {
  data_input : value;
  data_init : value;
  intercepted : bool;
  returnValue : value
}.

Definition new_HookEvent (input init : value) : HookEvent :=
  {| data_input := input; data_init := init;
     intercepted := false; returnValue := Undefined |}.

Definition respondWith (v : value) (e : HookEvent) : HookEvent :=
  {| data_input := data_input e; data_init := data_init e;
     intercepted := true; returnValue := v |}.

(** A listener reads and mutates the event, and may throw. *)
Definition listener : Type := HookEvent -> outcome HookEvent.

(** [this._events]. *)
Definition events : Type := list (jsstring * list listener).

Fixpoint lookup (name : jsstring) (ev : events) : option (list listener) :=
  match ev with
  | [] => None
  | (k, fns) :: r => if jsstring_eqb k name then Some fns else lookup name r
  end.

(** [on(event, listener)]. *)
Fixpoint on (name : jsstring) (fn : listener) (ev : events) : events :=
  match ev with
  | [] => [(name, [fn])]
  | (k, fns) :: r =>
    if jsstring_eqb k name then (k, fns ++ [fn]) :: r
    else (k, fns) :: on name fn r
  end.

(** [this._events[event].forEach(fn => fn.apply(this, args))]. *)
Fixpoint forEach (fns : list listener) (e : HookEvent) : outcome HookEvent :=
  match fns with
  | [] => Ok e
  | fn :: r => e' <- fn e ;; forEach r e'
  end.

(** [emit(event, ...args)] of the client's EventEmitter. *)
Definition emit (ev : events) (name : jsstring) (e : HookEvent)
  : outcome (bool * HookEvent) :=
  match lookup name ev with
  | None => Ok (false, e)
  | Some fns => e' <- forEach fns e ;; Ok (true, e')
  end.

(** The original primitive, and the record of its invocations. *)
Definition primitive : Type := list value -> outcome value.
Definition call : Type := list value.

Definition invoke (target : primitive) (args : list value)
  : outcome value * list call :=
  (target args, [args]).

(** The wrapper that [FetchHook.override] hands to [ctx.override]. *)
Definition fetch_wrapper (hook : events) (target : primitive)
           (args : list value) : outcome value * list call :=
  match args with
  | [] => invoke target args
  | input :: rest =>
    let init := hd Undefined rest in
    match emit hook (js "request") (new_HookEvent input init) with
    | Throw e => (Throw e, [])
    | Ok (_, event) =>
      if intercepted event then (Ok (returnValue event), [])
      else invoke target [data_input event; data_init event]
    end
  end.

(** [UVClient.override(obj, prop, wrapper)]: [obj[prop]] becomes
    [function(...args) { return wrapper(original, this, args); }]. *)
Definition override (original : primitive)
           (wrapper : primitive -> list value -> outcome value * list call)
  : list value -> outcome value * list call :=
  fun args => wrapper original args.

(** [window.fetch] after [FetchHook.override()]. *)
Definition fetch (hook : events) (original : primitive)
  : list value -> outcome value * list call :=
  override original (fetch_wrapper hook).

End client.

(* ================================================================== *)
(** ** sw.js

    [encodeUrl] and [decodeUrl] return [null] from their [catch] block;
    [null] is [None]. *)

Module sw.

Definition PROXY_PREFIX : jsstring := js "/service/".

Definition encodeUrl (url : jsstring) : outcome (option jsstring) :=
  try_catch
    (e <- encodeURIComponent url ;;
     b <- btoa (unescape e) ;;
     Ok (Some (removeAll 61 (replaceAll 47 95 (replaceAll 43 45 b)))))
    (fun _ => Ok None).

(** [while (padded.length % 4) padded += '=']: at most three rounds. *)
Definition pad4 (s : jsstring) : jsstring :=
  s ++ repeat 61 ((4 - List.length s mod 4) mod 4)%nat.

Definition decodeUrl (encoded : jsstring) : outcome (option jsstring) :=
  try_catch
    (let padded := pad4 (replaceAll 95 47 (replaceAll 45 43 encoded)) in
     b <- atob padded ;;
     d <- decodeURIComponent (escape b) ;;
     Ok (Some d))
    (fun _ => Ok None).

Definition skipPrefixes : list jsstring :=
  [js "data:"; js "blob:"; js "javascript:"; js "about:"; js "chrome:";
   js "chrome-extension:"; js "moz-extension:"; js "safari-extension:"].

Definition shouldProxy (u : jsstring) : bool :=
  match u with
  | [] => false
  | _ => negb (existsb (fun p => startsWith u p) skipPrefixes)
  end.

(** [PROXY_PREFIX + encoded], where [encoded] may be [null]. *)
Definition concat_nullable (p : jsstring) (e : option jsstring) : jsstring :=
  match e with
  | Some e => p ++ e
  | None => p ++ js "null"
  end.

(** Header lists.  Names are compared without case, as [Headers] does. *)
Definition Headers : Type := list (jsstring * jsstring).

Definition same_name (a b : jsstring) : bool :=
  jsstring_eqb (toLowerCase a) (toLowerCase b).

Definition headers_get (h : Headers) (n : jsstring) : option jsstring :=
  match filter (fun kv => same_name (fst kv) n) h with
  | [] => None
  | l => Some (bundle.join (js ", ") (map snd l))
  end.

Definition headers_set (h : Headers) (n v : jsstring) : Headers :=
  filter (fun kv => negb (same_name (fst kv) n)) h ++ [(n, v)].

Definition headers_has (h : Headers) (n : jsstring) : bool :=
  existsb (fun kv => same_name (fst kv) n) h.

Record Request : Type := {
  req_url : jsstring;
  req_method : jsstring;
  req_headers : Headers;
  req_body : jsstring
}.

(** [new Request(url, init)] as handed to [fetch]. *)
Record ProxyRequest : Type := {
  preq_url : jsstring;
  preq_method : jsstring;
  preq_headers : Headers;
  preq_body : option jsstring;
  preq_mode : jsstring;
  preq_credentials : jsstring;
  preq_redirect : jsstring
}.

(** [response.type]; [basic] stands for every type other than
    [opaqueredirect]. *)
Inductive ResponseType : Type := basic | opaqueredirect.

(** What [fetch] resolves to. *)
Record Response : Type := {
  resp_type : ResponseType;
  resp_status : Z;
  resp_statusText : jsstring;
  resp_headers : Headers;
  resp_body : jsstring
}.

(** What [handleProxyRequest] answers: the call it returns. *)
Inductive Answer : Type :=
| new_Response (body : jsstring) (status : Z) (statusText : jsstring)
               (headers : Headers)
| Response_redirect (url : jsstring) (status : Z).

Definition redirectStatuses : list Z := [301; 302; 303; 307; 308].

(** [Response.redirect(url, status)]: RangeError unless [status] is a
    redirect status.  The URL is recorded as it is passed; the host
    serializes it against the worker's own URL. *)
Definition redirect (u : jsstring) (status : Z) : outcome Answer :=
  if existsb (Z.eqb status) redirectStatuses
  then Ok (Response_redirect u status)
  else Throw RangeError.

(** [new Response(body, { status, statusText, headers })]: RangeError
    unless [200 <= status <= 599]. *)
Definition respond (body : jsstring) (status : Z) (statusText : jsstring)
           (headers : Headers) : outcome Answer :=
  if between 200 599 status
  then Ok (new_Response body status statusText headers)
  else Throw RangeError.

Definition forwardHeaders : list jsstring :=
  [js "accept"; js "accept-language"; js "content-type"; js "range";
   js "if-none-match"; js "if-modified-since"].

Definition strippedHeaders : list jsstring :=
  [js "content-security-policy"; js "x-frame-options";
   js "content-encoding"].

Section WithHost.
Context {H : Host}.

Definition createProxyUrl (originalUrl baseUrl : jsstring)
  : outcome jsstring :=
  if negb (shouldProxy originalUrl) then Ok originalUrl
  else
    try_catch
      (absolute <-
         (if startsWith originalUrl (js "//") then
            b <- new_URL baseUrl None ;;
            Ok (url_protocol b ++ originalUrl)
          else if startsWith originalUrl (js "/") then
            b <- new_URL baseUrl None ;;
            Ok (url_origin b ++ originalUrl)
          else if negb (startsWith originalUrl (js "http://"))
                  && negb (startsWith originalUrl (js "https://")) then
            r <- new_URL originalUrl (Some baseUrl) ;; Ok (url_href r)
          else Ok originalUrl) ;;
       encoded <- encodeUrl absolute ;;
       Ok (concat_nullable PROXY_PREFIX encoded))
      (fun _ => Ok originalUrl).

(** The [headers] object built from [forwardHeaders] and the target. *)
Definition filteredHeaders (request : Request) (targetUrl : jsstring)
  : outcome Headers :=
  let copied :=
    fold_left
      (fun h n =>
         match headers_get (req_headers request) n with
         | Some v => if bundle.nonempty v then headers_set h n v else h
         | None => h
         end)
      forwardHeaders [] in
  t <- new_URL targetUrl None ;;
  Ok (headers_set
        (headers_set (headers_set copied (js "Host") (url_host t))
                     (js "Origin") (url_origin t))
        (js "Referer") targetUrl).

(** [new Request(request.url, { method: request.method,
    headers: request.headers, body: .., mode: 'same-origin',
    credentials: 'include', redirect: 'manual' })]. *)
Definition proxyRequest (request : Request) : ProxyRequest :=
  {| preq_url := req_url request;
     preq_method := req_method request;
     preq_headers := req_headers request;
     preq_body :=
       if negb (jsstring_eqb (req_method request) (js "GET"))
          && negb (jsstring_eqb (req_method request) (js "HEAD"))
       then Some (req_body request) else None;
     preq_mode := js "same-origin";
     preq_credentials := js "include";
     preq_redirect := js "manual" |}.

Definition isRedirect (response : Response) : bool :=
  match resp_type response with
  | opaqueredirect => true
  | basic => existsb (Z.eqb (resp_status response)) redirectStatuses
  end.

(** [response.status || 302]. *)
Definition status_or_302 (status : Z) : Z :=
  if status =? 0 then 302 else status.

(** The headers that survive to the page.  [Headers] iterates its names in
    lower case; that it also sorts them and joins repeated names is left
    out. *)
Definition passedHeaders (h : Headers) : Headers :=
  fold_left
    (fun acc kv =>
       let lowerKey := toLowerCase (fst kv) in
       if existsb (jsstring_eqb lowerKey) strippedHeaders then acc
       else headers_set acc (toLowerCase (fst kv)) (snd kv))
    h [].

(** [if (url.search) targetUrl += (targetUrl.includes('?') ? '&' : '?')
    + url.search.slice(1)]. *)
Definition appendQuery (targetUrl search : jsstring) : jsstring :=
  match search with
  | [] => targetUrl
  | _ => targetUrl
         ++ (if includes targetUrl (js "?") then js "&" else js "?")
         ++ slice 1 search
  end.

(** [url] is [new URL(request.url)], of which [pathname] and [search]
    are read; [fetch] is the fetch executor. *)
Definition handleProxyRequest
           (fetch : ProxyRequest -> outcome Response)
           (request : Request) (pathname search : jsstring)
  : outcome Answer :=
  let encoded := slice (List.length PROXY_PREFIX) pathname in
  decoded <- decodeUrl encoded ;;
  match decoded with
  | None | Some [] => respond (js "Invalid encoded URL") 400 [] []
  | Some targetUrl =>
    let targetUrl := appendQuery targetUrl search in
    try_catch
      (_ <- filteredHeaders request targetUrl ;;
       response <- fetch (proxyRequest request) ;;
       let pass :=
         respond (resp_body response) (resp_status response)
                 (resp_statusText response)
                 (passedHeaders (resp_headers response)) in
       if isRedirect response then
         match headers_get (resp_headers response) (js "Location") with
         | Some ((_ :: _) as loc) =>
           newUrl <- new_URL loc (Some targetUrl) ;;
           proxiedLocation <- createProxyUrl (url_href newUrl) targetUrl ;;
           redirect proxiedLocation (status_or_302 (resp_status response))
         | _ => pass
         end
       else pass)
      (fun error => respond (js "Proxy error: " ++ message error) 502 [] [])
  end.

End WithHost.

End sw.

(* ================================================================== *)
(** ** A reference host

    A parser for the part of the URL standard that the scenarios below
    use: absolute URLs [scheme://host[:port]/path?query#fragment] for the
    schemes http, https, ws, wss and ftp, other schemes with an opaque or a
    hierarchical path, and references relative to such a base, with [.] and
    [..] segments removed.  It does not percent-encode, and knows no
    userinfo, IPv6 literal, backslash or tab; [http:] without [//] is
    refused.  The theorems that hold for every host do not depend on it. *)

Module RefHost.

Definition isAlpha (c : Z) : bool := isUpper c || isLower c.
Definition isSchemeChar (c : Z) : bool := isAlnum c || mem c (js "+-.").

Fixpoint scheme_rest (s acc : jsstring) : option (jsstring * jsstring) :=
  match s with
  | [] => None
  | c :: r =>
    if c =? 58 then Some (toLowerCase (rev acc), r)
    else if isSchemeChar c then scheme_rest r (c :: acc)
    else None
  end.

Definition split_scheme (s : jsstring) : option (jsstring * jsstring) :=
  match s with
  | c :: _ => if isAlpha c then scheme_rest s [] else None
  | [] => None
  end.

(** Split before the first code unit that satisfies [p]. *)
Fixpoint break (p : Z -> bool) (s : jsstring) : jsstring * jsstring :=
  match s with
  | [] => ([], [])
  | c :: r =>
    if p c then ([], s)
    else let (a, b) := break p r in (c :: a, b)
  end.

Definition after_mark (s : jsstring) : option jsstring :=
  match s with
  | [] => None
  | _ :: r => Some r
  end.

Fixpoint split_on (sep : Z) (s : jsstring) : list jsstring :=
  match s with
  | [] => [[]]
  | c :: r =>
    if c =? sep then [] :: split_on sep r
    else match split_on sep r with
         | [] => [[c]]
         | x :: l => (c :: x) :: l
         end
  end.

Definition isDot (seg : jsstring) : bool := jsstring_eqb seg (js ".").
Definition isDotDot (seg : jsstring) : bool := jsstring_eqb seg (js "..").

(** Segments in reverse order in [stack]. *)
Fixpoint shorten (segs stack : list jsstring) : list jsstring :=
  match segs with
  | [] => rev stack
  | seg :: r =>
    let last := match r with [] => true | _ => false end in
    if isDotDot seg then
      shorten r (if last then [] :: tl stack else tl stack)
    else if isDot seg then
      shorten r (if last then [] :: stack else stack)
    else shorten r (seg :: stack)
  end.

(** [path] starts with [/]. *)
Definition remove_dots (path : jsstring) : jsstring :=
  match path with
  | [] => []
  | _ :: p =>
    47 :: bundle.join (js "/") (shorten (split_on 47 p) [])
  end.

Definition special (scheme : jsstring) : bool :=
  existsb (jsstring_eqb scheme)
    [js "http"; js "https"; js "ws"; js "wss"; js "ftp"].

Definition default_port (scheme : jsstring) : jsstring :=
  if jsstring_eqb scheme (js "http") || jsstring_eqb scheme (js "ws")
  then js "80"
  else if jsstring_eqb scheme (js "https") || jsstring_eqb scheme (js "wss")
  then js "443"
  else if jsstring_eqb scheme (js "ftp") then js "21"
  else [].

Record parts : Type := {
  scheme : jsstring;
  hostname : option jsstring;
  port : jsstring;
  path : jsstring;
  opaque : bool;
  query : option jsstring;
  fragment : option jsstring
}.

(** [path?query#fragment] *)
Definition split_tail (s : jsstring)
  : jsstring * option jsstring * option jsstring :=
  let (pq, f) := break (Z.eqb 35) s in
  let (p, q) := break (Z.eqb 63) pq in
  (p, after_mark q, after_mark f).

Definition split_authority (scheme auth : jsstring) : jsstring * jsstring :=
  let (h, p) := break (Z.eqb 58) auth in
  let p := match p with [] => [] | _ :: d => d end in
  (if special scheme then toLowerCase h else h,
   if jsstring_eqb p (default_port scheme) then [] else p).

Definition parse_absolute (scheme rest : jsstring) : outcome parts :=
  match split_tail rest with
  | (p, q, f) =>
    if startsWith p (js "//") then
      let (auth, pth) := break (Z.eqb 47) (slice 2 p) in
      let (h, prt) := split_authority scheme auth in
      if special scheme && negb (bundle.nonempty h) then Throw TypeError
      else
        Ok {| scheme := scheme; hostname := Some h; port := prt;
              path := match pth with
                      | [] => if special scheme then js "/" else []
                      | _ => remove_dots pth
                      end;
              opaque := false; query := q; fragment := f |}
    else if special scheme then Throw TypeError
    else if startsWith p (js "/") then
      Ok {| scheme := scheme; hostname := None; port := [];
            path := remove_dots p; opaque := false;
            query := q; fragment := f |}
    else
      Ok {| scheme := scheme; hostname := None; port := [];
            path := p; opaque := true; query := q; fragment := f |}
  end.

Fixpoint drop_last_segment (p : jsstring) : jsstring :=
  match p with
  | [] => []
  | c :: r =>
    if existsb (Z.eqb 47) r then c :: drop_last_segment r
    else if c =? 47 then [47] else []
  end.

Definition parse_relative (b : parts) (input : jsstring) : outcome parts :=
  if opaque b then Throw TypeError
  else
    match split_tail input with
    | (p, q, f) =>
      if startsWith p (js "//") then
        parse_absolute (scheme b) input
      else if startsWith p (js "/") then
        Ok {| scheme := scheme b; hostname := hostname b; port := port b;
              path := remove_dots p; opaque := false;
              query := q; fragment := f |}
      else
        match p with
        | [] =>
          Ok {| scheme := scheme b; hostname := hostname b; port := port b;
                path := path b; opaque := false;
                query := match q with Some _ => q | None => query b end;
                fragment := f |}
        | _ =>
          Ok {| scheme := scheme b; hostname := hostname b; port := port b;
                path := remove_dots
                          (or_else (drop_last_segment (path b)) (js "/") ++ p);
                opaque := false; query := q; fragment := f |}
        end
    end.

(** Leading and trailing C0 controls and spaces are dropped. *)
Definition strip (s : jsstring) : jsstring :=
  let d := fix d (s : jsstring) : jsstring :=
             match s with
             | [] => []
             | c :: r => if c <=? 32 then d r else s
             end in
  rev (d (rev (d s))).

Definition parse (input : jsstring) (base : option jsstring) : outcome parts :=
  let input := strip input in
  match split_scheme input with
  | Some (sch, rest) =>
    match base with
    | Some b =>
      match split_scheme (strip b) with
      | Some (bs, brest) => _ <- parse_absolute bs brest ;;
                            parse_absolute sch rest
      | None => Throw TypeError
      end
    | None => parse_absolute sch rest
    end
  | None =>
    match base with
    | Some b =>
      match split_scheme (strip b) with
      | Some (bs, brest) =>
        bp <- parse_absolute bs brest ;; parse_relative bp input
      | None => Throw TypeError
      end
    | None => Throw TypeError
    end
  end.

Definition host_of (p : parts) : jsstring :=
  match hostname p with
  | Some h => h ++ match port p with [] => [] | prt => 58 :: prt end
  | None => []
  end.

Definition marked (m : Z) (x : option jsstring) : jsstring :=
  match x with
  | Some s => m :: s
  | None => []
  end.

Definition serialize (p : parts) : URL :=
  let auth := match hostname p with
              | Some _ => js "//" ++ host_of p
              | None => []
              end in
  {| url_href := scheme p ++ js ":" ++ auth ++ path p
                 ++ marked 63 (query p) ++ marked 35 (fragment p);
     url_protocol := scheme p ++ js ":";
     url_host := host_of p;
     url_hostname := match hostname p with Some h => h | None => [] end;
     url_origin := if special (scheme p)
                   then scheme p ++ js "://" ++ host_of p
                   else js "null";
     url_pathname := path p;
     url_search := match query p with
                   | Some ((_ :: _) as q) => 63 :: q
                   | _ => []
                   end |}.

Definition URL_constructor (input : jsstring) (base : option jsstring)
  : outcome URL :=
  p <- parse input base ;; Ok (serialize p).

(** The page is served from [https://proxy.example]. *)
Definition page : jsstring := js "https://proxy.example/".

Definition page_location : URL :=
  match URL_constructor page None with
  | Ok u => u
  | Throw _ => mkURL [] [] [] [] [] [] []
  end.

#[export] Instance host : Host :=
  {| new_URL := URL_constructor; location := page_location |}.

End RefHost.

(* ================================================================== *)
(** ** uv.bundle.js: the attribute tests of [Ultraviolet]

    [lower] is the host's [String.prototype.toLowerCase]. *)

Module attrs.

Section WithLower.
Variable lower : jsstring -> jsstring.

Definition one_of (n : jsstring) (l : list jsstring) : bool :=
  existsb (jsstring_eqb n) l.

Definition urlAttributes : list jsstring :=
  [js "src"; js "href"; js "action"; js "poster"; js "background"; js "ping";
   js "movie"; js "profile"; js "data"; js "formaction"; js "icon";
   js "manifest"; js "codebase"; js "cite"; js "archive"; js "longdesc";
   js "usemap"].

(** [isUrlAttr(name, tag = '')]. *)
Definition isUrlAttr (name tag : jsstring) : bool :=
  let name := lower name in
  if jsstring_eqb tag (js "object") && jsstring_eqb name (js "data") then true
  else one_of name urlAttributes.

Definition isForbidden (name : jsstring) : bool :=
  one_of (lower name)
         [js "http-equiv"; js "integrity"; js "sandbox"; js "nonce";
          js "crossorigin"].

Definition isHtml (name : jsstring) : bool :=
  jsstring_eqb (lower name) (js "srcdoc").

Definition isSrcset (name : jsstring) : bool :=
  one_of (lower name) [js "srcset"; js "imagesrcset"].

Definition isStyle (name : jsstring) : bool :=
  jsstring_eqb (lower name) (js "style").

End WithLower.

End attrs.

(* ================================================================== *)
(** ** uv.bundle.js, client script: the overrides of the hook classes

    Fifteen overrides have the shape of [FetchHook.override]: below a
    minimal number of arguments the original is applied to the arguments as
    they are; otherwise the leading arguments are destructured into the
    [data] of a [HookEvent], the listeners of one event run, and the
    original is called with the values read back from [data].
    [XHRHook.overrideOpen] also forwards the remaining arguments.  These
    are the overrides of [shapes].

    [XHRHook.overrideResponseUrl], [DocumentHook.overrideCookie],
    [FunctionHook.overrideFunction] and [FunctionHook.overrideToString]
    have other shapes (the two getters call the original before they
    dispatch) and are not modelled. *)

Module hooks.

Definition value : Type := client.value.

(** [event.data], an object: keys and values. *)
Definition data : Type := list (jsstring * value).

(** [data[k]]: [undefined] for a missing key. *)
Fixpoint get (k : jsstring) (d : data) : value :=
  match d with
  | [] => client.Undefined
  | (k', v) :: r => if jsstring_eqb k' k then v else get k r
  end.

(** [data[k] = v]. *)
Fixpoint set (k : jsstring) (v : value) (d : data) : data :=
  match d with
  | [] => [(k, v)]
  | (k', v') :: r =>
    if jsstring_eqb k' k then (k', v) :: r else (k', v') :: set k v r
  end.

Record HookEvent : Type := {
  event_data : data;
  intercepted : bool;
  returnValue : value
}.

Definition new_HookEvent (d : data) : HookEvent :=
  {| event_data := d; intercepted := false; returnValue := client.Undefined |}.

Definition respondWith (v : value) (e : HookEvent) : HookEvent :=
  {| event_data := event_data e; intercepted := true; returnValue := v |}.

Definition listener : Type := HookEvent -> outcome HookEvent.

(** [this._events = {}]: the own properties of an object literal, each an
    array of listeners. *)
Definition events : Type := list (jsstring * list listener).

(** The properties an object literal inherits from [Object.prototype] in
    a fresh realm (ECMAScript with its Annex B).  Each is a function, and
    [__proto__] is [Object.prototype] itself: truthy, and without [push]
    and [forEach]. *)
Definition Object_prototype : list jsstring :=
  [js "constructor"; js "hasOwnProperty"; js "isPrototypeOf";
   js "propertyIsEnumerable"; js "toLocaleString"; js "toString";
   js "valueOf"; js "__proto__"; js "__defineGetter__";
   js "__defineSetter__"; js "__lookupGetter__"; js "__lookupSetter__"].

Definition inherited (name : jsstring) : bool :=
  existsb (jsstring_eqb name) Object_prototype.

Fixpoint own (name : jsstring) (ev : events) : option (list listener) :=
  match ev with
  | [] => None
  | (k, fns) :: r => if jsstring_eqb k name then Some fns else own name r
  end.

(** What [this._events[name]] is. *)
Inductive slot : Type :=
| listeners (fns : list listener)
| inherited_value
| undefined.

(** [this._events[name]]: the own property, or else what the prototype
    has. *)
Definition lookup (name : jsstring) (ev : events) : slot :=
  match own name ev with
  | Some fns => listeners fns
  | None => if inherited name then inherited_value else undefined
  end.

(** [this._events[name].push(fn)], after [this._events[name] = []] where
    there was no own array. *)
Fixpoint push (name : jsstring) (fn : listener) (ev : events) : events :=
  match ev with
  | [] => [(name, [fn])]
  | (k, fns) :: r =>
    if jsstring_eqb k name then (k, fns ++ [fn]) :: r
    else (k, fns) :: push name fn r
  end.

(** [on(event, listener)]: an inherited value is truthy, so no array is
    made, and it has no [push]: TypeError. *)
Definition on (name : jsstring) (fn : listener) (ev : events)
  : outcome events :=
  match lookup name ev with
  | inherited_value => Throw TypeError
  | _ => Ok (push name fn ev)
  end.

Fixpoint forEach (fns : list listener) (e : HookEvent) : outcome HookEvent :=
  match fns with
  | [] => Ok e
  | fn :: r => e' <- fn e ;; forEach r e'
  end.

(** [emit(event, ...args)]: an inherited value is truthy and has no
    [forEach]: TypeError. *)
Definition emit (ev : events) (name : jsstring) (e : HookEvent)
  : outcome (bool * HookEvent) :=
  match lookup name ev with
  | undefined => Ok (false, e)
  | listeners fns => e' <- forEach fns e ;; Ok (true, e')
  | inherited_value => Throw TypeError
  end.

(** [let [k1, k2, ..] = args] as the object [{ k1, k2, .. }]. *)
Fixpoint destructure (keys : list jsstring) (args : list value) : data :=
  match keys with
  | [] => []
  | k :: ks => (k, hd client.Undefined args) :: destructure ks (tl args)
  end.

Record shape : Type := {
  event_name : jsstring;
  min_args : nat;
  keys : list jsstring;
  forwards_rest : bool
}.

Definition wrapper (s : shape) (hook : events) (target : client.primitive)
           (args : list value) : outcome value * list client.call :=
  if (List.length args <? min_args s)%nat then client.invoke target args
  else
    match emit hook (event_name s) (new_HookEvent (destructure (keys s) args))
    with
    | Throw e => (Throw e, [])
    | Ok (_, event) =>
      if intercepted event then (Ok (returnValue event), [])
      else client.invoke target
             (map (fun k => get k (event_data event)) (keys s)
              ++ (if forwards_rest s
                  then skipn (List.length (keys s)) args else []))
    end.

Definition fetch_shape : shape :=
  {| event_name := js "request"; min_args := 1;
     keys := [js "input"; js "init"]; forwards_rest := false |}.

Definition xhr_open_shape : shape :=
  {| event_name := js "open"; min_args := 2;
     keys := [js "method"; js "input"]; forwards_rest := true |}.

Definition setAttribute_shape : shape :=
  {| event_name := js "setAttribute"; min_args := 2;
     keys := [js "name"; js "value"]; forwards_rest := false |}.

Definition getAttribute_shape : shape :=
  {| event_name := js "getAttribute"; min_args := 1;
     keys := [js "name"]; forwards_rest := false |}.

Definition pushState_shape : shape :=
  {| event_name := js "pushState"; min_args := 3;
     keys := [js "state"; js "title"; js "url"]; forwards_rest := false |}.

Definition replaceState_shape : shape :=
  {| event_name := js "replaceState"; min_args := 3;
     keys := [js "state"; js "title"; js "url"]; forwards_rest := false |}.

Definition postMessage_shape : shape :=
  {| event_name := js "postMessage"; min_args := 1;
     keys := [js "message"; js "origin"; js "transfer"];
     forwards_rest := false |}.

Definition sendBeacon_shape : shape :=
  {| event_name := js "sendBeacon"; min_args := 1;
     keys := [js "url"; js "data"]; forwards_rest := false |}.

Definition createObjectURL_shape : shape :=
  {| event_name := js "createObjectURL"; min_args := 1;
     keys := [js "object"]; forwards_rest := false |}.

Definition revokeObjectURL_shape : shape :=
  {| event_name := js "revokeObjectURL"; min_args := 1;
     keys := [js "url"]; forwards_rest := false |}.

Definition worker_shape : shape :=
  {| event_name := js "worker"; min_args := 1;
     keys := [js "url"; js "options"]; forwards_rest := false |}.

Definition setProperty_shape : shape :=
  {| event_name := js "setProperty"; min_args := 2;
     keys := [js "property"; js "value"; js "priority"];
     forwards_rest := false |}.

Definition getPropertyValue_shape : shape :=
  {| event_name := js "getPropertyValue"; min_args := 1;
     keys := [js "property"]; forwards_rest := false |}.

Definition webSocket_shape : shape :=
  {| event_name := js "construct"; min_args := 1;
     keys := [js "url"; js "protocols"]; forwards_rest := false |}.

Definition eventSource_shape : shape :=
  {| event_name := js "construct"; min_args := 1;
     keys := [js "url"; js "options"]; forwards_rest := false |}.

Definition shapes : list shape :=
  [fetch_shape; xhr_open_shape; setAttribute_shape; getAttribute_shape;
   pushState_shape; replaceState_shape; postMessage_shape; sendBeacon_shape;
   createObjectURL_shape; revokeObjectURL_shape; worker_shape;
   setProperty_shape; getPropertyValue_shape; webSocket_shape;
   eventSource_shape].

End hooks.

(* ================================================================== *)
(** ** More string methods *)

(** [s.split(sep)] for one code unit [sep]. *)
Fixpoint split (sep : Z) (s : jsstring) : list jsstring :=
  match s with
  | [] => [[]]
  | c :: r =>
    if c =? sep then [] :: split sep r
    else match split sep r with
         | [] => [[c]]
         | x :: l => (c :: x) :: l
         end
  end.

(** [s.split(/\s+/)]: [gap] tells that the scan is inside a run of white
    space. *)
Fixpoint splitSpaces_from (gap : bool) (s : jsstring) : list jsstring :=
  match s with
  | [] => [[]]
  | c :: r =>
    if isWhiteSpace c then
      if gap then splitSpaces_from true r else [] :: splitSpaces_from true r
    else match splitSpaces_from false r with
         | [] => [[c]]
         | x :: l => (c :: x) :: l
         end
  end.

Definition splitSpaces (s : jsstring) : list jsstring :=
  splitSpaces_from false s.

(** [l.map(f)] for an [f] that may throw. *)
Fixpoint mapM {A B} (f : A -> outcome B) (l : list A) : outcome (list B) :=
  match l with
  | [] => Ok []
  | x :: r => y <- f x ;; ys <- mapM f r ;; Ok (y :: ys)
  end.

(* ================================================================== *)
(** ** uv.handler.js: [getCurrentSource], [sourceUrl], [rewriteSrcset] and
       the listeners that rewrite one key of [event.data] *)

Module handler_page.

Section WithHost.
Context {H : Host}.
Variable config : Config.

Definition getCurrentSource : outcome jsstring :=
  r <- try_catch
         (match slice (List.length (config_prefix config))
                      (url_pathname location) with
          | [] => Ok None
          | encoded =>
            d <- bundle.decodeUrl (handler.uv config) encoded ;; Ok (Some d)
          end)
         (fun _ => Ok None) ;;
  match r with
  | Some d => Ok d
  | None => Ok (url_href location)
  end.

Definition sourceUrl (u : jsstring) : outcome jsstring :=
  match u with
  | [] => Ok u
  | _ =>
    try_catch
      (urlObj <- new_URL u (Some (url_href location)) ;;
       if startsWith (url_pathname urlObj) (config_prefix config) then
         bundle.decodeUrl (handler.uv config)
           (slice (List.length (config_prefix config)) (url_pathname urlObj))
       else Ok u)
      (fun _ => Ok u)
  end.

(** [source] is [uv.source]. *)
Definition rewriteSrcset (source srcset : jsstring) : outcome jsstring :=
  match srcset with
  | [] => Ok srcset
  | _ =>
    l <- mapM
           (fun src =>
              match splitSpaces (trim src) with
              | [] => Ok []
              | p0 :: parts =>
                r <- handler.rewriteUrl config source p0 source ;;
                Ok (bundle.join (js " ") (r :: parts))
              end)
           (split 44 srcset) ;;
    Ok (bundle.join (js ", ") l)
  end.

(** [event.data[key] = rewriteUrl(event.data[key], uv.source)], the
    listener registered for [open], [sendBeacon], [worker] and the
    EventSource [construct]; [rewriteUrl] returns [undefined] as it is. *)
Definition rewrite_key (source key : jsstring) : hooks.listener :=
  fun event =>
    match hooks.get key (hooks.event_data event) with
    | client.Undefined =>
      Ok {| hooks.event_data :=
              hooks.set key client.Undefined (hooks.event_data event);
            hooks.intercepted := hooks.intercepted event;
            hooks.returnValue := hooks.returnValue event |}
    | client.Str u =>
      r <- handler.rewriteUrl config source u source ;;
      Ok {| hooks.event_data :=
              hooks.set key (client.Str r) (hooks.event_data event);
            hooks.intercepted := hooks.intercepted event;
            hooks.returnValue := hooks.returnValue event |}
    end.

End WithHost.

End handler_page.

(* ================================================================== *)
(** ** sw.js: the [fetch] listener, [getOriginalUrl] and the [message]
       listener *)

Module sw_events.

(** Whether the [fetch] listener calls [event.respondWith]; [u] is
    [new URL(request.url)]. *)
Definition responds (u : URL) : bool :=
  if negb (startsWith (url_protocol u) (js "http")) then false
  else if startsWith (url_pathname u) (js "/static/")
          || jsstring_eqb (url_pathname u) (js "/")
          || jsstring_eqb (url_pathname u) (js "/search")
          || startsWith (url_pathname u) (js "/uv/") then false
  else startsWith (url_pathname u) sw.PROXY_PREFIX.

Definition getOriginalUrl `{Host} (proxyUrl : jsstring)
  : outcome (option jsstring) :=
  try_catch
    (u <- new_URL proxyUrl None ;;
     if startsWith (url_pathname u) sw.PROXY_PREFIX then
       sw.decodeUrl (slice (List.length sw.PROXY_PREFIX) (url_pathname u))
     else Ok None)
    (fun _ => Ok None).

(** [urlMap], a [Map] from client ids to what was registered: a string or
    [undefined]. *)
Definition UrlMap : Type := list (jsstring * option jsstring).

Fixpoint Map_get (k : jsstring) (m : UrlMap) : option (option jsstring) :=
  match m with
  | [] => None
  | (k', v) :: r => if jsstring_eqb k' k then Some v else Map_get k r
  end.

Fixpoint Map_set (k : jsstring) (v : option jsstring) (m : UrlMap) : UrlMap :=
  match m with
  | [] => [(k, v)]
  | (k', v') :: r =>
    if jsstring_eqb k' k then (k', v) :: r else (k', v') :: Map_set k v r
  end.

(** [event.data]: [type] and [data]; [data], when it is there, has an
    [originalUrl] that may be [undefined]. *)
Record Message : Type := {
  msg_type : jsstring;
  msg_data : option (option jsstring)
}.

(** [event.source.postMessage({ type: 'original-url', url })]. *)
Inductive Reply : Type :=
| original_url (url : option jsstring).

(** One [message] event from the client [source_id]; [event.data] is
    [None] when it is falsy. *)
Definition on_message (urlMap : UrlMap) (source_id : jsstring)
           (event_data : option Message)
  : outcome (UrlMap * option Reply) :=
  match event_data with
  | None => Ok (urlMap, None)
  | Some m =>
    if jsstring_eqb (msg_type m) (js "register-url") then
      match msg_data m with
      | None => Throw TypeError
      | Some originalUrl => Ok (Map_set source_id originalUrl urlMap, None)
      end
    else if jsstring_eqb (msg_type m) (js "get-original-url") then
      Ok (urlMap,
          Some (original_url match Map_get source_id urlMap with
                             | Some v => v
                             | None => None
                             end))
    else Ok (urlMap, None)
  end.

End sw_events.

(* ================================================================== *)
(** ** uv.sw.js: [handleRequest] *)

Module uv_sw.

(** [fetch(url, init)]. *)
Record FetchCall : Type := {
  call_url : jsstring;
  call_method : jsstring;
  call_headers : sw.Headers;
  call_body : option jsstring;
  call_redirect : jsstring;
  call_credentials : jsstring
}.

Inductive Answer : Type :=
| fetched (response : sw.Response)
| new_Response (body : jsstring) (status : Z) (headers : sw.Headers).

(** [pathname] is [new URL(event.request.url).pathname]. *)
Definition handleRequest (config : Config)
           (fetch : FetchCall -> outcome sw.Response)
           (request : sw.Request) (pathname : jsstring) : outcome Answer :=
  match slice (List.length (config_prefix config)) pathname with
  | [] => Ok (new_Response (js "No URL specified") 400 [])
  | encodedUrl =>
    try_catch
      (_ <- config_decodeUrl config encodedUrl ;;
       response <-
         fetch {| call_url := sw.req_url request;
                  call_method := sw.req_method request;
                  call_headers := sw.req_headers request;
                  call_body :=
                    if negb (jsstring_eqb (sw.req_method request) (js "GET"))
                       && negb (jsstring_eqb (sw.req_method request)
                                             (js "HEAD"))
                    then Some (sw.req_body request) else None;
                  call_redirect := js "manual";
                  call_credentials := js "include" |} ;;
       Ok (fetched response))
      (fun error =>
         Ok (new_Response (js "Proxy Error: " ++ message error) 500
                          [(js "Content-Type", js "text/plain")]))
  end.

End uv_sw.

(* ================================================================== *)
(** ** script.js: [ProxyUtils] *)

Module ProxyUtils.

Definition encode (u : jsstring) : outcome jsstring :=
  b <- btoa u ;;
  Ok (removeAll 61 (replaceAll 47 95 (replaceAll 43 45 b))).

Definition decode (encoded : jsstring) : outcome jsstring :=
  atob (sw.pad4 (replaceAll 95 47 (replaceAll 45 43 encoded))).

(** [buildProxyUrl(url, prefix = '/service/')]. *)
Definition buildProxyUrl (u prefix : jsstring) : outcome jsstring :=
  e <- encode u ;; Ok (prefix ++ e).

End ProxyUtils.

(* ================================================================== *)
(** ** uv.client.js: [encodeUrl], [shouldProxy], [resolveAndEncode] *)

Module uv_client.

Section WithHost.
Context {H : Host}.

(** [CONFIG.prefix || '/service/'] and [CONFIG.url]. *)
Variable PROXY_PREFIX : jsstring.
Variable ORIGINAL_URL : jsstring.

Definition encodeUrl (u : jsstring) : outcome jsstring :=
  try_catch
    (e <- encodeURIComponent u ;;
     b <- btoa (unescape e) ;;
     Ok (PROXY_PREFIX
         ++ removeAll 61 (replaceAll 47 95 (replaceAll 43 45 b))))
    (fun _ => Ok u).

Definition skipPrefixes : list jsstring :=
  [js "data:"; js "blob:"; js "javascript:"; js "about:"; js "mailto:";
   js "tel:"; js "#"; PROXY_PREFIX].

Definition shouldProxy (u : jsstring) : bool :=
  match u with
  | [] => false
  | _ => negb (existsb (fun p => startsWith u p) skipPrefixes)
  end.

(** [resolveAndEncode(url, base = ORIGINAL_URL)]. *)
Definition resolveAndEncode (u : jsstring) (base : option jsstring)
  : outcome jsstring :=
  let base := match base with Some b => b | None => ORIGINAL_URL end in
  if negb (shouldProxy u) then Ok u
  else
    try_catch
      (absolute <- new_URL u (Some base) ;; encodeUrl (url_href absolute))
      (fun _ => Ok u).

End WithHost.

End uv_client.

(* ================================================================== *)
(** ** Definitions used in the statements *)

Definition isAscii (c : Z) : Prop := 0 <= c < 128.
Definition isByte (c : Z) : Prop := 0 <= c < 256.

(** What [encodeURIComponent] and [escape] do with one ASCII code unit:
    keep it or write it as [%XX]. *)
Definition chunk (keep : Z -> bool) (c : Z) : jsstring :=
  if keep c then [c] else pct c.

Definition item (keep : Z -> bool) (c : Z) : uri_item :=
  if keep c then Lit c else Oct c.

Fixpoint b64_unpadded (bytes : list Z) : jsstring :=
  match bytes with
  | [] => []
  | [a] => [b64char (a / 4); b64char (a mod 4 * 16)]
  | [a; b] =>
    [b64char (a / 4); b64char (a mod 4 * 16 + b / 16); b64char (b mod 16 * 4)]
  | a :: b :: c :: r =>
    b64char (a / 4) :: b64char (a mod 4 * 16 + b / 16)
      :: b64char (b mod 16 * 4 + c / 64) :: b64char (c mod 64)
      :: b64_unpadded r
  end.

Definition toUrlSafe (b : jsstring) : jsstring :=
  removeAll 61 (replaceAll 47 95 (replaceAll 43 45 b)).

Definition fromUrlSafe (t : jsstring) : jsstring :=
  replaceAll 95 47 (replaceAll 45 43 t).

(** ** URL-legal code units (RFC 3986: unreserved, reserved and [%]) *)

Definition urlLegal (c : Z) : bool :=
  isAlnum c || mem c (js "-._~:/?#[]@!$&'()*+,;=%").

Definition urlSafeUnit (c : Z) : bool := negb (mem c (js "+/=")).

Definition only {A} (P : exn -> Prop) (m : outcome A) : Prop :=
  match m with
  | Ok _ => True
  | Throw e => P e
  end.

Definition decodeError (e : exn) : Prop :=
  e = URIError \/ e = InvalidCharacterError.

(** The domain test of [validateCookie], for a domain that is present. *)
Definition domainPasses (hostname d : jsstring) : bool :=
  if startsWith d (js ".") then
    endsWith hostname (slice 1 d) || jsstring_eqb hostname (slice 1 d)
  else
    jsstring_eqb hostname d || endsWith hostname (js "." ++ d).

Definition scenario_cookie (d : jsstring) : bundle.Cookie :=
  {| bundle.name := js "sid"; bundle.value := js "1";
     bundle.domain := d; bundle.path := js "/";
     bundle.secure := false; bundle.httpOnly := false |}.

Definition at_url (u : jsstring) : bundle.Meta :=
  {| bundle.base := []; bundle.origin := []; bundle.url := u |}.

Definition visible_at (d u : jsstring) : bool :=
  bundle.validateCookie (H := RefHost.host)
                        (bundle.new (H := RefHost.host) bundle.no_options)
                        (scenario_cookie d) (at_url u) true.

Definition scenario_request (targetUrl : jsstring) : sw.Request :=
  {| sw.req_url := js "https://proxy.example" ++ sw.PROXY_PREFIX
                   ++ toUrlSafe (b64_encode targetUrl);
     sw.req_method := js "GET";
     sw.req_headers := [(js "accept", js "text/html");
                        (js "x-secret", js "1")];
     sw.req_body := [] |}.

Definition scenario_pathname (targetUrl : jsstring) : jsstring :=
  sw.PROXY_PREFIX ++ toUrlSafe (b64_encode targetUrl).

(** The opaque-redirect filtered response of the Fetch standard: type
    [opaqueredirect], status 0, an empty status message, an empty header
    list and a null body. *)
Definition opaque_redirect_response : sw.Response :=
  {| sw.resp_type := sw.opaqueredirect; sw.resp_status := 0;
     sw.resp_statusText := []; sw.resp_headers := []; sw.resp_body := [] |}.

(** The redirect statuses of the Fetch standard. *)
Definition isRedirectStatus (status : Z) : bool :=
  mem status [301; 302; 303; 307; 308].

(** The host's [fetch] of a request whose redirect mode is [manual], the
    mode [handleProxyRequest] asks for: a response with a redirect status
    is neither followed nor shown, the caller gets the opaque-redirect
    filtered response; any other response is handed over as it is.
    [upstream] is what the network answers. *)
Definition fetch_manual (upstream : sw.ProxyRequest -> outcome sw.Response)
  : sw.ProxyRequest -> outcome sw.Response :=
  fun request =>
    response <- upstream request ;;
    if isRedirectStatus (sw.resp_status response)
    then Ok opaque_redirect_response
    else Ok response.

(** The network answers every request with a redirect to [location_]. *)
Definition upstream_redirect (status : Z) (location_ : jsstring)
  : sw.ProxyRequest -> outcome sw.Response :=
  fun _ => Ok {| sw.resp_type := sw.basic; sw.resp_status := status;
                 sw.resp_statusText := js "Found";
                 sw.resp_headers := [(js "Location", location_)];
                 sw.resp_body := [] |}.

(** The fetch executor reports the header names it was sent. *)
Definition echoing : sw.ProxyRequest -> outcome sw.Response :=
  fun pr => Ok {| sw.resp_type := sw.basic; sw.resp_status := 200;
                  sw.resp_statusText := js "OK";
                  sw.resp_headers := [];
                  sw.resp_body :=
                    bundle.join (js ", ") (map fst (sw.preq_headers pr)) |}.

Definition throwing : client.listener := fun _ => Throw ListenerError.

Definition returning (v : client.value) : client.primitive := fun _ => Ok v.

(** The [try] statement of the handler's [rewriteUrl], on the trimmed
    input. *)
Definition handler_try `{Host} (config : Config) (source base t : jsstring)
  : outcome jsstring :=
  try_catch
    (if handler.special t then Ok t
     else if includes t (config_prefix config) then Ok t
     else
       r <- new_URL t (Some (or_else base source)) ;;
       e <- bundle.encodeUrl (handler.uv config) (url_href r) ;;
       Ok (config_prefix config ++ e))
    (fun _ => Ok t).

(** [rest] does not start with two hexadecimal digits. *)
Definition badEscape (rest : jsstring) : bool :=
  match rest with
  | h1 :: h2 :: _ =>
    match hexval h1, hexval h2 with
    | Some _, Some _ => false
    | _, _ => true
    end
  | _ => true
  end.

(** Neither white space, nor [=], nor in the base64 alphabet. *)
Definition outsideBase64 (c : Z) : bool :=
  negb (isAsciiWhitespace c) && negb (c =? 61)
  && match b64val c with Some _ => false | None => true end.

(* ================================================================== *)
(** ** Definitions used in the further statements *)

(** Not one of [/], [?], [#]. *)
Definition pathSafeUnit (c : Z) : bool := negb (mem c (js "/?#")).

(** The code units [encodeURIComponent] writes for ASCII input. *)
Definition uriUnit (c : Z) : bool :=
  uriUnreserved c || (c =? 37) || isDigit c || between 65 70 c.

(** [domain] without its leading dot. *)
Definition stripDot (d : jsstring) : jsstring :=
  if startsWith d (js ".") then slice 1 d else d.

(** The reference host with the page at [page]. *)
Definition RefHost_at (page : jsstring) : Host :=
  {| new_URL := RefHost.URL_constructor;
     location := match RefHost.URL_constructor page None with
                 | Ok u => u
                 | Throw _ => mkURL [] [] [] [] [] [] []
                 end |}.

(** A non-empty string without white space or comma: the URL or the
    descriptor of a srcset candidate. *)
Definition isToken (s : jsstring) : bool :=
  bundle.nonempty s
  && forallb (fun c => negb (isWhiteSpace c) && negb (c =? 44)) s.

(** A srcset candidate: a URL and, maybe, a descriptor. *)
Definition candidate : Type := (jsstring * option jsstring)%type.

Definition isCandidate (c : candidate) : bool :=
  isToken (fst c) && match snd c with Some d => isToken d | None => true end.

Definition render (c : candidate) : jsstring :=
  match snd c with
  | Some d => fst c ++ js " " ++ d
  | None => fst c
  end.

(** The candidate with its URL rewritten by the handler. *)
Definition rewrite_candidate `{Host} (config : Config) (source : jsstring)
           (c : candidate) : outcome jsstring :=
  r <- handler.rewriteUrl config source (fst c) source ;;
  Ok (render (r, snd c)).

(** An answer the host accepts: a status in 200..599 for [new Response],
    a redirect status for [Response.redirect]. *)
Definition validAnswer (a : sw.Answer) : bool :=
  match a with
  | sw.new_Response _ st _ _ => between 200 599 st
  | sw.Response_redirect _ st => mem st sw.redirectStatuses
  end.

(** A token that is empty or has a code unit no base64 alphabet, url-safe
    or not, has. *)
Definition badToken (t : jsstring) : bool :=
  match t with
  | [] => true
  | _ => existsb (fun c => outsideBase64 c
                           && negb ((c =? 45) || (c =? 95))) t
  end.

(** What [urlMap] holds for the client [k]; [None] is [undefined]. *)
Definition registered (m : sw_events.UrlMap) (k : jsstring)
  : option jsstring :=
  match sw_events.Map_get k m with
  | Some v => v
  | None => None
  end.

(** No key twice. *)
Fixpoint distinct (ks : list jsstring) : bool :=
  match ks with
  | [] => true
  | k :: r => negb (existsb (jsstring_eqb k) r) && distinct r
  end.

(** A registry as [on] makes it from the empty one: no own property
    under a name of [Object.prototype]. *)
Definition registry (ev : hooks.events) : bool :=
  forallb (fun kv => negb (hooks.inherited (fst kv))) ev.

(** The first [n] arguments, with [undefined] for the missing ones. *)
Definition firstArgs (n : nat) (args : list hooks.value) : list hooks.value :=
  map (fun i => nth i args client.Undefined) (seq 0 n).

(* ================================================================== *)
(** * Properties *)

(** ** The built-ins on known values *)

Example encodeURIComponent_euro :
  encodeURIComponent [8364] = Ok (js "%E2%82%AC").
Proof. reflexivity. Qed.

Example encodeURIComponent_pair :
  encodeURIComponent [55357; 56832] = Ok (js "%F0%9F%98%80").
Proof. reflexivity. Qed.

Example encodeURIComponent_lone_surrogate :
  encodeURIComponent [97; 55357] = Throw URIError.
Proof. reflexivity. Qed.

Example encodeURIComponent_reserved :
  encodeURIComponent (js "a b&c=d/e?f") = Ok (js "a%20b%26c%3Dd%2Fe%3Ff").
Proof. reflexivity. Qed.

Example decodeURIComponent_euro :
  decodeURIComponent (js "%e2%82%ac") = Ok [8364].
Proof. reflexivity. Qed.

Example decodeURIComponent_pair :
  decodeURIComponent (js "%F0%9F%98%80") = Ok [55357; 56832].
Proof. reflexivity. Qed.

Example decodeURIComponent_overlong :
  decodeURIComponent (js "%C0%80") = Throw URIError.
Proof. reflexivity. Qed.

Example decodeURIComponent_surrogate :
  decodeURIComponent (js "%ED%A0%80") = Throw URIError.
Proof. reflexivity. Qed.

Example decodeURIComponent_truncated :
  decodeURIComponent (js "%E2%82") = Throw URIError.
Proof. reflexivity. Qed.

Example escape_units :
  escape [97; 32; 228; 8364] = js "a%20%E4%u20AC".
Proof. reflexivity. Qed.

Example unescape_units :
  unescape (js "%u20AC%E4%41%zz%") = [8364; 228; 65; 37; 122; 122; 37].
Proof. reflexivity. Qed.

Example btoa_hello : btoa (js "hello") = Ok (js "aGVsbG8=").
Proof. reflexivity. Qed.

Example btoa_wide : btoa [104; 256] = Throw InvalidCharacterError.
Proof. reflexivity. Qed.

Example atob_unpadded : atob (js "aGVsbG8") = Ok (js "hello").
Proof. reflexivity. Qed.

Example atob_spaced : atob (js " aGVs bG8= ") = Ok (js "hello").
Proof. reflexivity. Qed.

Example atob_overpadded : atob (js "aGVsbG8==") = Throw InvalidCharacterError.
Proof. reflexivity. Qed.

Example trim_spaces : trim ([32; 10] ++ js "a b" ++ [9; 160]) = js "a b".
Proof. reflexivity. Qed.

Example xor_url :
  codecs.encode codecs.xor (js "https://example.com/")
  = Ok (js "hvtrs8%2F-ezaopne%2Ccmm-").
Proof. reflexivity. Qed.

(** ** The reference host on known URLs *)

Example refhost_absolute :
  RefHost.URL_constructor (js "https://Sub.Example.com:443/x/../y?a=1#f") None
  = Ok {| url_href := js "https://sub.example.com/y?a=1#f";
          url_protocol := js "https:";
          url_host := js "sub.example.com";
          url_hostname := js "sub.example.com";
          url_origin := js "https://sub.example.com";
          url_pathname := js "/y";
          url_search := js "?a=1" |}.
Proof. reflexivity. Qed.

Example refhost_relative :
  (u <- RefHost.URL_constructor (js "/new") (Some (js "https://example.com/old")) ;;
   Ok (url_href u))
  = Ok (js "https://example.com/new").
Proof. reflexivity. Qed.

Example refhost_sibling :
  (u <- RefHost.URL_constructor (js "c?d") (Some (js "http://example.com/a/b")) ;;
   Ok (url_href u))
  = Ok (js "http://example.com/a/c?d").
Proof. reflexivity. Qed.

Example refhost_opaque :
  (u <- RefHost.URL_constructor (js "about:blank")
                                (Some (js "https://example.com/old")) ;;
   Ok (url_href u, url_origin u))
  = Ok (js "about:blank", js "null").
Proof. reflexivity. Qed.

Example refhost_no_base :
  RefHost.URL_constructor (js "/new") None = Throw TypeError.
Proof. reflexivity. Qed.

(** ** Finite checks and small facts *)

Lemma below_forallb (n : nat) (P : Z -> bool) :
  forallb P (map Z.of_nat (seq 0 n)) = true ->
  forall c, 0 <= c < Z.of_nat n -> P c = true.
Proof.
  intros H c Hc.
  rewrite forallb_forall in H. apply H.
  apply in_map_iff. exists (Z.to_nat c). split.
  - lia.
  - apply in_seq. lia.
Qed.

Lemma bind_Ok {A B} (a : A) (k : A -> outcome B) : bind (Ok a) k = k a.
Proof. reflexivity. Qed.

Lemma list_ind3 (P : list Z -> Prop) :
  P [] -> (forall a, P [a]) -> (forall a b, P [a; b]) ->
  (forall a b c r, P r -> P (a :: b :: c :: r)) ->
  forall l, P l.
Proof.
  intros H0 H1 H2 H3 l.
  assert (P l /\ (forall a, P (a :: l)) /\ (forall a b, P (a :: b :: l))) as H.
  { induction l as [|x l [IH0 [IH1 IH2]]].
    - auto.
    - repeat split; auto. }
  apply H.
Qed.

Lemma isAscii_isByte (s : jsstring) : Forall isAscii s -> Forall isByte s.
Proof. apply Forall_impl. unfold isAscii, isByte. lia. Qed.

(** ** Percent-encoding of ASCII strings *)

Lemma hexval_hexdigit (d : Z) : 0 <= d < 16 -> hexval (hexdigit d) = Some d.
Proof.
  intros H.
  assert ((match hexval (hexdigit d) with
           | Some v => v =? d
           | None => false
           end) = true) as E.
  { revert d H. apply (below_forallb 16). vm_compute. reflexivity. }
  destruct (hexval (hexdigit d)); [| discriminate].
  apply Z.eqb_eq in E. congruence.
Qed.

Lemma hexdigit_not_u (d : Z) : 0 <= d < 16 -> (hexdigit d =? 117) = false.
Proof.
  intros H. unfold hexdigit. destruct (d <? 10) eqn:E; lia.
Qed.

Lemma hex2_pct (c : Z) :
  isByte c -> hex2 (hexdigit (c / 16)) (hexdigit (c mod 16)) = Some c.
Proof.
  unfold isByte. intros H. unfold hex2.
  rewrite !hexval_hexdigit by (Z.div_mod_to_equations; lia).
  f_equal. Z.div_mod_to_equations; lia.
Qed.

Lemma uri_items_pct (c : Z) (r : jsstring) :
  isByte c ->
  uri_items (pct c ++ r) = its <- uri_items r ;; Ok (Oct c :: its).
Proof.
  unfold isByte. intros H. unfold pct. cbn [app uri_items].
  rewrite Z.eqb_refl.
  rewrite !hexval_hexdigit by (Z.div_mod_to_equations; lia).
  replace (16 * (c / 16) + c mod 16) with c
    by (Z.div_mod_to_equations; lia).
  reflexivity.
Qed.

Section Chunks.

Variable keep : Z -> bool.
Hypothesis keep_not_percent : forall c, keep c = true -> c <> 37.

Lemma uri_items_chunks (s : jsstring) :
  Forall isByte s ->
  uri_items (flat_map (chunk keep) s) = Ok (map (item keep) s).
Proof.
  induction 1 as [|c s Hc Hs IH]; [reflexivity|].
  cbn [flat_map map]. unfold chunk at 1, item at 1.
  destruct (keep c) eqn:K.
  - cbn [app uri_items].
    apply keep_not_percent in K. apply Z.eqb_neq in K. rewrite K.
    rewrite IH. reflexivity.
  - rewrite uri_items_pct by assumption. rewrite IH. reflexivity.
Qed.

Lemma utf8_items_ascii (s : jsstring) :
  Forall isAscii s -> utf8_items (map (item keep) s) = Ok s.
Proof.
  induction 1 as [|c s Hc Hs IH]; [reflexivity|].
  cbn [map]. unfold item at 1.
  destruct (keep c).
  - cbn [utf8_items]. rewrite IH. reflexivity.
  - cbn [utf8_items]. unfold isAscii in Hc.
    replace (c <? 128) with true by lia.
    rewrite IH. reflexivity.
Qed.

Lemma decodeURIComponent_chunks (s : jsstring) :
  Forall isAscii s ->
  decodeURIComponent (flat_map (chunk keep) s) = Ok s.
Proof.
  intros H. unfold decodeURIComponent.
  rewrite uri_items_chunks by (apply isAscii_isByte; assumption).
  cbn [bind]. apply utf8_items_ascii. assumption.
Qed.

End Chunks.

Lemma uriUnreserved_not_percent (c : Z) : uriUnreserved c = true -> c <> 37.
Proof. intros H E. subst c. vm_compute in H. discriminate. Qed.

Lemma escapeUnreserved_not_percent (c : Z) :
  escapeUnreserved c = true -> c <> 37.
Proof. intros H E. subst c. vm_compute in H. discriminate. Qed.

Lemma encodeURIComponent_ascii (s : jsstring) :
  Forall isAscii s ->
  encodeURIComponent s = Ok (flat_map (chunk uriUnreserved) s).
Proof.
  induction 1 as [|c s Hc Hs IH]; [reflexivity|].
  cbn [encodeURIComponent flat_map]. unfold chunk at 1.
  rewrite IH. cbn [bind].
  destruct (uriUnreserved c); [reflexivity|].
  unfold isAscii in Hc.
  unfold isLead, isTrail, between.
  replace (55296 <=? c) with false by lia.
  replace (56320 <=? c) with false by lia.
  cbn [andb]. unfold utf8_encode.
  replace (c <? 128) with true by lia.
  cbn [pct_octets flat_map]. rewrite app_nil_r. reflexivity.
Qed.

Lemma escape_ascii (s : jsstring) :
  Forall isAscii s -> escape s = flat_map (chunk escapeUnreserved) s.
Proof.
  induction 1 as [|c s Hc Hs IH]; [reflexivity|].
  unfold escape in *. cbn [flat_map]. rewrite IH. f_equal.
  unfold escape_unit, chunk. destruct (escapeUnreserved c); [reflexivity|].
  unfold isAscii in Hc. replace (c <? 256) with true by lia. reflexivity.
Qed.

Lemma unescape_keep (c : Z) (r : jsstring) :
  c <> 37 -> unescape (c :: r) = c :: unescape r.
Proof.
  intros H. apply Z.eqb_neq in H. cbn [unescape]. rewrite H. reflexivity.
Qed.

Lemma unescape_pct (c : Z) (r : jsstring) :
  isByte c -> unescape (pct c ++ r) = c :: unescape r.
Proof.
  intros H. unfold pct. cbn [app unescape]. rewrite Z.eqb_refl.
  rewrite hex2_pct by assumption.
  rewrite hexdigit_not_u by (unfold isByte in H; Z.div_mod_to_equations; lia).
  destruct r as [|b [|c' [|d r5]]]; reflexivity.
Qed.

Lemma unescape_chunks (s : jsstring) :
  Forall isAscii s -> unescape (flat_map (chunk uriUnreserved) s) = s.
Proof.
  induction 1 as [|c s Hc Hs IH]; [reflexivity|].
  cbn [flat_map]. unfold chunk at 1.
  destruct (uriUnreserved c) eqn:K.
  - cbn [app]. rewrite unescape_keep by (apply uriUnreserved_not_percent, K).
    rewrite IH. reflexivity.
  - rewrite unescape_pct by (unfold isAscii, isByte in *; lia).
    rewrite IH. reflexivity.
Qed.

Lemma chunks_ascii (keep : Z -> bool) (s : jsstring) :
  Forall isAscii s -> Forall isAscii (flat_map (chunk keep) s).
Proof.
  induction 1 as [|c s Hc Hs IH]; [constructor|].
  cbn [flat_map]. apply Forall_app. split; [|assumption].
  unfold chunk. destruct (keep c).
  - constructor; [assumption | constructor].
  - unfold pct, hexdigit, isAscii in *.
    repeat constructor;
      try (destruct (c / 16 <? 10) eqn:E);
      try (destruct (c mod 16 <? 10) eqn:E');
      Z.div_mod_to_equations; lia.
Qed.

Lemma chunks_nil (keep : Z -> bool) (s : jsstring) :
  flat_map (chunk keep) s = [] -> s = [].
Proof.
  destruct s as [|c s]; [reflexivity|].
  cbn [flat_map]. unfold chunk, pct. destruct (keep c); discriminate.
Qed.

(** ** Base64 *)

Lemma b64char_all (P : Z -> Prop) :
  Forall P b64chars -> P 0 -> forall n, P (b64char n).
Proof.
  intros HP H0 n. unfold b64char.
  destruct (Nat.lt_ge_cases (Z.to_nat n) (List.length b64chars)) as [L|G].
  - rewrite Forall_forall in HP. apply HP. apply nth_In. exact L.
  - rewrite nth_overflow by exact G. exact H0.
Qed.

Lemma forallb_Forall_b64 (p : Z -> bool) :
  forallb p b64chars = true -> p 0 = true ->
  forall n, p (b64char n) = true.
Proof.
  intros H H0. apply (b64char_all (fun c => p c = true)).
  - apply Forall_forall. intros x Hx.
    rewrite forallb_forall in H. apply H, Hx.
  - exact H0.
Qed.

Lemma b64char_not_eq (n : Z) : (b64char n =? 61) = false.
Proof.
  apply negb_true_iff.
  apply (forallb_Forall_b64 (fun c => negb (c =? 61))); reflexivity.
Qed.

Lemma b64char_not_ws (n : Z) : negb (isAsciiWhitespace (b64char n)) = true.
Proof.
  apply (forallb_Forall_b64 (fun c => negb (isAsciiWhitespace c)));
    reflexivity.
Qed.

Lemma b64char_not_dash (n : Z) : (b64char n =? 45) = false.
Proof.
  apply negb_true_iff.
  apply (forallb_Forall_b64 (fun c => negb (c =? 45))); reflexivity.
Qed.

Lemma b64char_not_underscore (n : Z) : (b64char n =? 95) = false.
Proof.
  apply negb_true_iff.
  apply (forallb_Forall_b64 (fun c => negb (c =? 95))); reflexivity.
Qed.

Lemma b64val_b64char (n : Z) : 0 <= n < 64 -> b64val (b64char n) = Some n.
Proof.
  intros H.
  assert ((match b64val (b64char n) with
           | Some v => v =? n
           | None => false
           end) = true) as E.
  { revert n H. apply (below_forallb 64). vm_compute. reflexivity. }
  destruct (b64val (b64char n)); [| discriminate].
  apply Z.eqb_eq in E. congruence.
Qed.

Lemma b64_encode_length (bs : list Z) :
  (List.length (b64_encode bs) mod 4 = 0)%nat.
Proof.
  induction bs as [| a | a b | a b c r IH] using list_ind3;
    try reflexivity.
  cbn [b64_encode List.length].
  change (S (S (S (S ?n)))) with (4 + n)%nat.
  replace (4 + List.length (b64_encode r))%nat
    with (List.length (b64_encode r) + 1 * 4)%nat by lia.
  rewrite Nat.Div0.mod_add. exact IH.
Qed.

Lemma drop_last_eq_cons (x : Z) (l : jsstring) :
  (x =? 61) = false -> drop_last_eq (x :: l) = x :: drop_last_eq l.
Proof.
  intros H. destruct l as [|y l]; [|reflexivity].
  cbn [drop_last_eq]. rewrite H. reflexivity.
Qed.

Lemma drop_padding_b64_encode (bs : list Z) :
  drop_last_eq (drop_last_eq (b64_encode bs)) = b64_unpadded bs.
Proof.
  induction bs as [| a | a b | a b c r IH] using list_ind3.
  - reflexivity.
  - cbn [b64_encode b64_unpadded drop_last_eq].
    change (61 =? 61) with true. cbn [drop_last_eq].
    change (61 =? 61) with true. reflexivity.
  - cbn [b64_encode b64_unpadded drop_last_eq].
    change (61 =? 61) with true. cbn [drop_last_eq].
    rewrite b64char_not_eq. reflexivity.
  - cbn [b64_encode b64_unpadded].
    rewrite !drop_last_eq_cons by apply b64char_not_eq.
    rewrite IH. reflexivity.
Qed.

Lemma strip_padding_b64_encode (bs : list Z) :
  strip_padding (b64_encode bs) = b64_unpadded bs.
Proof.
  unfold strip_padding. rewrite b64_encode_length. cbn [Nat.eqb].
  apply drop_padding_b64_encode.
Qed.

Lemma filter_ws_b64_encode (bs : list Z) :
  filter (fun c => negb (isAsciiWhitespace c)) (b64_encode bs) = b64_encode bs.
Proof.
  induction bs as [| a | a b | a b c r IH] using list_ind3;
    cbn [b64_encode filter]; rewrite ?b64char_not_ws;
    cbn [isAsciiWhitespace]; try reflexivity.
  rewrite IH. reflexivity.
Qed.

Lemma b64_decode_unpadded (bs : list Z) :
  Forall isByte bs -> b64_decode (b64_unpadded bs) = Some bs.
Proof.
  unfold isByte.
  induction bs as [| a | a b | a b c r IH] using list_ind3; intros H.
  - reflexivity.
  - inversion_clear H as [|? ? Ha _].
    cbn [b64_unpadded b64_decode].
    rewrite !b64val_b64char by (Z.div_mod_to_equations; lia).
    do 2 f_equal. Z.div_mod_to_equations; lia.
  - inversion_clear H as [|? ? Ha H']. inversion_clear H' as [|? ? Hb _].
    cbn [b64_unpadded b64_decode].
    rewrite !b64val_b64char by (Z.div_mod_to_equations; lia).
    do 2 f_equal; [| f_equal]; Z.div_mod_to_equations; lia.
  - inversion_clear H as [|? ? Ha H']. inversion_clear H' as [|? ? Hb H''].
    inversion_clear H'' as [|? ? Hc Hr].
    cbn [b64_unpadded b64_decode].
    rewrite !b64val_b64char by (Z.div_mod_to_equations; lia).
    rewrite (IH Hr).
    do 2 f_equal; [| f_equal; [| f_equal]]; Z.div_mod_to_equations; lia.
Qed.

Lemma atob_b64_encode (bs : list Z) :
  Forall isByte bs -> atob (b64_encode bs) = Ok bs.
Proof.
  intros H. unfold atob.
  rewrite filter_ws_b64_encode, strip_padding_b64_encode.
  rewrite b64_decode_unpadded by assumption. reflexivity.
Qed.

Lemma btoa_bytes (bs : list Z) : Forall isByte bs -> btoa bs = Ok (b64_encode bs).
Proof.
  intros H. unfold btoa.
  replace (existsb (fun c => 255 <? c) bs) with false; [reflexivity|].
  symmetry. apply not_true_iff_false. intros E.
  apply existsb_exists in E. destruct E as [c [Hin Hc]].
  rewrite Forall_forall in H. specialize (H c Hin). unfold isByte in H. lia.
Qed.

Lemma removeAll_b64_encode (bs : list Z) :
  removeAll 61 (b64_encode bs) = b64_unpadded bs.
Proof.
  unfold removeAll.
  induction bs as [| a | a b | a b c r IH] using list_ind3;
    cbn [b64_encode b64_unpadded filter]; rewrite ?b64char_not_eq;
    cbn [negb]; try reflexivity.
  rewrite IH. reflexivity.
Qed.

Lemma pad4_cons4 (x1 x2 x3 x4 : Z) (l : jsstring) :
  sw.pad4 (x1 :: x2 :: x3 :: x4 :: l) = x1 :: x2 :: x3 :: x4 :: sw.pad4 l.
Proof.
  unfold sw.pad4. cbn [List.length app].
  change (S (S (S (S ?n)))) with (4 + n)%nat.
  replace (4 + List.length l)%nat with (List.length l + 1 * 4)%nat by lia.
  rewrite Nat.Div0.mod_add. reflexivity.
Qed.

Lemma pad4_unpadded (bs : list Z) : sw.pad4 (b64_unpadded bs) = b64_encode bs.
Proof.
  induction bs as [| a | a b | a b c r IH] using list_ind3;
    try reflexivity.
  cbn [b64_unpadded b64_encode]. rewrite pad4_cons4, IH. reflexivity.
Qed.

Lemma mod4_cases (n : nat) :
  (n mod 4 = 0 \/ n mod 4 = 1 \/ n mod 4 = 2 \/ n mod 4 = 3)%nat.
Proof. pose proof (Nat.mod_upper_bound n 4). lia. Qed.

Lemma mod4_succ (n m : nat) :
  (n mod 4 = m -> (n + 1) mod 4 = (m + 1) mod 4)%nat.
Proof.
  intros H. rewrite Nat.Div0.add_mod, H. reflexivity.
Qed.

Lemma pad4_length (s : jsstring) : (List.length (sw.pad4 s) mod 4 = 0)%nat.
Proof.
  unfold sw.pad4. rewrite length_app, repeat_length.
  rewrite Nat.Div0.add_mod.
  destruct (mod4_cases (List.length s)) as [E | [E | [E | E]]];
    rewrite E; reflexivity.
Qed.

(** The loop of [sw.decodeUrl]: [sw.pad4] is what it computes. *)
Lemma pad4_loop (s : jsstring) :
  sw.pad4 s = if (List.length s mod 4 =? 0)%nat then s else sw.pad4 (s ++ [61]).
Proof.
  unfold sw.pad4. rewrite length_app. cbn [List.length].
  destruct (mod4_cases (List.length s)) as [E | [E | [E | E]]];
    rewrite (mod4_succ _ _ E), E; cbn; rewrite <- ?app_assoc;
    try reflexivity.
  apply app_nil_r.
Qed.

Lemma toUrlSafe_removeAll (l : jsstring) :
  toUrlSafe l = replaceAll 47 95 (replaceAll 43 45 (removeAll 61 l)).
Proof.
  unfold toUrlSafe, removeAll, replaceAll.
  induction l as [|a l IH]; [reflexivity|].
  cbn [map filter].
  destruct (Z.eqb_spec a 43) as [->|N43]; [cbn; rewrite IH; reflexivity|].
  destruct (Z.eqb_spec a 47) as [->|N47]; [cbn; rewrite IH; reflexivity|].
  destruct (Z.eqb_spec a 61) as [->|N61]; cbn [negb map].
  - exact IH.
  - apply Z.eqb_neq in N43, N47. rewrite N43, N47, IH. reflexivity.
Qed.

Lemma fromUrlSafe_replace (l : jsstring) :
  Forall (fun c => (c =? 45) = false /\ (c =? 95) = false) l ->
  fromUrlSafe (replaceAll 47 95 (replaceAll 43 45 l)) = l.
Proof.
  unfold fromUrlSafe, replaceAll.
  induction 1 as [|a l [H45 H95] Hl IH]; [reflexivity|].
  cbn [map]. rewrite IH. f_equal.
  destruct (Z.eqb_spec a 43) as [->|N43]; [reflexivity|].
  destruct (Z.eqb_spec a 47) as [->|N47]; [reflexivity|].
  rewrite H45, H95. reflexivity.
Qed.

Lemma b64_unpadded_chars (bs : list Z) :
  Forall (fun c => (c =? 45) = false /\ (c =? 95) = false) (b64_unpadded bs).
Proof.
  induction bs as [| a | a b | a b c r IH] using list_ind3;
    cbn [b64_unpadded];
    repeat (constructor;
            [split; [apply b64char_not_dash | apply b64char_not_underscore]|]);
    auto.
Qed.

Lemma atob_urlsafe (bs : list Z) :
  Forall isByte bs ->
  atob (sw.pad4 (fromUrlSafe (toUrlSafe (b64_encode bs)))) = Ok bs.
Proof.
  intros H.
  rewrite toUrlSafe_removeAll, removeAll_b64_encode.
  rewrite fromUrlSafe_replace by apply b64_unpadded_chars.
  rewrite pad4_unpadded. apply atob_b64_encode, H.
Qed.

(** ** The xor pass *)

Lemma xor_loop_involutive (i : nat) (s : jsstring) :
  codecs.xor_loop i (codecs.xor_loop i s) = s.
Proof.
  revert i. induction s as [|c s IH]; intros i; [reflexivity|].
  cbn [codecs.xor_loop]. rewrite IH. f_equal.
  destruct (Nat.odd i); [|reflexivity].
  rewrite Z.lxor_assoc, Z.lxor_nilpotent, Z.lxor_0_r. reflexivity.
Qed.

Lemma lxor2_ascii (c : Z) : isAscii c -> isAscii (Z.lxor c 2).
Proof.
  unfold isAscii. intros H.
  assert (((0 <=? Z.lxor c 2) && (Z.lxor c 2 <? 128)) = true) as E.
  { revert c H. apply (below_forallb 128). vm_compute. reflexivity. }
  lia.
Qed.

Lemma xor_loop_ascii (i : nat) (s : jsstring) :
  Forall isAscii s -> Forall isAscii (codecs.xor_loop i s).
Proof.
  intros H. revert i. induction H as [|c s Hc Hs IH]; intros i.
  - constructor.
  - cbn [codecs.xor_loop]. constructor; [|apply IH].
    destruct (Nat.odd i); [apply lxor2_ascii|]; assumption.
Qed.

Lemma urlLegal_ascii (s : jsstring) :
  forallb urlLegal s = true -> Forall isAscii s.
Proof.
  intros H. apply Forall_forall. intros c Hc.
  rewrite forallb_forall in H. specialize (H c Hc).
  unfold urlLegal, isAlnum, isUpper, isLower, isDigit, between, mem in H.
  let l := eval vm_compute in (js "-._~:/?#[]@!$&'()*+,;=%") in
  change (js "-._~:/?#[]@!$&'()*+,;=%") with l in H.
  cbn [existsb] in H. unfold isAscii. lia.
Qed.

(** ** The codecs on ASCII strings *)

Lemma uri_roundtrip_ascii (s : jsstring) :
  Forall isAscii s ->
  exists t, encodeURIComponent s = Ok t /\ decodeURIComponent t = Ok s
            /\ Forall isAscii t /\ (t = [] -> s = []).
Proof.
  intros H. exists (flat_map (chunk uriUnreserved) s). repeat split.
  - apply encodeURIComponent_ascii, H.
  - apply decodeURIComponent_chunks; [apply uriUnreserved_not_percent | exact H].
  - apply chunks_ascii, H.
  - apply chunks_nil.
Qed.

Lemma bundle_roundtrip_ascii (k : codecs.id) (s : jsstring) :
  Forall isAscii s ->
  exists t, codecs.encode k s = Ok t /\ codecs.decode k t = Ok s.
Proof.
  intros H. destruct k.
  - exists s. split; reflexivity.
  - destruct (uri_roundtrip_ascii s H) as [t [E [D _]]].
    exists t. split.
    + destruct s; [cbn in E |- *; congruence | exact E].
    + destruct t; [cbn in D |- *; congruence | exact D].
  - destruct (uri_roundtrip_ascii _ (xor_loop_ascii 0 s H)) as [t [E [D _]]].
    exists t. split.
    + destruct s; [cbn in E |- *; congruence | exact E].
    + assert (codecs.decode codecs.xor t
              = d <- decodeURIComponent t ;; Ok (codecs.xor_loop 0 d)) as ->
        by (destruct t; reflexivity).
      rewrite D. cbn [bind]. rewrite xor_loop_involutive. reflexivity.
  - destruct (uri_roundtrip_ascii s H) as [t [E [D [A _]]]].
    exists (b64_encode t). split.
    + assert (codecs.encode codecs.base64 s
              = e <- encodeURIComponent s ;; btoa e) as ->
        by (destruct s; reflexivity).
      rewrite E. cbn [bind]. apply btoa_bytes, isAscii_isByte, A.
    + assert (codecs.decode codecs.base64 (b64_encode t)
              = b <- atob (b64_encode t) ;; decodeURIComponent b) as ->
        by (destruct (b64_encode t); reflexivity).
      rewrite atob_b64_encode by apply isAscii_isByte, A.
      exact D.
Qed.

Lemma encodeUrl_ascii (s : jsstring) :
  Forall isAscii s -> sw.encodeUrl s = Ok (Some (toUrlSafe (b64_encode s))).
Proof.
  intros H. unfold sw.encodeUrl.
  rewrite encodeURIComponent_ascii by exact H. cbn [bind].
  rewrite unescape_chunks by exact H.
  rewrite btoa_bytes by apply isAscii_isByte, H.
  reflexivity.
Qed.

Lemma decodeUrl_ascii (s : jsstring) :
  Forall isAscii s -> sw.decodeUrl (toUrlSafe (b64_encode s)) = Ok (Some s).
Proof.
  intros H. unfold sw.decodeUrl.
  change (replaceAll 95 47 (replaceAll 45 43 ?t)) with (fromUrlSafe t).
  rewrite atob_urlsafe by apply isAscii_isByte, H. cbn [bind].
  rewrite escape_ascii by exact H.
  rewrite decodeURIComponent_chunks
    by (try apply escapeUnreserved_not_percent; exact H).
  reflexivity.
Qed.

(** C1.  For each codec of the bundle ([none], [plain], [xor], [base64]) and
    for the URL-safe base64 codec of the service worker ([sw.encodeUrl],
    [sw.decodeUrl]), encoding a string of URL-legal characters succeeds and
    decoding the token gives the string back. *)
Theorem codec_roundtrip (k : codecs.id) (s : jsstring) :
  forallb urlLegal s = true ->
  (exists t, codecs.encode k s = Ok t /\ codecs.decode k t = Ok s) /\
  (exists t, sw.encodeUrl s = Ok (Some t) /\ sw.decodeUrl t = Ok (Some s)).
Proof.
  intros H. apply urlLegal_ascii in H. split.
  - apply bundle_roundtrip_ascii, H.
  - exists (toUrlSafe (b64_encode s)). split.
    + apply encodeUrl_ascii, H.
    + apply decodeUrl_ascii, H.
Qed.

Lemma codec_roundtrip_witness :
  forallb urlLegal (js "https://example.com/a?b=1") = true /\
  (exists t, codecs.encode codecs.xor (js "https://example.com/a?b=1") = Ok t
             /\ codecs.decode codecs.xor t = Ok (js "https://example.com/a?b=1")) /\
  (exists t, sw.encodeUrl (js "https://example.com/a?b=1") = Ok (Some t)
             /\ sw.decodeUrl t = Ok (Some (js "https://example.com/a?b=1"))).
Proof.
  split; [reflexivity|].
  apply (codec_roundtrip codecs.xor (js "https://example.com/a?b=1")).
  reflexivity.
Defined.

(** ** URL-safe tokens of the service worker *)

Lemma toUrlSafe_units (b : jsstring) : forallb urlSafeUnit (toUrlSafe b) = true.
Proof.
  unfold toUrlSafe, removeAll, replaceAll.
  apply forallb_forall. intros c Hc.
  apply filter_In in Hc. destruct Hc as [Hc N61].
  apply in_map_iff in Hc. destruct Hc as [c1 [E1 Hc1]].
  apply in_map_iff in Hc1. destruct Hc1 as [c0 [E0 _]].
  unfold urlSafeUnit, mem. cbn [js list_ascii_of_string map existsb].
  change (Z.of_N (N_of_ascii "+")) with 43.
  change (Z.of_N (N_of_ascii "/")) with 47.
  change (Z.of_N (N_of_ascii "=")) with 61.
  destruct (Z.eqb_spec c0 43); destruct (Z.eqb_spec c1 47); lia.
Qed.

Lemma encodeUrl_cases (u : jsstring) :
  sw.encodeUrl u = Ok None \/
  exists b, sw.encodeUrl u = Ok (Some (toUrlSafe b)).
Proof.
  unfold sw.encodeUrl.
  destruct (encodeURIComponent u) as [e|]; [|left; reflexivity].
  cbn [bind]. destruct (btoa (unescape e)) as [b|]; [|left; reflexivity].
  right. exists b. reflexivity.
Qed.

(** C3 (counterexample).  The bundle's base64 codec keeps the padding and
    can emit [+]; and the service worker's path for the scenario is not the
    URL-safe base64 of the percent-encoded URL. *)
Lemma base64_not_urlsafe :
  (exists t, codecs.encode codecs.base64 (js "https://example.com/a?b=1") = Ok t
             /\ endsWith t (js "==") = true) /\
  (exists t, codecs.encode codecs.base64 (js "aa~") = Ok t
             /\ mem 43 t = true) /\
  (exists e p,
      encodeURIComponent (js "https://example.com/a?b=1") = Ok e /\
      sw.createProxyUrl (H := RefHost.host) (js "https://example.com/a?b=1")
                        (js "https://example.com/") = Ok p /\
      p <> sw.PROXY_PREFIX ++ toUrlSafe (b64_encode e)).
Proof.
  split; [|split].
  - eexists. split; vm_compute; reflexivity.
  - eexists. split; vm_compute; reflexivity.
  - do 2 eexists. split; [|split]; [vm_compute; reflexivity ..|].
    vm_compute. discriminate.
Qed.

(** C3 (amended).  Every token of the service worker's [encodeUrl] is free
    of [+], [/] and [=]; [decodeUrl] hands [atob] a string whose length is
    a multiple of 4; for the target [https://example.com/a?b=1] the proxied
    path is [/service/] followed by the unpadded URL-safe base64 of the URL
    itself, and decoding that path gives the URL back.  The bundle's
    [base64] is the padded standard base64 of the percent-encoded URL, and
    its [decode] inverts it. *)
Theorem base64_urlsafe_sw :
  (forall u, match sw.encodeUrl u with
             | Ok (Some t) => forallb urlSafeUnit t = true
             | _ => True
             end) /\
  (forall t, (List.length (sw.pad4 (fromUrlSafe t)) mod 4 = 0)%nat /\
             sw.decodeUrl t =
             try_catch (b <- atob (sw.pad4 (fromUrlSafe t)) ;;
                        d <- decodeURIComponent (escape b) ;; Ok (Some d))
                       (fun _ => Ok None)) /\
  (forall `{Host} base,
      let target := js "https://example.com/a?b=1" in
      let path := js "/service/aHR0cHM6Ly9leGFtcGxlLmNvbS9hP2I9MQ" in
      sw.createProxyUrl target base = Ok path /\
      path = sw.PROXY_PREFIX ++ toUrlSafe (b64_encode target) /\
      sw.decodeUrl (slice (List.length sw.PROXY_PREFIX) path)
      = Ok (Some target)) /\
  (let target := js "https://example.com/a?b=1" in
   let token := js "aHR0cHMlM0ElMkYlMkZleGFtcGxlLmNvbSUyRmElM0ZiJTNEMQ==" in
   codecs.encode codecs.base64 target = Ok token /\
   (e <- encodeURIComponent target ;; Ok (b64_encode e)) = Ok token /\
   codecs.decode codecs.base64 token = Ok target).
Proof.
  split; [|split; [|split]].
  - intros u. destruct (encodeUrl_cases u) as [-> | [b ->]]; [exact I|].
    apply toUrlSafe_units.
  - intros t. split; [apply pad4_length | reflexivity].
  - intros H base. cbv zeta. repeat split; vm_compute; reflexivity.
  - cbv zeta. repeat split; vm_compute; reflexivity.
Qed.

(** ** What the decoders throw *)

Lemma only_bind {A B} (P : exn -> Prop) (m : outcome A) (k : A -> outcome B) :
  only P m -> (forall a, only P (k a)) -> only P (bind m k).
Proof.
  destruct m as [a|e]; cbn; auto.
Qed.

Lemma only_impl {A} (P Q : exn -> Prop) (m : outcome A) :
  (forall e, P e -> Q e) -> only P m -> only Q m.
Proof.
  destruct m; cbn; auto.
Qed.

Lemma uri_items_only (s : jsstring) : only (eq URIError) (uri_items s).
Proof.
  remember (List.length s) as n eqn:Hn.
  revert s Hn. induction n as [n IH] using lt_wf_ind. intros s Hn.
  destruct s as [|c r]; [exact I|].
  cbn [uri_items]. destruct (c =? 37).
  - destruct r as [|h1 [|h2 r2]]; try reflexivity.
    destruct (hexval h1); [|reflexivity].
    destruct (hexval h2); [|reflexivity].
    apply only_bind; [|intros; exact I].
    apply (IH (List.length r2)); [subst n; cbn; lia | reflexivity].
  - apply only_bind; [|intros; exact I].
    apply (IH (List.length r)); [subst n; cbn; lia | reflexivity].
Qed.

Lemma utf8_items_only (its : list uri_item) :
  only (eq URIError) (utf8_items its).
Proof.
  remember (List.length its) as n eqn:Hn.
  revert its Hn. induction n as [n IH] using lt_wf_ind. intros its Hn.
  assert (forall r : list uri_item,
             (List.length r < n)%nat ->
             only (eq URIError) (utf8_items r)) as IH'.
  { intros r Hr. apply (IH (List.length r)); [exact Hr | reflexivity]. }
  assert (forall (r : list uri_item) (f : jsstring -> outcome jsstring),
             (List.length r < n)%nat ->
             (forall x, only (eq URIError) (f x)) ->
             only (eq URIError) (bind (utf8_items r) f)) as step.
  { intros r f Hr Hf. apply only_bind; auto. }
  destruct its as [|[c|b] r]; [exact I | |].
  - cbn [utf8_items]. apply step; [subst n; cbn; lia | intros; exact I].
  - cbn [utf8_items].
    destruct (b <? 128).
    { apply step; [subst n; cbn; lia | intros; exact I]. }
    destruct (b <? 192); [reflexivity|].
    destruct (b <? 224).
    { destruct r as [|[?|b1] r1]; try reflexivity.
      cbv zeta. destruct (isCont b1 && _); [|reflexivity].
      apply step; [subst n; cbn; lia | intros; exact I]. }
    destruct (b <? 240).
    { destruct r as [|[?|b1] [|[?|b2] r2]]; try reflexivity.
      cbv zeta. destruct (isCont b1 && _ && _ && _); [|reflexivity].
      apply step; [subst n; cbn; lia | intros; exact I]. }
    destruct (b <? 248); [|reflexivity].
    destruct r as [|[?|b1] [|[?|b2] [|[?|b3] r3]]]; try reflexivity.
    cbv zeta. destruct (isCont b1 && _ && _ && _); [|reflexivity].
    apply step; [subst n; cbn; lia | intros; exact I].
Qed.

Lemma decodeURIComponent_only (s : jsstring) :
  only decodeError (decodeURIComponent s).
Proof.
  unfold decodeURIComponent. apply only_bind.
  - apply only_impl with (P := eq URIError);
      [intros e <-; left; reflexivity | apply uri_items_only].
  - intros its. apply only_impl with (P := eq URIError);
      [intros e <-; left; reflexivity | apply utf8_items_only].
Qed.

Lemma atob_only (s : jsstring) : only decodeError (atob s).
Proof.
  unfold atob. destruct (b64_decode _); [exact I | right; reflexivity].
Qed.

Lemma codecs_decode_only (k : codecs.id) (t : jsstring) :
  only decodeError (codecs.decode k t).
Proof.
  destruct k; cbn [codecs.decode].
  - exact I.
  - destruct t; [exact I | apply decodeURIComponent_only].
  - destruct t; [exact I|].
    apply only_bind; [apply decodeURIComponent_only | intros; exact I].
  - destruct t; [exact I|].
    apply only_bind; [apply atob_only | intros; apply decodeURIComponent_only].
Qed.

(** A [%] that is not followed by two hexadecimal digits. *)
Lemma uri_items_bad_escape (a rest : jsstring) :
  badEscape rest = true -> uri_items (a ++ 37 :: rest) = Throw URIError.
Proof.
  intros B.
  remember (List.length a) as n eqn:Hn.
  revert a Hn. induction n as [n IH] using lt_wf_ind. intros a Hn.
  assert (forall h : Z, h = 37 -> hexval h = None) as P
    by (intros h ->; reflexivity).
  destruct a as [|c a].
  - cbn [app uri_items]. rewrite Z.eqb_refl. unfold badEscape in B.
    destruct rest as [|h1 [|h2 r2]]; try reflexivity.
    destruct (hexval h1); [|reflexivity].
    destruct (hexval h2); [discriminate | reflexivity].
  - cbn [app uri_items]. destruct (c =? 37).
    + destruct a as [|h1 [|h2 a2]]; cbn [app].
      * destruct rest; [reflexivity|]. rewrite (P 37 eq_refl). reflexivity.
      * rewrite (P 37 eq_refl). destruct (hexval h1); reflexivity.
      * destruct (hexval h1); [|reflexivity].
        destruct (hexval h2); [|reflexivity].
        rewrite (IH (List.length a2)); [reflexivity | subst n; cbn; lia
                                       | reflexivity].
    + rewrite (IH (List.length a)); [reflexivity | subst n; cbn; lia
                                     | reflexivity].
Qed.

Lemma decodeURIComponent_bad_escape (a rest : jsstring) :
  badEscape rest = true ->
  decodeURIComponent (a ++ 37 :: rest) = Throw URIError.
Proof.
  intros B. unfold decodeURIComponent.
  rewrite uri_items_bad_escape by exact B. reflexivity.
Qed.

(** A code unit outside the base64 alphabet. *)
Lemma b64_decode_bad_unit (c : Z) (d : jsstring) :
  In c d -> b64val c = None -> b64_decode d = None.
Proof.
  intros Hin Hc.
  remember (List.length d) as n eqn:Hn.
  revert d Hn Hin. induction n as [n IH] using lt_wf_ind. intros d Hn Hin.
  destruct d as [|c1 [|c2 [|c3 [|c4 r]]]]; cbn [b64_decode].
  - destruct Hin.
  - reflexivity.
  - destruct Hin as [<- | [<- | []]]; rewrite Hc;
      [reflexivity | destruct (b64val c1); reflexivity].
  - destruct Hin as [<- | [<- | [<- | []]]]; rewrite Hc;
      [reflexivity | destruct (b64val c1); reflexivity
      | destruct (b64val c1); [destruct (b64val c2)|]; reflexivity].
  - destruct (b64val c1) eqn:E1; [|reflexivity].
    destruct (b64val c2) eqn:E2; [|reflexivity].
    destruct (b64val c3) eqn:E3; [|reflexivity].
    destruct (b64val c4) eqn:E4; [|reflexivity].
    destruct Hin as [<- | [<- | [<- | [<- | Hin]]]]; try congruence.
    rewrite (IH (List.length r)); [reflexivity | subst n; cbn; lia
                                   | reflexivity | exact Hin].
Qed.

Lemma drop_last_eq_In (c : Z) (d : jsstring) :
  In c d -> c <> 61 -> In c (drop_last_eq d).
Proof.
  intros Hin Hc. induction d as [|x d IH]; [destruct Hin|].
  destruct d as [|y d].
  - destruct Hin as [<- | []]. cbn [drop_last_eq].
    apply Z.eqb_neq in Hc. rewrite Hc. left. reflexivity.
  - change (drop_last_eq (x :: y :: d)) with (x :: drop_last_eq (y :: d)).
    destruct Hin as [<- | Hin]; [left; reflexivity | right; apply IH, Hin].
Qed.

Lemma atob_bad_unit (c : Z) (s : jsstring) :
  In c s -> outsideBase64 c = true -> atob s = Throw InvalidCharacterError.
Proof.
  intros Hin Hc. unfold outsideBase64 in Hc.
  apply andb_true_iff in Hc. destruct Hc as [Hc Hv].
  apply andb_true_iff in Hc. destruct Hc as [Hws H61].
  assert (b64val c = None) as V by (destruct (b64val c); [discriminate | reflexivity]).
  assert (c <> 61) as N by (apply Z.eqb_neq, negb_true_iff, H61).
  unfold atob.
  rewrite (b64_decode_bad_unit c); [reflexivity | | exact V].
  assert (In c (filter (fun c => negb (isAsciiWhitespace c)) s)) as F
    by (apply filter_In; split; assumption).
  unfold strip_padding.
  destruct (_ =? 0)%nat; [|exact F].
  apply drop_last_eq_In; [apply drop_last_eq_In|]; assumption.
Qed.

Lemma decodeUrl_bad_unit (c : Z) (t : jsstring) :
  In c t -> outsideBase64 c = true -> (c =? 45) || (c =? 95) = false ->
  sw.decodeUrl t = Ok None.
Proof.
  intros Hin Hc Hd. apply orb_false_iff in Hd. destruct Hd as [H45 H95].
  unfold sw.decodeUrl.
  rewrite (atob_bad_unit c); [reflexivity | | exact Hc].
  unfold sw.pad4. apply in_or_app. left.
  unfold replaceAll. apply in_map_iff. exists c. split.
  - rewrite H95. reflexivity.
  - apply in_map_iff. exists c. split; [rewrite H45; reflexivity | exact Hin].
Qed.

(** C4 (counterexample).  On a malformed token the bundle's [plain], [xor]
    and [base64] decoders throw the host's exception. *)
Lemma bundle_decode_throws :
  codecs.decode codecs.plain (js "%") = Throw URIError /\
  codecs.decode codecs.xor (js "%zz") = Throw URIError /\
  codecs.decode codecs.base64 (js "a") = Throw InvalidCharacterError /\
  codecs.decode codecs.base64 (js "JQ==") = Throw URIError.
Proof. repeat split; vm_compute; reflexivity. Qed.

(** C4 (amended).  The service worker's [decodeUrl] never throws: it
    returns [null] exactly when [atob] or [decodeURIComponent] fails on the
    re-padded token.  It returns [null] on every token with a code unit
    that is none of a letter, a digit, [+], [/], [-], [_], [=] and ASCII
    white space; [+], [/], [=] and white space, which are not in the
    URL-safe alphabet, it accepts as [atob] does.  The bundle's decoders
    throw on a malformed token: [plain] and [xor] throw URIError on a [%]
    without two hexadecimal digits, [base64] throws InvalidCharacterError
    on a code unit that is none of a letter, a digit, [+], [/], [=] and
    ASCII white space, and they throw nothing but these two; [none] never
    fails; the bundle's [sourceUrl], which calls them, never throws.  On a
    string of URL-legal characters no encoder fails. *)
Theorem decode_failures_controlled :
  (forall t, exists v, sw.decodeUrl t = Ok v /\
     (v = None <->
      throws (b <- atob (sw.pad4 (fromUrlSafe t)) ;;
              decodeURIComponent (escape b)) = true)) /\
  (forall c t, In c t -> outsideBase64 c = true ->
               (c =? 45) || (c =? 95) = false ->
               sw.decodeUrl t = Ok None) /\
  (sw.decodeUrl (js "YWF+") = Ok (Some (js "aa~")) /\
   sw.decodeUrl (js "Pz8/") = Ok (Some (js "???")) /\
   sw.decodeUrl (js "YQ=") = Ok (Some (js "a")) /\
   sw.decodeUrl (js " YQ ") = Ok (Some (js "a"))) /\
  (forall a rest, badEscape rest = true ->
     codecs.decode codecs.plain (a ++ 37 :: rest) = Throw URIError /\
     codecs.decode codecs.xor (a ++ 37 :: rest) = Throw URIError) /\
  (forall c t, In c t -> outsideBase64 c = true ->
     codecs.decode codecs.base64 t = Throw InvalidCharacterError) /\
  (forall k t, only decodeError (codecs.decode k t)) /\
  (forall t, codecs.decode codecs.none t = Ok t) /\
  (forall `{Host} this u m, exists v, bundle.sourceUrl this u m = Ok v) /\
  (forall k s, forallb urlLegal s = true ->
     (exists t, codecs.encode k s = Ok t) /\
     (exists t, sw.encodeUrl s = Ok (Some t))).
Proof.
  split; [|split; [|split; [|split; [|split; [|split; [|split; [|split]]]]]]].
  - intros t. unfold sw.decodeUrl.
    change (replaceAll 95 47 (replaceAll 45 43 t)) with (fromUrlSafe t).
    destruct (atob (sw.pad4 (fromUrlSafe t))) as [b|e]; cbn.
    + destruct (decodeURIComponent (escape b)) as [d|e]; cbn.
      * eexists. split; [reflexivity|]. split; discriminate.
      * eexists. split; [reflexivity|]. split; reflexivity.
    + eexists. split; [reflexivity|]. split; reflexivity.
  - apply decodeUrl_bad_unit.
  - repeat split; vm_compute; reflexivity.
  - intros a rest B.
    pose proof (decodeURIComponent_bad_escape a rest B) as E.
    destruct (a ++ 37 :: rest) eqn:A; [destruct a; discriminate|].
    cbn [codecs.decode]. rewrite E. split; reflexivity.
  - intros c t Hin Hc. pose proof (atob_bad_unit c t Hin Hc) as E.
    destruct t; [destruct Hin|].
    cbn [codecs.decode]. rewrite E. reflexivity.
  - apply codecs_decode_only.
  - intros t. reflexivity.
  - intros H this u m. unfold bundle.sourceUrl.
    destruct u as [|c u]; [eexists; reflexivity|].
    destruct (bundle.urlRegex_test (c :: u)); [eexists; reflexivity|].
    match goal with
    | |- context [try_catch ?b _] => destruct b as [v|e]
    end; eexists; reflexivity.
  - intros k s Hs. pose proof (urlLegal_ascii s Hs) as A. split.
    + destruct (bundle_roundtrip_ascii k s A) as [t [E _]]. exists t. exact E.
    + eexists. apply encodeUrl_ascii, A.
Qed.

Lemma decode_failures_controlled_witness :
  sw.decodeUrl (js "a!b") = Ok None /\
  codecs.decode codecs.plain (js "ab%zz") = Throw URIError /\
  codecs.decode codecs.base64 (js "a!b") = Throw InvalidCharacterError /\
  (exists t, codecs.encode codecs.base64 (js "https://example.com/a?b=1") = Ok t) /\
  (exists t, sw.encodeUrl (js "https://example.com/a?b=1") = Ok (Some t)).
Proof.
  destruct decode_failures_controlled as [_ [N [_ [P [B [_ [_ [_ E]]]]]]]].
  split; [|split; [|split]].
  - apply (N 33 (js "a!b")); [right; left; reflexivity | reflexivity ..].
  - apply (P (js "ab") (js "zz")). reflexivity.
  - apply (B 33 (js "a!b")); [right; left; reflexivity | reflexivity].
  - apply (E codecs.base64 (js "https://example.com/a?b=1")). reflexivity.
Defined.

(** ** Cookie scoping *)

Lemma jsstring_eqb_eq (a b : jsstring) : jsstring_eqb a b = true <-> a = b.
Proof.
  unfold jsstring_eqb. destruct (list_eq_dec Z.eq_dec a b); split;
    congruence.
Qed.

Lemma startsWith_refl (s : jsstring) : startsWith s s = true.
Proof.
  induction s as [|c s IH]; [reflexivity|].
  cbn [startsWith]. rewrite Z.eqb_refl. exact IH.
Qed.

Lemma startsWith_app_l (s p q : jsstring) :
  startsWith s (p ++ q) = true -> startsWith s p = true.
Proof.
  revert s. induction p as [|x p IH]; intros s H; [destruct s; reflexivity|].
  destruct s as [|y s]; [discriminate|].
  cbn [app startsWith] in *. apply andb_true_iff in H. destruct H as [E H].
  rewrite E. cbn [andb]. apply IH, H.
Qed.

Lemma endsWith_refl (s : jsstring) : endsWith s s = true.
Proof. apply startsWith_refl. Qed.

Lemma endsWith_app_r (s p q : jsstring) :
  endsWith s (p ++ q) = true -> endsWith s q = true.
Proof.
  unfold endsWith. rewrite rev_app_distr. apply startsWith_app_l.
Qed.

(** [validateCookie] as one boolean expression. *)
Lemma validateCookie_eq `{Host} (this : bundle.Ultraviolet)
      (cookie : bundle.Cookie) (m : bundle.Meta) (js_ : bool) :
  bundle.validateCookie this cookie m js_ =
  negb (bundle.httpOnly cookie && js_) &&
  match new_URL (or_else (bundle.url m) (bundle.url (bundle.meta this))) None
  with
  | Throw _ => false
  | Ok parsed =>
    (negb (bundle.nonempty (bundle.domain cookie))
     || domainPasses (url_hostname parsed) (bundle.domain cookie))
    && negb (bundle.secure cookie
             && jsstring_eqb (url_protocol parsed) (js "http:"))
    && (negb (bundle.nonempty (bundle.path cookie))
        || startsWith (url_pathname parsed) (bundle.path cookie))
  end.
Proof.
  unfold bundle.validateCookie, domainPasses.
  destruct (bundle.httpOnly cookie && js_); [reflexivity|].
  cbn [negb andb].
  destruct (new_URL _ None) as [parsed|e]; [|reflexivity].
  destruct (bundle.nonempty (bundle.domain cookie));
    destruct (startsWith (bundle.domain cookie) (js "."));
    destruct (endsWith (url_hostname parsed) (slice 1 (bundle.domain cookie)));
    destruct (jsstring_eqb (url_hostname parsed)
                           (slice 1 (bundle.domain cookie)));
    destruct (jsstring_eqb (url_hostname parsed) (bundle.domain cookie));
    destruct (endsWith (url_hostname parsed) (js "." ++ bundle.domain cookie));
    destruct (bundle.secure cookie
              && jsstring_eqb (url_protocol parsed) (js "http:"));
    destruct (bundle.nonempty (bundle.path cookie));
    destruct (startsWith (url_pathname parsed) (bundle.path cookie));
    reflexivity.
Qed.

(** C5 (counterexample).  A cookie whose domain [example.com] has no
    leading dot is visible at [https://sub.example.com/x], whose hostname is
    not the domain. *)
Lemma cookie_domain_not_exact :
  visible_at (js "example.com") (js "https://sub.example.com/x") = true /\
  exists p, new_URL (Host := RefHost.host)
                    (js "https://sub.example.com/x") None = Ok p /\
            url_hostname p <> js "example.com".
Proof.
  split; [vm_compute; reflexivity|].
  eexists. split; [vm_compute; reflexivity|].
  vm_compute. discriminate.
Qed.

(** The dot branch compares the hostname with the domain stripped of its
    dot, without asking for a dot before it. *)
Example cookie_dot_domain_suffix :
  visible_at (js ".example.com") (js "https://badexample.com/x") = true.
Proof. vm_compute. reflexivity. Qed.

(** C5 (amended).  For a cookie with a domain, at a context whose URL
    parses and whose httpOnly, secure and path tests pass: if the domain
    starts with a dot, the cookie is visible whenever the hostname equals
    the domain without the dot or ends with the domain (dot included); if it
    does not, the cookie is visible exactly when the hostname equals the
    domain or ends with a dot followed by the domain.  The cookie
    [{domain: ".example.com", path: "/", secure: false}] is visible at
    [https://sub.example.com/x] and at [http://example.com/x], and not at
    [https://other.com/x]. *)
Theorem cookie_domain_scoping :
  (forall `{Host} this cookie m js_ parsed,
      new_URL (or_else (bundle.url m) (bundle.url (bundle.meta this))) None
      = Ok parsed ->
      bundle.httpOnly cookie && js_ = false ->
      bundle.secure cookie
      && jsstring_eqb (url_protocol parsed) (js "http:") = false ->
      (bundle.path cookie = [] \/
       startsWith (url_pathname parsed) (bundle.path cookie) = true) ->
      bundle.domain cookie <> [] ->
      let h := url_hostname parsed in
      let d := bundle.domain cookie in
      (startsWith d (js ".") = true ->
       h = slice 1 d \/ endsWith h (js "." ++ slice 1 d) = true ->
       bundle.validateCookie this cookie m js_ = true) /\
      (startsWith d (js ".") = false ->
       (bundle.validateCookie this cookie m js_ = true <->
        h = d \/ endsWith h (js "." ++ d) = true))) /\
  visible_at (js ".example.com") (js "https://sub.example.com/x") = true /\
  visible_at (js ".example.com") (js "http://example.com/x") = true /\
  visible_at (js ".example.com") (js "https://other.com/x") = false.
Proof.
  split; [|repeat split; vm_compute; reflexivity].
  intros H this cookie m js_ parsed Hp Hh Hs Hpath Hd h d.
  rewrite validateCookie_eq, Hp, Hh, Hs.
  assert (bundle.nonempty (bundle.domain cookie) = true) as ->
    by (destruct (bundle.domain cookie); [contradiction | reflexivity]).
  assert (negb (bundle.nonempty (bundle.path cookie))
          || startsWith (url_pathname parsed) (bundle.path cookie) = true)
    as ->.
  { destruct Hpath as [-> | ->]; [reflexivity | apply orb_true_r]. }
  cbn [negb andb orb]. rewrite !andb_true_r.
  unfold domainPasses. fold h d. split; intros Hdot; rewrite Hdot.
  - intros [E | E].
    + rewrite E, endsWith_refl. reflexivity.
    + apply endsWith_app_r in E. rewrite E. reflexivity.
  - rewrite orb_true_iff, jsstring_eqb_eq. reflexivity.
Qed.

Lemma cookie_domain_scoping_witness :
  visible_at (js ".example.com") (js "https://sub.example.com/x") = true.
Proof.
  destruct cookie_domain_scoping as [G _].
  destruct (new_URL (Host := RefHost.host)
                    (js "https://sub.example.com/x") None) as [p|] eqn:E;
    [|vm_compute in E; discriminate].
  refine (proj1 (G RefHost.host (bundle.new (H := RefHost.host) bundle.no_options)
                   (scenario_cookie (js ".example.com"))
                   (at_url (js "https://sub.example.com/x")) true p
                   E eq_refl eq_refl _ _) eq_refl _).
  - right. vm_compute in E. inversion E. vm_compute. reflexivity.
  - vm_compute. discriminate.
  - right. vm_compute in E. inversion E. vm_compute. reflexivity.
Defined.

(** ** Redirects at the service worker *)

Lemma createProxyUrl_returns `{Host} (u b : jsstring) :
  exists p, sw.createProxyUrl u b = Ok p.
Proof.
  unfold sw.createProxyUrl.
  destruct (negb (sw.shouldProxy u)); [eexists; reflexivity|].
  match goal with
  | |- context [try_catch ?body _] => destruct body as [v|e]
  end; eexists; reflexivity.
Qed.

Lemma createProxyUrl_http `{Host} (u b : jsstring) :
  startsWith u (js "http://") = true \/ startsWith u (js "https://") = true ->
  Forall isAscii u ->
  sw.createProxyUrl u b = Ok (sw.PROXY_PREFIX ++ toUrlSafe (b64_encode u)).
Proof.
  intros Hs Ha. unfold sw.createProxyUrl.
  assert (exists u', u = 104 :: u') as [u' ->].
  { destruct u as [|c u]; [destruct Hs; discriminate|].
    exists u. f_equal.
    destruct Hs as [Hs|Hs];
      [change (js "http://") with (104 :: js "ttp://") in Hs
      |change (js "https://") with (104 :: js "ttps://") in Hs];
      cbn [startsWith] in Hs; apply andb_true_iff in Hs;
      destruct Hs as [Hs _]; lia. }
  change (negb (sw.shouldProxy (104 :: u'))) with false. cbv iota.
  change (startsWith (104 :: u') (js "//")) with false.
  change (startsWith (104 :: u') (js "/")) with false.
  cbv iota.
  assert (negb (startsWith (104 :: u') (js "http://"))
          && negb (startsWith (104 :: u') (js "https://")) = false) as ->.
  { destruct Hs as [-> | ->]; [reflexivity | apply andb_false_r]. }
  cbn [bind]. rewrite encodeUrl_ascii by exact Ha. reflexivity.
Qed.

(** C6 (the code at the failing input).  The worker fetches with
    [redirect: 'manual'], so a redirect of the target reaches it as an
    opaque redirect, with status 0 and no headers.  There is no [Location]
    to read, the pass-through [new Response] refuses the status 0, and the
    edge answers 502: for every target that decodes and parses and every
    upstream response with status 301, 302, 303, 307 or 308, whatever its
    [Location].  Upstream 302 with [Location: /new] for the target
    [https://example.com/old] is answered with 502, not with status 302 and
    the proxy form of [https://example.com/new]. *)
Theorem redirect_answered_502 :
  (forall `{Host} upstream request pathname search target t response,
      sw.decodeUrl (slice (List.length sw.PROXY_PREFIX) pathname)
      = Ok (Some target) ->
      target <> [] ->
      new_URL (sw.appendQuery target search) None = Ok t ->
      upstream (sw.proxyRequest request) = Ok response ->
      isRedirectStatus (sw.resp_status response) = true ->
      sw.preq_redirect (sw.proxyRequest request) = js "manual" /\
      sw.handleProxyRequest (fetch_manual upstream) request pathname search
      = Ok (sw.new_Response (js "Proxy error: " ++ message RangeError)
                            502 [] [])) /\
  sw.handleProxyRequest (H := RefHost.host)
    (fetch_manual (upstream_redirect 302 (js "/new")))
    (scenario_request (js "https://example.com/old"))
    (scenario_pathname (js "https://example.com/old")) []
  = Ok (sw.new_Response (js "Proxy error: Invalid status") 502 [] []).
Proof.
  split.
  - intros H upstream request pathname search target t response
           Hdec Hne Ht Hup Hst.
    split; [reflexivity|].
    unfold sw.handleProxyRequest. rewrite Hdec. cbn [bind].
    destruct target as [|c0 target0]; [contradiction|].
    unfold sw.filteredHeaders. rewrite Ht. cbn [bind].
    unfold fetch_manual. rewrite Hup. cbn [bind]. rewrite Hst.
    reflexivity.
  - vm_compute. reflexivity.
Qed.

Lemma redirect_answered_502_witness :
  sw.preq_redirect
    (sw.proxyRequest (scenario_request (js "https://example.com/old")))
  = js "manual" /\
  sw.handleProxyRequest (H := RefHost.host)
    (fetch_manual (upstream_redirect 307 (js "https://example.com/new")))
    (scenario_request (js "https://example.com/old"))
    (scenario_pathname (js "https://example.com/old")) []
  = Ok (sw.new_Response (js "Proxy error: " ++ message RangeError) 502 [] []).
Proof.
  destruct redirect_answered_502 as [G _].
  destruct (new_URL (Host := RefHost.host)
                    (js "https://example.com/old") None) as [t|] eqn:Et;
    [|vm_compute in Et; discriminate].
  apply (G RefHost.host
           (upstream_redirect 307 (js "https://example.com/new"))
           (scenario_request (js "https://example.com/old"))
           (scenario_pathname (js "https://example.com/old")) []
           (js "https://example.com/old") t
           {| sw.resp_type := sw.basic; sw.resp_status := 307;
              sw.resp_statusText := js "Found";
              sw.resp_headers :=
                [(js "Location", js "https://example.com/new")];
              sw.resp_body := [] |}).
  - vm_compute. reflexivity.
  - vm_compute. discriminate.
  - exact Et.
  - reflexivity.
  - reflexivity.
Defined.

(** ** Request headers at the service worker *)

(** C7 (the code at the failing input).  The request handed to the fetch
    executor carries [request.headers] as they came: a client header
    [x-secret] outside the allow-list reaches the executor, and the [Host],
    [Origin] and [Referer] that were built for the target do not. *)
Theorem upstream_headers_not_filtered :
  (forall request,
      sw.preq_headers (sw.proxyRequest request) = sw.req_headers request) /\
  let target := js "https://example.com/old" in
  let request := scenario_request target in
  sw.filteredHeaders (H := RefHost.host) request target
  = Ok [(js "accept", js "text/html"); (js "Host", js "example.com");
        (js "Origin", js "https://example.com"); (js "Referer", target)] /\
  sw.headers_get (sw.preq_headers (sw.proxyRequest request)) (js "x-secret")
  = Some (js "1") /\
  sw.headers_has (sw.preq_headers (sw.proxyRequest request)) (js "Host")
  = false /\
  sw.handleProxyRequest (H := RefHost.host) echoing request
                        (scenario_pathname target) []
  = Ok (sw.new_Response (js "accept, x-secret") 200 (js "OK") []).
Proof.
  split; [reflexivity|].
  cbv zeta. repeat split; vm_compute; reflexivity.
Qed.

(** ** The skip-lists of the two rewriters *)

Lemma handler_skip_list `{Host} (config : Config) (source u base : jsstring) :
  handler.special (trim u) = true ->
  handler.rewriteUrl config source u base = Ok (trim u).
Proof.
  intros Hs. unfold handler.rewriteUrl.
  destruct u as [|c u]; [reflexivity|].
  rewrite Hs. reflexivity.
Qed.

Lemma bundle_skip_list `{Host} (this : bundle.Ultraviolet) (u : jsstring)
      (m : option bundle.Meta) :
  bundle.urlRegex_test (trim u) = true ->
  bundle.rewriteUrl this u m = Ok (trim u).
Proof.
  intros Hs. unfold bundle.rewriteUrl.
  destruct u as [|c u]; [reflexivity|].
  rewrite Hs. reflexivity.
Qed.

(** [javascript:] never reaches the branch written for it. *)
Lemma bundle_javascript_unchanged `{Host} (this : bundle.Ultraviolet)
      (u : jsstring) (m : option bundle.Meta) :
  startsWith (trim u) (js "javascript:") = true ->
  bundle.rewriteUrl this u m = Ok (trim u).
Proof.
  intros Hs. apply bundle_skip_list. unfold bundle.urlRegex_test.
  cbn [existsb]. rewrite Hs. rewrite !orb_true_r. reflexivity.
Qed.

(** C8 (the code at the failing input).  The bundle's [rewriteUrl] has no
    [tel:] in its skip-list: [tel:+15551234] is resolved, encoded and
    prefixed.  The handler's [rewriteUrl] returns it unchanged. *)
Theorem bundle_rewrites_tel :
  let u := js "tel:+15551234" in
  let this := bundle.new (H := RefHost.host) bundle.no_options in
  bundle.urlRegex_test u = false /\
  bundle.rewriteUrl (H := RefHost.host) this u None
  = Ok (js "https://proxy.example/service/tgl8%2B35753214") /\
  bundle.rewriteUrl (H := RefHost.host) this u None <> Ok u /\
  handler.rewriteUrl (H := RefHost.host) uv_config
                     (js "https://example.com/") u [] = Ok u.
Proof.
  cbv zeta. repeat split; try (vm_compute; reflexivity).
  vm_compute. discriminate.
Qed.

(** ** The handler's test for a rewritten URL *)

(** C10.  The handler's [rewriteUrl] returns the trimmed input whenever it
    contains the configured prefix anywhere; so an input without
    surrounding white space that contains the prefix is returned unchanged,
    as is the unproxied [https://example.com/service/x]. *)
Theorem handler_prefix_anywhere :
  (forall `{Host} config source u base,
      includes (trim u) (config_prefix config) = true ->
      handler.rewriteUrl config source u base = Ok (trim u) /\
      (trim u = u -> handler.rewriteUrl config source u base = Ok u)) /\
  (let u := js "https://example.com/service/x" in
   config_prefix uv_config = js "/service/" /\
   startsWith u (config_prefix uv_config) = false /\
   forall (H : Host) source base,
     handler.rewriteUrl uv_config source u base = Ok u).
Proof.
  split.
  - intros H config source u base Hi.
    assert (handler.rewriteUrl config source u base = Ok (trim u)) as E.
    { unfold handler.rewriteUrl. destruct u as [|c u]; [reflexivity|].
      rewrite Hi. destruct (handler.special _); reflexivity. }
    split; [exact E|]. intros T. rewrite E, T. reflexivity.
  - cbv zeta. split; [reflexivity|]. split; [reflexivity|].
    intros H source base. reflexivity.
Qed.

Lemma handler_prefix_anywhere_witness :
  handler.rewriteUrl (H := RefHost.host) uv_config (js "https://example.com/")
                     (js " https://example.com/service/x ") []
  = Ok (js "https://example.com/service/x").
Proof.
  destruct handler_prefix_anywhere as [G _].
  apply (G RefHost.host uv_config (js "https://example.com/")
           (js " https://example.com/service/x ") []).
  vm_compute. reflexivity.
Defined.

(** ** Rewriting twice *)

(** C2 (the code at the failing input).  The bundle's [rewriteUrl] has no
    test for a URL that already carries the proxy prefix: applied to its
    own result for [https://example.com/], or to the path of that result,
    it encodes the proxied URL once more. *)
Theorem bundle_rewriteUrl_not_idempotent :
  let this := bundle.new (H := RefHost.host) bundle.no_options in
  let u := js "https://example.com/" in
  let once := js "https://proxy.example/service/hvtrs8%2F-ezaopne%2Ccmm-" in
  let twice :=
    js "https://proxy.example/service/hvtrs8%2F-ppozy%2Cezaopne-sgrtiae-https%3A%250F%2Fexample'2Acom%2F" in
  bundle.rewriteUrl (H := RefHost.host) this u None = Ok once /\
  startsWith once (bundle.origin (bundle.meta this) ++ bundle.prefix this)
  = true /\
  bundle.rewriteUrl (H := RefHost.host) this once None = Ok twice /\
  twice <> once /\
  bundle.rewriteUrl (H := RefHost.host) this
                    (js "/service/hvtrs8%2F-ezaopne%2Ccmm-") None = Ok twice.
Proof.
  cbv zeta. repeat split; try (vm_compute; reflexivity).
  vm_compute. discriminate.
Qed.

(** ** Hook dispatch *)

Lemma forEach_throws (fns : list client.listener) (e : client.HookEvent)
      (x : exn) (hook : client.events) :
  client.lookup (js "request") hook = Some fns ->
  client.forEach fns e = Throw x ->
  client.emit hook (js "request") e = Throw x.
Proof.
  intros Hl Hf. unfold client.emit. rewrite Hl, Hf. reflexivity.
Qed.

(** C9 (the code at the failing input).  When a listener registered on
    [request] throws, so does the overridden [fetch]: the exception leaves
    the call, and the original [fetch] is not invoked. *)
Theorem listener_exception_propagates :
  (forall hook fns target input rest x,
      client.lookup (js "request") hook = Some fns ->
      client.forEach fns
        (client.new_HookEvent input (hd client.Undefined rest)) = Throw x ->
      client.fetch hook target (input :: rest) = (Throw x, [])) /\
  (let hook := client.on (js "request") throwing [] in
   let original := returning (client.Str (js "response")) in
   let args := [client.Str (js "https://example.com/")] in
   client.fetch hook original args = (Throw ListenerError, []) /\
   client.fetch hook original args
   <> (original args, [args])).
Proof.
  split.
  - intros hook fns target input rest x Hl Hf.
    unfold client.fetch, client.override, client.fetch_wrapper.
    rewrite (forEach_throws fns _ x hook Hl Hf). reflexivity.
  - cbv zeta. split; [vm_compute; reflexivity|].
    vm_compute. discriminate.
Qed.

Lemma listener_exception_propagates_witness :
  client.fetch (client.on (js "request") throwing [])
               (returning (client.Str (js "response")))
               [client.Str (js "https://example.com/")]
  = (Throw ListenerError, []).
Proof.
  destruct listener_exception_propagates as [G _].
  apply (G (client.on (js "request") throwing []) [throwing]
           (returning (client.Str (js "response")))
           (client.Str (js "https://example.com/")) [] ListenerError).
  - vm_compute. reflexivity.
  - reflexivity.
Defined.

(** ** The handler's [rewriteUrl] is idempotent *)

Lemma trimStart_idem (s : jsstring) : trimStart (trimStart s) = trimStart s.
Proof.
  induction s as [|c s IH]; [reflexivity|].
  cbn [trimStart]. destruct (isWhiteSpace c) eqn:E; [exact IH|].
  cbn [trimStart]. rewrite E. reflexivity.
Qed.

Lemma trimStart_cases (s : jsstring) :
  trimStart s = [] \/
  exists c r, trimStart s = c :: r /\ isWhiteSpace c = false.
Proof.
  induction s as [|c s IH]; [left; reflexivity|].
  cbn [trimStart]. destruct (isWhiteSpace c) eqn:E; [exact IH|].
  right. exists c, s. split; [reflexivity | exact E].
Qed.

Lemma trimStart_snoc (l : jsstring) (c : Z) :
  isWhiteSpace c = false -> exists l', trimStart (l ++ [c]) = l' ++ [c].
Proof.
  intros E. induction l as [|x l IH].
  - exists []. cbn. rewrite E. reflexivity.
  - cbn [app trimStart]. destruct (isWhiteSpace x); [exact IH|].
    exists (x :: l). reflexivity.
Qed.

Lemma trimEnd_idem (s : jsstring) : trimEnd (trimEnd s) = trimEnd s.
Proof.
  unfold trimEnd. rewrite rev_involutive, trimStart_idem. reflexivity.
Qed.

Lemma trimEnd_head (c : Z) (r : jsstring) :
  isWhiteSpace c = false -> exists r', trimEnd (c :: r) = c :: r'.
Proof.
  intros E. unfold trimEnd. cbn [rev].
  destruct (trimStart_snoc (rev r) c E) as [l' ->].
  exists (rev l'). rewrite rev_app_distr. reflexivity.
Qed.

Lemma trim_idem (s : jsstring) : trim (trim s) = trim s.
Proof.
  unfold trim.
  destruct (trimStart_cases s) as [-> | [c [r [-> E]]]]; [reflexivity|].
  destruct (trimEnd_head c r E) as [r' Hr].
  rewrite Hr. cbn [trimStart]. rewrite E. rewrite <- Hr.
  apply trimEnd_idem.
Qed.

Lemma trim_noWS (s : jsstring) :
  Forall (fun c => isWhiteSpace c = false) s -> trim s = s.
Proof.
  intros H. unfold trim.
  assert (forall l, Forall (fun c => isWhiteSpace c = false) l ->
                    trimStart l = l) as T.
  { intros l Hl. destruct Hl as [|c l Hc _]; [reflexivity|].
    cbn [trimStart]. rewrite Hc. reflexivity. }
  rewrite (T s H). unfold trimEnd.
  rewrite T by (apply Forall_rev, H). apply rev_involutive.
Qed.

Lemma includes_app (p e : jsstring) : includes (p ++ e) p = true.
Proof.
  assert (startsWith (p ++ e) p = true) as S.
  { induction p as [|x p IH]; [destruct e; reflexivity|].
    cbn [app startsWith]. rewrite Z.eqb_refl. exact IH. }
  destruct (p ++ e); cbn [includes]; rewrite S; reflexivity.
Qed.

Lemma chunk_noWS (s : jsstring) :
  Forall isAscii s ->
  Forall (fun c => isWhiteSpace c = false) (flat_map (chunk uriUnreserved) s).
Proof.
  induction 1 as [|c s Hc Hs IH]; [constructor|].
  cbn [flat_map]. apply Forall_app. split; [|exact IH].
  unfold chunk. destruct (uriUnreserved c) eqn:K.
  - constructor; [|constructor].
    unfold uriUnreserved, isAlnum, isUpper, isLower, isDigit, between, mem
      in K.
    let l := eval vm_compute in (js "-_.!~*'()") in
    change (js "-_.!~*'()") with l in K.
    cbn [existsb] in K. unfold isWhiteSpace, between. lia.
  - unfold pct, hexdigit, isAscii, isWhiteSpace, between in *.
    repeat constructor;
      try (destruct (c / 16 <? 10) eqn:E);
      try (destruct (c mod 16 <? 10) eqn:E');
      Z.div_mod_to_equations; lia.
Qed.

Lemma xor_encode_noWS (x e : jsstring) :
  Forall isAscii x -> codecs.encode codecs.xor x = Ok e ->
  Forall (fun c => isWhiteSpace c = false) e.
Proof.
  intros A E.
  assert (codecs.encode codecs.xor x = encodeURIComponent (codecs.xor_loop 0 x))
    as E' by (destruct x; reflexivity).
  rewrite E', encodeURIComponent_ascii in E by (apply xor_loop_ascii, A).
  inversion E. apply chunk_noWS, xor_loop_ascii, A.
Qed.

Section HandlerIdempotence.

Context {H : Host}.
Variable config : Config.
Variables source base : jsstring.

(** What the encoder makes of a resolved URL has no white space at either
    end once it is prefixed. *)
Hypothesis token_trimmed :
  forall x b r e,
    new_URL x b = Ok r -> config_encodeUrl config (url_href r) = Ok e ->
    trim (config_prefix config ++ e) = config_prefix config ++ e.

Lemma handler_rewriteUrl_unfold (u : jsstring) :
  handler.rewriteUrl config source u base =
  match u with
  | [] => Ok u
  | _ => handler_try config source base (trim u)
  end.
Proof. destruct u; reflexivity. Qed.

Lemma handler_try_cases (t r : jsstring) :
  handler_try config source base t = Ok r ->
  r = t \/
  exists x b p e,
    new_URL x b = Ok p /\ config_encodeUrl config (url_href p) = Ok e /\
    r = config_prefix config ++ e.
Proof.
  unfold handler_try.
  destruct (handler.special t); [intros E; inversion E; auto|].
  destruct (includes t (config_prefix config)); [intros E; inversion E; auto|].
  destruct (new_URL t (Some (or_else base source))) as [p|x] eqn:N;
    [|intros E; inversion E; auto].
  cbn [bind]. change (bundle.encodeUrl (handler.uv config))
    with (config_encodeUrl config).
  destruct (config_encodeUrl config (url_href p)) as [e|x] eqn:En;
    [|intros E; inversion E; auto].
  cbn [bind try_catch]. intros E. inversion E. right.
  exists t, (Some (or_else base source)), p, e. auto.
Qed.

Lemma handler_try_returns (t : jsstring) :
  exists r, handler_try config source base t = Ok r.
Proof.
  unfold handler_try.
  match goal with
  | |- context [try_catch ?b _] => destruct b as [v|x]
  end; eexists; reflexivity.
Qed.

Lemma handler_try_prefixed (r : jsstring) :
  includes r (config_prefix config) = true ->
  handler_try config source base r = Ok r.
Proof.
  intros I. unfold handler_try. rewrite I.
  destruct (handler.special r); reflexivity.
Qed.

Lemma handler_rewriteUrl_fixed (t r : jsstring) :
  trim t = t ->
  handler_try config source base t = Ok r ->
  handler.rewriteUrl config source r base = Ok r.
Proof.
  intros T E. rewrite handler_rewriteUrl_unfold.
  destruct (handler_try_cases t r E) as [-> | [x [b [p [e [N [En ->]]]]]]].
  - destruct t; [reflexivity|]. rewrite T. exact E.
  - destruct (config_prefix config ++ e) eqn:P; [reflexivity|].
    rewrite <- P, (token_trimmed _ _ _ _ N En).
    apply handler_try_prefixed, includes_app.
Qed.

Lemma handler_rewriteUrl_idempotent (u : jsstring) :
  exists r, handler.rewriteUrl config source u base = Ok r /\
            handler.rewriteUrl config source r base = Ok r.
Proof.
  destruct u as [|c u]; [exists []; split; reflexivity|].
  destruct (handler_try_returns (trim (c :: u))) as [r E].
  exists r. split.
  - rewrite handler_rewriteUrl_unfold. exact E.
  - apply (handler_rewriteUrl_fixed (trim (c :: u)) r);
      [apply trim_idem | exact E].
Qed.

End HandlerIdempotence.

(** With the configured xor codec and prefix, on a host whose URLs
    serialize to ASCII (as the URL standard has it), the handler's
    [rewriteUrl] is idempotent. *)
Lemma handler_rewriteUrl_idempotent_uv `{Host} (source base u : jsstring) :
  (forall x b r, new_URL x b = Ok r -> Forall isAscii (url_href r)) ->
  exists r, handler.rewriteUrl uv_config source u base = Ok r /\
            handler.rewriteUrl uv_config source r base = Ok r.
Proof.
  intros A. apply handler_rewriteUrl_idempotent.
  intros x b r e N En. apply trim_noWS.
  apply Forall_app. split.
  - cbn. repeat constructor.
  - apply (xor_encode_noWS (url_href r)); [apply (A x b r N) | exact En].
Qed.

(* ================================================================== *)
(** * Further properties *)

(** ** script.js: [ProxyUtils] *)

(** X1.  [ProxyUtils.decode] inverts [ProxyUtils.encode] on every string of
    code units below 256, and the token has no [+], [/] or [=];
    [ProxyUtils.encode] throws InvalidCharacterError on a string with a
    code unit above 255. *)
Theorem ProxyUtils_roundtrip :
  (forall s, Forall isByte s ->
     exists t, ProxyUtils.encode s = Ok t /\ ProxyUtils.decode t = Ok s /\
               forallb urlSafeUnit t = true) /\
  (forall s c, In c s -> 255 < c ->
     ProxyUtils.encode s = Throw InvalidCharacterError).
Proof.
  split.
  - intros s Hs. exists (toUrlSafe (b64_encode s)). repeat split.
    + unfold ProxyUtils.encode. rewrite btoa_bytes by exact Hs. reflexivity.
    + unfold ProxyUtils.decode.
      change (replaceAll 95 47 (replaceAll 45 43 ?t)) with (fromUrlSafe t).
      apply atob_urlsafe, Hs.
    + apply toUrlSafe_units.
  - intros s c Hin Hc. unfold ProxyUtils.encode, btoa.
    replace (existsb (fun c => 255 <? c) s) with true; [reflexivity|].
    symmetry. apply existsb_exists. exists c. split; [exact Hin | lia].
Qed.

Lemma ProxyUtils_roundtrip_witness :
  (exists t, ProxyUtils.encode [104; 233; 255; 0] = Ok t /\
             ProxyUtils.decode t = Ok [104; 233; 255; 0] /\
             forallb urlSafeUnit t = true) /\
  ProxyUtils.encode [104; 8364] = Throw InvalidCharacterError.
Proof.
  destruct ProxyUtils_roundtrip as [R T]. split.
  - apply (R [104; 233; 255; 0]). unfold isByte. repeat constructor; lia.
  - apply (T [104; 8364] 8364); [right; left; reflexivity | lia].
Defined.

(** X2.  On an ASCII string [ProxyUtils.encode] and the service worker's
    [encodeUrl] give the same token, which [decodeUrl] and
    [ProxyUtils.decode] both decode; so [buildProxyUrl] of an ASCII http(s)
    URL is the path [createProxyUrl] makes of it. *)
Theorem ProxyUtils_agrees_with_sw :
  forall `{Host} s base,
    Forall isAscii s ->
    exists t,
      ProxyUtils.encode s = Ok t /\ sw.encodeUrl s = Ok (Some t) /\
      ProxyUtils.decode t = Ok s /\ sw.decodeUrl t = Ok (Some s) /\
      (startsWith s (js "http://") = true \/
       startsWith s (js "https://") = true ->
       ProxyUtils.buildProxyUrl s (js "/service/") = sw.createProxyUrl s base).
Proof.
  intros H s base A. pose proof (isAscii_isByte s A) as B.
  exists (toUrlSafe (b64_encode s)). repeat split.
  - unfold ProxyUtils.encode. rewrite btoa_bytes by exact B. reflexivity.
  - apply encodeUrl_ascii, A.
  - unfold ProxyUtils.decode.
    change (replaceAll 95 47 (replaceAll 45 43 ?t)) with (fromUrlSafe t).
    apply atob_urlsafe, B.
  - apply decodeUrl_ascii, A.
  - intros Hs. rewrite (createProxyUrl_http s base Hs A).
    unfold ProxyUtils.buildProxyUrl, ProxyUtils.encode.
    rewrite btoa_bytes by exact B. reflexivity.
Qed.

Lemma ProxyUtils_agrees_with_sw_witness :
  exists t,
    ProxyUtils.encode (js "https://example.com/a?b=1") = Ok t /\
    sw.encodeUrl (js "https://example.com/a?b=1") = Ok (Some t).
Proof.
  destruct (@ProxyUtils_agrees_with_sw RefHost.host
              (js "https://example.com/a?b=1") [])
    as [t [E [E' _]]].
  - apply urlLegal_ascii. reflexivity.
  - exists t. split; assumption.
Defined.

(** ** uv.bundle.js: the tokens of [codecs] *)

Lemma chunk_uriUnits (s : jsstring) :
  Forall isAscii s ->
  Forall (fun c => uriUnit c = true) (flat_map (chunk uriUnreserved) s).
Proof.
  induction 1 as [|c s Hc Hs IH]; [constructor|].
  cbn [flat_map]. apply Forall_app. split; [|exact IH].
  unfold chunk. destruct (uriUnreserved c) eqn:K.
  - constructor; [|constructor]. unfold uriUnit. rewrite K. reflexivity.
  - unfold pct, hexdigit, isAscii, uriUnit in *.
    assert (forall x, isDigit x || between 65 70 x = true ->
                      uriUnreserved x || (x =? 37) || isDigit x
                      || between 65 70 x = true) as W.
    { intros x Hx. rewrite <- orb_assoc, Hx. apply orb_true_r. }
    repeat constructor; try apply W;
      unfold isDigit, between;
      try (destruct (c / 16 <? 10) eqn:E);
      try (destruct (c mod 16 <? 10) eqn:E');
      Z.div_mod_to_equations; lia.
Qed.

Lemma uriUnit_facts (c : Z) :
  uriUnit c = true ->
  pathSafeUnit c = true /\ 0 <= c < 128 /\ c <> 63 /\ c <> 127.
Proof.
  intros U.
  unfold uriUnit, uriUnreserved, isAlnum, isUpper, isLower, isDigit, between,
    mem in U.
  let l := eval vm_compute in (js "-_.!~*'()") in
  change (js "-_.!~*'()") with l in U.
  cbn [existsb] in U.
  unfold pathSafeUnit, mem.
  let l := eval vm_compute in (js "/?#") in change (js "/?#") with l.
  cbn [existsb]. lia.
Qed.

Lemma b64char_pathSafe (n : Z) :
  0 <= n < 63 -> pathSafeUnit (b64char n) = true.
Proof.
  revert n. apply (below_forallb 63). vm_compute. reflexivity.
Qed.

Lemma b64_encode_pathSafe (bs : list Z) :
  Forall (fun c => 0 <= c < 128 /\ c <> 63 /\ c <> 127) bs ->
  forallb pathSafeUnit (b64_encode bs) = true.
Proof.
  induction bs as [| a | a b | a b c r IH] using list_ind3; intros H.
  - reflexivity.
  - inversion_clear H as [|? ? Ha _].
    cbn [b64_encode forallb].
    rewrite !b64char_pathSafe by (Z.div_mod_to_equations; lia). reflexivity.
  - inversion_clear H as [|? ? Ha H']. inversion_clear H' as [|? ? Hb _].
    cbn [b64_encode forallb].
    rewrite !b64char_pathSafe by (Z.div_mod_to_equations; lia). reflexivity.
  - inversion_clear H as [|? ? Ha H']. inversion_clear H' as [|? ? Hb H''].
    inversion_clear H'' as [|? ? Hc Hr].
    cbn [b64_encode forallb].
    rewrite !b64char_pathSafe by (Z.div_mod_to_equations; lia).
    rewrite (IH Hr). reflexivity.
Qed.

(** X3.  For every codec but [none], the token of a string of URL-legal
    characters contains no [/], [?] or [#]: it is one path segment. *)
Theorem token_is_path_segment (k : codecs.id) (s t : jsstring) :
  k <> codecs.none ->
  forallb urlLegal s = true ->
  codecs.encode k s = Ok t ->
  forallb pathSafeUnit t = true.
Proof.
  intros Hk Hs E. apply urlLegal_ascii in Hs.
  assert (forall x, Forall isAscii x ->
            forallb pathSafeUnit (flat_map (chunk uriUnreserved) x) = true)
    as P.
  { intros x Hx. apply forallb_forall. intros c Hc.
    pose proof (chunk_uriUnits x Hx) as U. rewrite Forall_forall in U.
    apply uriUnit_facts, U, Hc. }
  destruct k; [contradiction | | |].
  - assert (codecs.encode codecs.plain s = encodeURIComponent s) as E'
      by (destruct s; reflexivity).
    rewrite E', encodeURIComponent_ascii in E by exact Hs.
    inversion E. apply P, Hs.
  - assert (codecs.encode codecs.xor s
            = encodeURIComponent (codecs.xor_loop 0 s)) as E'
      by (destruct s; reflexivity).
    rewrite E', encodeURIComponent_ascii in E by (apply xor_loop_ascii, Hs).
    inversion E. apply P, xor_loop_ascii, Hs.
  - assert (codecs.encode codecs.base64 s
            = e <- encodeURIComponent s ;; btoa e) as E'
      by (destruct s; reflexivity).
    rewrite E', encodeURIComponent_ascii in E by exact Hs.
    cbn [bind] in E.
    rewrite btoa_bytes in E
      by (apply isAscii_isByte, chunks_ascii, Hs).
    inversion E. apply b64_encode_pathSafe.
    pose proof (chunk_uriUnits s Hs) as U.
    eapply Forall_impl; [|exact U].
    intros c Hc. apply uriUnit_facts in Hc. tauto.
Qed.

Lemma token_is_path_segment_witness :
  forallb pathSafeUnit
          (js "aHR0cHMlM0ElMkYlMkZleGFtcGxlLmNvbSUyRmElM0ZiJTNEMQ==") = true.
Proof.
  apply (token_is_path_segment codecs.base64
           (js "https://example.com/a?b=1")).
  - discriminate.
  - reflexivity.
  - reflexivity.
Defined.

(** ** uv.bundle.js: cookies *)

(** X4.  A cookie that [validateCookie] accepts is not an httpOnly cookie
    in a script context, its context URL parses, the hostname ends with the
    cookie's domain (without a leading dot), a secure cookie is not at an
    [http:] URL, and the pathname starts with the cookie's path. *)
Theorem validateCookie_accepts_only `{Host} (this : bundle.Ultraviolet)
        (cookie : bundle.Cookie) (m : bundle.Meta) (js_ : bool) :
  bundle.validateCookie this cookie m js_ = true ->
  (bundle.httpOnly cookie = true -> js_ = false) /\
  exists parsed,
    new_URL (or_else (bundle.url m) (bundle.url (bundle.meta this))) None
    = Ok parsed /\
    endsWith (url_hostname parsed) (stripDot (bundle.domain cookie)) = true /\
    (bundle.secure cookie = true -> url_protocol parsed <> js "http:") /\
    startsWith (url_pathname parsed) (bundle.path cookie) = true.
Proof.
  rewrite validateCookie_eq. intros V.
  apply andb_true_iff in V. destruct V as [V1 V].
  split.
  { intros Ho. rewrite Ho in V1. destruct js_; [discriminate | reflexivity]. }
  destruct (new_URL _ None) as [parsed|]; [|discriminate].
  exists parsed. split; [reflexivity|].
  apply andb_true_iff in V. destruct V as [V V4].
  apply andb_true_iff in V. destruct V as [V2 V3].
  split; [|split].
  - unfold stripDot. destruct (bundle.domain cookie) as [|d0 d] eqn:D.
    + change (if startsWith [] (js ".") then slice 1 [] else [])
        with (@nil Z).
      unfold endsWith. cbn [rev].
      destruct (rev (url_hostname parsed)); reflexivity.
    + cbn [bundle.nonempty negb orb] in V2. unfold domainPasses in V2.
      destruct (startsWith (d0 :: d) (js ".")).
      * apply orb_true_iff in V2. destruct V2 as [V2|V2]; [exact V2|].
        apply jsstring_eqb_eq in V2. rewrite V2. apply endsWith_refl.
      * apply orb_true_iff in V2. destruct V2 as [V2|V2].
        -- apply jsstring_eqb_eq in V2. rewrite V2. apply endsWith_refl.
        -- apply endsWith_app_r in V2. exact V2.
  - intros Hs Hp. rewrite Hs, Hp in V3. discriminate.
  - destruct (bundle.path cookie) as [|p0 p].
    + destruct (url_pathname parsed); reflexivity.
    + cbn [bundle.nonempty negb orb] in V4. exact V4.
Qed.

Lemma validateCookie_accepts_only_witness :
  exists parsed,
    new_URL (Host := RefHost.host) (js "https://sub.example.com/x") None
    = Ok parsed /\
    endsWith (url_hostname parsed) (js "example.com") = true.
Proof.
  destruct (@validateCookie_accepts_only RefHost.host
              (bundle.new (H := RefHost.host) bundle.no_options)
              (scenario_cookie (js ".example.com"))
              (at_url (js "https://sub.example.com/x")) true)
    as [_ [p [E [D _]]]].
  - vm_compute. reflexivity.
  - exists p. split; [exact E | exact D].
Defined.

Lemma filter_filter_implied {A} (f g : A -> bool) (l : list A) :
  (forall x, f x = true -> g x = true) ->
  filter f (filter g l) = filter f l.
Proof.
  intros Hfg. induction l as [|x l IH]; [reflexivity|].
  cbn [filter]. destruct (g x) eqn:G.
  - cbn [filter]. rewrite IH. reflexivity.
  - destruct (f x) eqn:F; [rewrite (Hfg x F) in G; discriminate | exact IH].
Qed.

(** X5.  In a script context [serializeCookies] never shows an httpOnly
    cookie: removing the httpOnly cookies from the list does not change
    the result.  When the context URL does not parse, the result is the
    empty string whatever the cookies. *)
Theorem serializeCookies_hides `{Host} (this : bundle.Ultraviolet)
        (cookies : list bundle.Cookie) (m : bundle.Meta) :
  bundle.serializeCookies this cookies m true
  = bundle.serializeCookies
      this (filter (fun c => negb (bundle.httpOnly c)) cookies) m true /\
  (forall js_,
      throws (new_URL (or_else (bundle.url m) (bundle.url (bundle.meta this)))
                      None) = true ->
      bundle.serializeCookies this cookies m js_ = []).
Proof.
  split.
  - unfold bundle.serializeCookies.
    rewrite filter_filter_implied; [reflexivity|].
    intros c V. rewrite validateCookie_eq in V.
    apply andb_true_iff in V. destruct V as [V _].
    rewrite andb_true_r in V. exact V.
  - intros js_ T. unfold bundle.serializeCookies.
    replace (filter (fun c => bundle.validateCookie this c m js_) cookies)
      with (@nil bundle.Cookie); [reflexivity|].
    symmetry. induction cookies as [|c l IH]; [reflexivity|].
    cbn [filter]. rewrite validateCookie_eq.
    destruct (new_URL _ None); [discriminate|].
    rewrite andb_false_r. exact IH.
Qed.

Lemma serializeCookies_hides_witness :
  bundle.serializeCookies (H := RefHost.host)
    (bundle.new (H := RefHost.host) bundle.no_options)
    [scenario_cookie (js ".example.com")] (at_url (js "not a url")) true = [].
Proof.
  destruct (@serializeCookies_hides RefHost.host
              (bundle.new (H := RefHost.host) bundle.no_options)
              [scenario_cookie (js ".example.com")]
              (at_url (js "not a url"))) as [_ G].
  apply G. vm_compute. reflexivity.
Defined.

(** ** uv.bundle.js: attribute classes *)

Lemma one_of_In (n : jsstring) (l : list jsstring) :
  attrs.one_of n l = true <-> In n l.
Proof.
  unfold attrs.one_of. rewrite existsb_exists. split.
  - intros [x [Hx E]]. apply jsstring_eqb_eq in E. subst x. exact Hx.
  - intros Hn. exists n. split; [exact Hn | apply jsstring_eqb_eq; reflexivity].
Qed.

Lemma isUrlAttr_one_of (lower : jsstring -> jsstring) (name tag : jsstring) :
  attrs.isUrlAttr lower name tag
  = attrs.one_of (lower name) attrs.urlAttributes.
Proof.
  unfold attrs.isUrlAttr.
  destruct (jsstring_eqb tag (js "object")); [|reflexivity].
  cbn [andb]. destruct (jsstring_eqb (lower name) (js "data")) eqn:E;
    [|reflexivity].
  apply jsstring_eqb_eq in E. rewrite E. reflexivity.
Qed.

(** X6.  [isUrlAttr] does not depend on the tag ([data] is a URL attribute
    on every element, not only on [object]), and an attribute name is in at
    most one of the classes URL, forbidden, srcdoc, srcset and style: a
    forbidden attribute is never a URL attribute. *)
Theorem attribute_classes (lower : jsstring -> jsstring)
        (name tag tag' : jsstring) :
  attrs.isUrlAttr lower name tag = attrs.isUrlAttr lower name tag' /\
  (List.length
     (filter (fun b : bool => b)
             [attrs.isUrlAttr lower name tag; attrs.isForbidden lower name;
              attrs.isHtml lower name; attrs.isSrcset lower name;
              attrs.isStyle lower name]) <= 1)%nat.
Proof.
  split; [rewrite !isUrlAttr_one_of; reflexivity|].
  rewrite isUrlAttr_one_of.
  unfold attrs.isForbidden, attrs.isHtml, attrs.isSrcset, attrs.isStyle.
  remember (lower name) as n eqn:Hn. clear Hn.
  set (all := attrs.urlAttributes
              ++ [js "http-equiv"; js "integrity"; js "sandbox"; js "nonce";
                  js "crossorigin"; js "srcdoc"; js "srcset";
                  js "imagesrcset"; js "style"]).
  destruct (in_dec (list_eq_dec Z.eq_dec) n all) as [Hin | Hout].
  - unfold all, attrs.urlAttributes in Hin. cbn [app In] in Hin.
    repeat (destruct Hin as [<- | Hin]; [vm_compute; lia|]).
    destruct Hin.
  - assert (forall l, incl l all -> attrs.one_of n l = false) as O.
    { intros l Hl. destruct (attrs.one_of n l) eqn:E; [|reflexivity].
      apply one_of_In in E. destruct Hout. apply Hl, E. }
    assert (forall x, In x all -> jsstring_eqb n x = false) as Q.
    { intros x Hx. destruct (jsstring_eqb n x) eqn:E; [|reflexivity].
      apply jsstring_eqb_eq in E. subst x. contradiction. }
    rewrite (O attrs.urlAttributes)
      by (intros x Hx; apply in_or_app; left; exact Hx).
    rewrite (O [js "http-equiv"; js "integrity"; js "sandbox"; js "nonce";
                js "crossorigin"])
      by (intros x Hx; apply in_or_app; right; cbn [In] in *; tauto).
    rewrite (O [js "srcset"; js "imagesrcset"])
      by (intros x Hx; apply in_or_app; right; cbn [In] in *; tauto).
    rewrite (Q (js "srcdoc"))
      by (apply in_or_app; right; cbn [In]; tauto).
    rewrite (Q (js "style"))
      by (apply in_or_app; right; cbn [In]; tauto).
    cbn. lia.
Qed.

(** ** uv.bundle.js, client script: the overrides *)

Lemma jsstring_eqb_refl (a : jsstring) : jsstring_eqb a a = true.
Proof. apply jsstring_eqb_eq. reflexivity. Qed.

Lemma jsstring_eqb_neq (a b : jsstring) : a <> b -> jsstring_eqb a b = false.
Proof.
  intros N. destruct (jsstring_eqb a b) eqn:E; [|reflexivity].
  apply jsstring_eqb_eq in E. contradiction.
Qed.

Lemma hooks_own_push (name other : jsstring) (fn : hooks.listener)
      (ev : hooks.events) :
  hooks.own name (hooks.push name fn ev)
  = Some (match hooks.own name ev with
          | Some fns => fns ++ [fn]
          | None => [fn]
          end) /\
  (other <> name ->
   hooks.own other (hooks.push name fn ev) = hooks.own other ev).
Proof.
  induction ev as [|[k fns] ev [IH1 IH2]].
  - cbn [hooks.push hooks.own]. rewrite jsstring_eqb_refl.
    split; [reflexivity|].
    intros N. rewrite jsstring_eqb_neq by congruence. reflexivity.
  - cbn [hooks.push hooks.own].
    destruct (jsstring_eqb k name) eqn:E.
    + cbn [hooks.own]. rewrite E. split; [reflexivity|].
      apply jsstring_eqb_eq in E. subst k. intros N.
      rewrite jsstring_eqb_neq by congruence. reflexivity.
    + cbn [hooks.own]. rewrite E. split; [exact IH1|].
      intros N. destruct (jsstring_eqb k other); [reflexivity | apply IH2, N].
Qed.

Lemma registry_own (name : jsstring) (ev : hooks.events) :
  registry ev = true -> hooks.inherited name = true ->
  hooks.own name ev = None.
Proof.
  intros R I. induction ev as [|[k fns] ev IH]; [reflexivity|].
  cbn [registry forallb fst] in R. apply andb_true_iff in R.
  destruct R as [K R]. cbn [hooks.own].
  destruct (jsstring_eqb k name) eqn:E; [|apply IH, R].
  apply jsstring_eqb_eq in E. subst k. rewrite I in K. discriminate.
Qed.

Lemma registry_push (name : jsstring) (fn : hooks.listener)
      (ev : hooks.events) :
  registry ev = true -> hooks.inherited name = false ->
  registry (hooks.push name fn ev) = true.
Proof.
  intros R I. induction ev as [|[k fns] ev IH].
  - cbn [hooks.push registry forallb fst]. rewrite I. reflexivity.
  - cbn [registry forallb fst] in R. apply andb_true_iff in R.
    destruct R as [K R]. cbn [hooks.push].
    destruct (jsstring_eqb k name); cbn [registry forallb fst]; rewrite K;
      [exact R | apply IH, R].
Qed.

Lemma hooks_on_fresh (name : jsstring) (fn : hooks.listener)
      (ev : hooks.events) :
  hooks.inherited name = false ->
  hooks.on name fn ev = Ok (hooks.push name fn ev).
Proof.
  intros I. unfold hooks.on, hooks.lookup. rewrite I.
  destruct (hooks.own name ev); reflexivity.
Qed.

Lemma hooks_forEach_app (fns gns : list hooks.listener) (e : hooks.HookEvent) :
  hooks.forEach (fns ++ gns) e = e' <- hooks.forEach fns e ;; hooks.forEach gns e'.
Proof.
  revert e. induction fns as [|f fns IH]; intros e; [reflexivity|].
  cbn [app hooks.forEach]. destruct (f e) as [e1|x]; [|reflexivity].
  cbn [bind]. apply IH.
Qed.

(** X7.  In a registry made by [on] from the empty one, and for an event
    name that is not a property of [Object.prototype], listeners run in
    the order of their registration: [on(name, g)] succeeds, and then
    [emit(name)] runs the listeners registered before, then [g] on the
    event as they left it, and does not run [g] when one of them throws;
    for every other event [emit] does what it did before.  For a name
    that is a property of [Object.prototype], such as [toString], [on]
    throws TypeError and [emit] throws TypeError. *)
Theorem listeners_run_in_order (name other : jsstring) (g : hooks.listener)
        (ev : hooks.events) (e : hooks.HookEvent) :
  registry ev = true ->
  if hooks.inherited name then
    hooks.on name g ev = Throw TypeError
    /\ hooks.emit ev name e = Throw TypeError
  else
    exists ev',
      hooks.on name g ev = Ok ev'
      /\ registry ev' = true
      /\ hooks.emit ev' name e
         = (r <- hooks.emit ev name e ;; e' <- g (snd r) ;; Ok (true, e'))
      /\ (other <> name -> hooks.emit ev' other e = hooks.emit ev other e).
Proof.
  intros R. destruct (hooks.inherited name) eqn:I.
  - unfold hooks.on, hooks.emit, hooks.lookup.
    rewrite (registry_own name ev R I), I. split; reflexivity.
  - exists (hooks.push name g ev).
    split; [apply hooks_on_fresh, I|].
    split; [apply registry_push; assumption|].
    split.
    + unfold hooks.emit, hooks.lookup.
      rewrite (proj1 (hooks_own_push name name g ev)), I.
      destruct (hooks.own name ev) as [fns|].
      * rewrite hooks_forEach_app.
        destruct (hooks.forEach fns e) as [e1|x]; [|reflexivity].
        cbn [bind snd hooks.forEach]. destruct (g e1); reflexivity.
      * cbn [bind snd hooks.forEach]. destruct (g e); reflexivity.
    + intros N. unfold hooks.emit, hooks.lookup.
      rewrite (proj2 (hooks_own_push name other g ev)) by exact N.
      reflexivity.
Qed.

Lemma listeners_run_in_order_witness :
  (exists ev',
     hooks.on (js "open") Ok [(js "request", [Ok])] = Ok ev'
     /\ registry ev' = true
     /\ hooks.emit ev' (js "open") (hooks.new_HookEvent [])
        = (r <- hooks.emit [(js "request", [Ok])] (js "open")
                           (hooks.new_HookEvent []) ;;
           e' <- Ok (snd r) ;; Ok (true, e'))
     /\ (js "request" <> js "open" ->
         hooks.emit ev' (js "request") (hooks.new_HookEvent [])
         = hooks.emit [(js "request", [Ok])] (js "request")
                      (hooks.new_HookEvent [])))
  /\ (hooks.on (js "toString") Ok [] = Throw TypeError
      /\ hooks.emit [] (js "toString") (hooks.new_HookEvent [])
         = Throw TypeError).
Proof.
  split.
  - exact (listeners_run_in_order (js "open") (js "request") Ok
             [(js "request", [Ok])] (hooks.new_HookEvent []) eq_refl).
  - exact (listeners_run_in_order (js "toString") (js "request") Ok
             [] (hooks.new_HookEvent []) eq_refl).
Defined.

Lemma destructure_length (ks : list jsstring) (args : list hooks.value) :
  List.length (hooks.destructure ks args) = List.length ks.
Proof.
  revert args. induction ks as [|k ks IH]; intros args; [reflexivity|].
  cbn [hooks.destructure List.length]. rewrite IH. reflexivity.
Qed.



(** ** uv.handler.js with the client script *)

Lemma handler_rewriteUrl_returns `{Host} (config : Config)
      (source u base : jsstring) :
  exists r, handler.rewriteUrl config source u base = Ok r.
Proof.
  rewrite handler_rewriteUrl_unfold.
  destruct u as [|c u]; [eexists; reflexivity|].
  apply handler_try_returns.
Qed.

(** X9.  With the handler's listener on [open], which [on] registers, the
    overridden [XMLHttpRequest.open(method, url, ...rest)] calls the
    original once,
    with the method and the remaining arguments unchanged and the URL
    replaced by what [rewriteUrl] makes of it. *)
Theorem xhr_open_rewrites_url `{Host} (config : Config) (source u : jsstring)
        (target : client.primitive) (method : hooks.value)
        (rest : list hooks.value) :
  exists r hook,
    handler.rewriteUrl config source u source = Ok r /\
    hooks.on (js "open")
             (handler_page.rewrite_key config source (js "input")) []
    = Ok hook /\
    hooks.wrapper hooks.xhr_open_shape hook
      target (method :: client.Str u :: rest)
    = (target (method :: client.Str r :: rest),
       [method :: client.Str r :: rest]).
Proof.
  destruct (handler_rewriteUrl_returns config source u source) as [r E].
  exists r. eexists. split; [exact E|]. split; [reflexivity|].
  unfold hooks.wrapper, hooks.xhr_open_shape, hooks.emit, hooks.lookup.
  cbn [hooks.min_args hooks.keys hooks.event_name hooks.forwards_rest
       List.length hooks.destructure hd tl hooks.push hooks.own].
  rewrite jsstring_eqb_refl.
  change (S (S (List.length rest)) <? 2)%nat with false.
  cbn [hooks.forEach]. unfold handler_page.rewrite_key.
  cbn [hooks.new_HookEvent hooks.event_data hooks.get].
  change (jsstring_eqb (js "method") (js "input")) with false.
  rewrite jsstring_eqb_refl. rewrite E.
  cbn [bind hooks.intercepted hooks.event_data hooks.set].
  change (jsstring_eqb (js "method") (js "input")) with false.
  rewrite jsstring_eqb_refl.
  cbn [map hooks.get].
  change (jsstring_eqb (js "method") (js "input")) with false.
  rewrite !jsstring_eqb_refl.
  cbn [skipn app]. reflexivity.
Qed.

(** ** uv.handler.js: the source of the page *)

Lemma skipn_length_app {A} (p e : list A) : skipn (List.length p) (p ++ e) = e.
Proof. induction p as [|x p IH]; [reflexivity | exact IH]. Qed.

Lemma xor_token_nonempty (u t : jsstring) :
  Forall isAscii u -> u <> [] -> codecs.encode codecs.xor u = Ok t -> t <> [].
Proof.
  intros A N E T. subst t.
  destruct u as [|c u]; [contradiction|].
  cbn [codecs.encode] in E.
  rewrite encodeURIComponent_ascii in E by (apply xor_loop_ascii, A).
  assert (flat_map (chunk uriUnreserved) (codecs.xor_loop 0 (c :: u)) = [])
    as E' by congruence.
  apply chunks_nil in E'. discriminate.
Qed.

Lemma xor_decode_encode (u t : jsstring) :
  Forall isAscii u -> codecs.encode codecs.xor u = Ok t ->
  codecs.decode codecs.xor t = Ok u.
Proof.
  intros A E. destruct (bundle_roundtrip_ascii codecs.xor u A) as [t' [E' D]].
  congruence.
Qed.

(** X10.  On a page whose path is the configured prefix followed by the
    xor token of a non-empty ASCII URL, [getCurrentSource] is that URL.  On
    a page whose path is no longer than the prefix, or whose token does not
    decode, it is [location.href]. *)
Theorem getCurrentSource_of_page `{Host} :
  (forall u t, Forall isAscii u -> u <> [] ->
     codecs.encode codecs.xor u = Ok t ->
     url_pathname location = config_prefix uv_config ++ t ->
     handler_page.getCurrentSource uv_config = Ok u) /\
  ((List.length (url_pathname location)
    <= List.length (config_prefix uv_config))%nat ->
   handler_page.getCurrentSource uv_config = Ok (url_href location)) /\
  (throws (codecs.decode codecs.xor
             (slice (List.length (config_prefix uv_config))
                    (url_pathname location))) = true ->
   handler_page.getCurrentSource uv_config = Ok (url_href location)).
Proof.
  unfold handler_page.getCurrentSource.
  change (bundle.decodeUrl (handler.uv uv_config))
    with (codecs.decode codecs.xor).
  split; [|split].
  - intros u t A N E P. rewrite P. unfold slice. rewrite skipn_length_app.
    pose proof (xor_token_nonempty u t A N E) as T.
    pose proof (xor_decode_encode u t A E) as D.
    destruct t; [contradiction|]. rewrite D. reflexivity.
  - intros L. unfold slice. rewrite skipn_all2 by exact L. reflexivity.
  - intros T.
    destruct (slice _ (url_pathname location)) as [|c s]; [reflexivity|].
    destruct (codecs.decode codecs.xor (c :: s)); [discriminate | reflexivity].
Qed.

Lemma getCurrentSource_of_page_witness :
  handler_page.getCurrentSource
    (H := RefHost_at (js "https://proxy.example/service/hvtrs8%2F-ezaopne%2Ccmm-"))
    uv_config
  = Ok (js "https://example.com/").
Proof.
  destruct (@getCurrentSource_of_page
              (RefHost_at
                 (js "https://proxy.example/service/hvtrs8%2F-ezaopne%2Ccmm-")))
    as [G _].
  apply (G (js "https://example.com/") (js "hvtrs8%2F-ezaopne%2Ccmm-")).
  - apply urlLegal_ascii. reflexivity.
  - discriminate.
  - reflexivity.
  - reflexivity.
Defined.

(** X11.  [sourceUrl] undoes the handler's [rewriteUrl]: when [rewriteUrl]
    resolves its input to an ASCII URL, and the host parses the proxied
    path to a URL with that path, [sourceUrl] of the result is the resolved
    URL. *)
Theorem handler_sourceUrl_of_rewriteUrl `{Host}
        (source base u : jsstring) (p q : URL) :
  u <> [] ->
  handler.special (trim u) = false ->
  includes (trim u) (config_prefix uv_config) = false ->
  new_URL (trim u) (Some (or_else base source)) = Ok p ->
  Forall isAscii (url_href p) ->
  (forall r, handler.rewriteUrl uv_config source u base = Ok r ->
             new_URL r (Some (url_href location)) = Ok q /\
             url_pathname q = r) ->
  exists r,
    handler.rewriteUrl uv_config source u base = Ok r /\
    handler_page.sourceUrl uv_config r = Ok (url_href p).
Proof.
  intros N S I P A Q.
  destruct (bundle_roundtrip_ascii codecs.xor (url_href p) A) as [t [E D]].
  assert (handler.rewriteUrl uv_config source u base
          = Ok (config_prefix uv_config ++ t)) as R.
  { rewrite handler_rewriteUrl_unfold. destruct u; [contradiction|].
    unfold handler_try. rewrite S, I, P. cbn [bind].
    change (bundle.encodeUrl (handler.uv uv_config))
      with (codecs.encode codecs.xor).
    rewrite E. reflexivity. }
  exists (config_prefix uv_config ++ t). split; [exact R|].
  destruct (Q _ R) as [Pq Hq].
  unfold handler_page.sourceUrl.
  change (config_prefix uv_config ++ t) with (47 :: js "service/" ++ t).
  change (47 :: js "service/" ++ t) with (config_prefix uv_config ++ t).
  rewrite Pq. cbn [bind]. rewrite Hq.
  assert (startsWith (config_prefix uv_config ++ t) (config_prefix uv_config)
          = true) as ->.
  { generalize (config_prefix uv_config). intros pre.
    induction pre as [|x pre IH]; [destruct t; reflexivity|].
    cbn [app startsWith]. rewrite Z.eqb_refl. exact IH. }
  unfold slice. rewrite skipn_length_app.
  change (bundle.decodeUrl (handler.uv uv_config))
    with (codecs.decode codecs.xor).
  rewrite D. reflexivity.
Qed.

Lemma handler_sourceUrl_of_rewriteUrl_witness :
  exists r,
    handler.rewriteUrl (H := RefHost.host) uv_config
                       (js "https://example.com/a/b") (js "../c?d=1") [] = Ok r /\
    handler_page.sourceUrl (H := RefHost.host) uv_config r
    = Ok (js "https://example.com/c?d=1").
Proof.
  destruct (new_URL (Host := RefHost.host) (js "../c?d=1")
                    (Some (js "https://example.com/a/b"))) as [p|] eqn:P;
    [|vm_compute in P; discriminate].
  destruct (new_URL (Host := RefHost.host)
                    (js "/service/hvtrs8%2F-ezaopne%2Ccmm-c%3Dd%3F1")
                    (Some (url_href (location (Host := RefHost.host)))))
    as [q|] eqn:Q; [|vm_compute in Q; discriminate].
  destruct (@handler_sourceUrl_of_rewriteUrl RefHost.host
              (js "https://example.com/a/b") [] (js "../c?d=1") p q)
    as [r [R S]].
  - discriminate.
  - reflexivity.
  - reflexivity.
  - exact P.
  - vm_compute in P. inversion P. apply urlLegal_ascii. reflexivity.
  - intros r R. vm_compute in R. inversion R. subst r. split.
    + exact Q.
    + vm_compute in Q. inversion Q. reflexivity.
  - exists r. split; [exact R|].
    vm_compute in P. inversion P. subst p. exact S.
Defined.

(** ** uv.handler.js: rewriting twice *)

Lemma handler_try_cases_at `{Host} (config : Config)
      (source base t r : jsstring) :
  handler_try config source base t = Ok r ->
  r = t \/
  exists p e,
    new_URL t (Some (or_else base source)) = Ok p /\
    config_encodeUrl config (url_href p) = Ok e /\
    r = config_prefix config ++ e.
Proof.
  unfold handler_try.
  destruct (handler.special t); [intros E; inversion E; auto|].
  destruct (includes t (config_prefix config)); [intros E; inversion E; auto|].
  destruct (new_URL t (Some (or_else base source))) as [p|x] eqn:N;
    [|intros E; inversion E; auto].
  cbn [bind]. change (bundle.encodeUrl (handler.uv config))
    with (config_encodeUrl config).
  destruct (config_encodeUrl config (url_href p)) as [e|x] eqn:En;
    [|intros E; inversion E; auto].
  cbn [bind try_catch]. intros E. inversion E. right.
  exists p, e. auto.
Qed.

(** X12.  The handler's [rewriteUrl] is idempotent: it returns a string
    that it maps to itself, for every input that the host, if it resolves
    it at all, resolves to an ASCII URL. *)
Theorem handler_rewriteUrl_twice `{Host} (source base u : jsstring) :
  (forall p, new_URL (trim u) (Some (or_else base source)) = Ok p ->
             Forall isAscii (url_href p)) ->
  exists r, handler.rewriteUrl uv_config source u base = Ok r /\
            handler.rewriteUrl uv_config source r base = Ok r.
Proof.
  intros A.
  destruct u as [|c u]; [exists []; split; reflexivity|].
  destruct (handler_try_returns uv_config source base (trim (c :: u)))
    as [r E].
  exists r. split; [rewrite handler_rewriteUrl_unfold; exact E|].
  rewrite handler_rewriteUrl_unfold.
  destruct (handler_try_cases_at uv_config source base _ r E)
    as [-> | [p [e [N [En ->]]]]].
  - pose proof (trim_idem (c :: u)) as TI.
    destruct (trim (c :: u)) eqn:T; [reflexivity|].
    rewrite TI. exact E.
  - assert (trim (config_prefix uv_config ++ e) = config_prefix uv_config ++ e)
      as Tr.
    { apply trim_noWS, Forall_app. split.
      - cbn. repeat constructor.
      - apply (xor_encode_noWS (url_href p)); [apply A, N | exact En]. }
    destruct (config_prefix uv_config ++ e) eqn:P; [reflexivity|].
    rewrite Tr. apply handler_try_prefixed. rewrite <- P.
    apply includes_app.
Qed.

Lemma handler_rewriteUrl_twice_witness :
  exists r,
    handler.rewriteUrl (H := RefHost.host) uv_config
                       (js "https://example.com/a/b") (js " ../c ") [] = Ok r /\
    handler.rewriteUrl (H := RefHost.host) uv_config
                       (js "https://example.com/a/b") r [] = Ok r.
Proof.
  apply (@handler_rewriteUrl_twice RefHost.host).
  intros p P. vm_compute in P. inversion P.
  apply urlLegal_ascii. reflexivity.
Defined.

(** ** uv.handler.js: [rewriteSrcset] *)

Lemma isToken_facts (s : jsstring) :
  isToken s = true ->
  s <> [] /\ Forall (fun c => isWhiteSpace c = false) s
  /\ Forall (fun c => c <> 44) s.
Proof.
  unfold isToken. intros T. apply andb_true_iff in T. destruct T as [N F].
  split; [destruct s; [discriminate | discriminate]|].
  rewrite forallb_forall in F.
  split; apply Forall_forall; intros c Hc; specialize (F c Hc);
    apply andb_true_iff in F; destruct F as [F1 F2].
  - apply negb_true_iff, F1.
  - apply negb_true_iff in F2. apply Z.eqb_neq, F2.
Qed.

Lemma split_plain (s : jsstring) :
  Forall (fun c => c <> 44) s -> split 44 s = [s].
Proof.
  induction 1 as [|c s Hc Hs IH]; [reflexivity|].
  cbn [split]. apply Z.eqb_neq in Hc. rewrite Hc, IH. reflexivity.
Qed.

Lemma split_app_comma (p r : jsstring) :
  Forall (fun c => c <> 44) p -> split 44 (p ++ 44 :: r) = p :: split 44 r.
Proof.
  induction 1 as [|c s Hc Hs IH].
  - cbn [app split]. rewrite Z.eqb_refl. reflexivity.
  - cbn [app split]. apply Z.eqb_neq in Hc. rewrite Hc, IH. reflexivity.
Qed.

Lemma splitSpaces_plain (s : jsstring) :
  Forall (fun c => isWhiteSpace c = false) s ->
  splitSpaces_from false s = [s].
Proof.
  induction 1 as [|c s Hc Hs IH]; [reflexivity|].
  cbn [splitSpaces_from]. rewrite Hc, IH. reflexivity.
Qed.

Lemma splitSpaces_app (u r : jsstring) :
  Forall (fun c => isWhiteSpace c = false) u ->
  splitSpaces_from false (u ++ r)
  = match splitSpaces_from false r with
    | [] => [u]
    | x :: l => (u ++ x) :: l
    end.
Proof.
  induction 1 as [|c s Hc Hs IH].
  - cbn [app]. destruct (splitSpaces_from false r) eqn:E; [|reflexivity].
    destruct r as [|c r]; [discriminate|].
    cbn [splitSpaces_from] in E.
    destruct (isWhiteSpace c); [discriminate|].
    destruct (splitSpaces_from false r); discriminate.
  - cbn [app splitSpaces_from]. rewrite Hc, IH.
    destruct (splitSpaces_from false r); reflexivity.
Qed.

Lemma splitSpaces_pair (u d : jsstring) :
  Forall (fun c => isWhiteSpace c = false) u ->
  Forall (fun c => isWhiteSpace c = false) d -> d <> [] ->
  splitSpaces (u ++ js " " ++ d) = [u; d].
Proof.
  intros Hu Hd Nd. unfold splitSpaces. rewrite splitSpaces_app by exact Hu.
  change (js " " ++ d) with (32 :: d).
  cbn [splitSpaces_from]. change (isWhiteSpace 32) with true. cbv iota.
  destruct d as [|c d]; [contradiction|].
  inversion_clear Hd as [|? ? Hc Hd'].
  cbn [splitSpaces_from]. rewrite Hc.
  rewrite (splitSpaces_plain d Hd'). rewrite app_nil_r. reflexivity.
Qed.

Lemma trimEnd_last (s : jsstring) (c : Z) :
  isWhiteSpace c = false -> trimEnd (s ++ [c]) = s ++ [c].
Proof.
  intros E. unfold trimEnd. rewrite rev_app_distr. cbn [rev app trimStart].
  rewrite E. cbn [rev]. rewrite rev_involutive. reflexivity.
Qed.

Lemma trim_ends (a m b : jsstring) :
  Forall (fun c => isWhiteSpace c = false) a -> a <> [] ->
  Forall (fun c => isWhiteSpace c = false) b -> b <> [] ->
  trim (a ++ m ++ b) = a ++ m ++ b.
Proof.
  intros Ha Na Hb Nb. unfold trim.
  destruct a as [|c a]; [contradiction|].
  inversion_clear Ha as [|? ? Hc _].
  cbn [app trimStart]. rewrite Hc.
  destruct (exists_last Nb) as [b' [x ->]].
  apply Forall_app in Hb. destruct Hb as [_ Hx].
  inversion_clear Hx as [|? ? Hx' _].
  replace (c :: a ++ m ++ b' ++ [x]) with ((c :: a ++ m ++ b') ++ [x])
    by (cbn [app]; rewrite <- !app_assoc; reflexivity).
  apply trimEnd_last, Hx'.
Qed.

Lemma trim_render (c : candidate) :
  isCandidate c = true -> trim (render c) = render c.
Proof.
  unfold isCandidate, render. intros C.
  apply andb_true_iff in C. destruct C as [Tu Td].
  apply isToken_facts in Tu. destruct Tu as [Nu [Wu _]].
  destruct (snd c) as [d|].
  - apply isToken_facts in Td. destruct Td as [Nd [Wd _]].
    apply trim_ends; assumption.
  - apply trim_noWS, Wu.
Qed.

Lemma trim_space (s : jsstring) : trim (32 :: s) = trim s.
Proof. reflexivity. Qed.

Lemma render_no_comma (c : candidate) :
  isCandidate c = true -> Forall (fun x => x <> 44) (render c).
Proof.
  unfold isCandidate, render. intros C.
  apply andb_true_iff in C. destruct C as [Tu Td].
  apply isToken_facts in Tu. destruct Tu as [_ [_ Cu]].
  destruct (snd c) as [d|]; [|exact Cu].
  apply isToken_facts in Td. destruct Td as [_ [_ Cd]].
  apply Forall_app. split; [exact Cu|].
  change (js " " ++ d) with (32 :: d). constructor; [lia | exact Cd].
Qed.

Lemma split_candidates (c : candidate) (cs : list candidate) :
  forallb isCandidate (c :: cs) = true ->
  split 44 (bundle.join (js ", ") (map render (c :: cs)))
  = render c :: map (fun x => 32 :: render x) cs.
Proof.
  revert c. induction cs as [|c' cs IH]; intros c C.
  - cbn [map bundle.join]. apply split_plain, render_no_comma.
    cbn [forallb] in C. rewrite andb_true_r in C. exact C.
  - cbn [forallb] in C. apply andb_true_iff in C. destruct C as [Cc C].
    change (bundle.join (js ", ") (map render (c :: c' :: cs)))
      with (render c ++ 44 :: 32 :: bundle.join (js ", ") (map render (c' :: cs))).
    rewrite split_app_comma by (apply render_no_comma, Cc).
    f_equal.
    assert (forall s, split 44 (32 :: s)
                      = match split 44 s with
                        | [] => [[32]]
                        | x :: l => (32 :: x) :: l
                        end) as S by reflexivity.
    rewrite S, (IH c' C). reflexivity.
Qed.

Section Srcset.

Context {H : Host}.
Variable config : Config.
Variable source : jsstring.

Lemma rewriteSrcset_part (c : candidate) (pad : bool) :
  isCandidate c = true ->
  match splitSpaces (trim ((if pad then [32] else []) ++ render c)) with
  | [] => Ok []
  | p0 :: parts =>
    r <- handler.rewriteUrl config source p0 source ;;
    Ok (bundle.join (js " ") (r :: parts))
  end
  = rewrite_candidate config source c.
Proof.
  intros C.
  assert (trim ((if pad then [32] else []) ++ render c) = render c) as ->.
  { destruct pad; cbn [app]; [rewrite trim_space|]; apply trim_render, C. }
  unfold rewrite_candidate, render, isCandidate in *.
  apply andb_true_iff in C. destruct C as [Tu Td].
  apply isToken_facts in Tu. destruct Tu as [Nu [Wu _]].
  cbn [fst snd]. destruct (snd c) as [d|].
  - apply isToken_facts in Td. destruct Td as [Nd [Wd _]].
    rewrite splitSpaces_pair by assumption.
    destruct (handler.rewriteUrl config source (fst c) source); reflexivity.
  - unfold splitSpaces. rewrite splitSpaces_plain by exact Wu.
    destruct (handler.rewriteUrl config source (fst c) source); reflexivity.
Qed.

Lemma rewriteSrcset_parts (cs : list candidate) :
  forallb isCandidate cs = true ->
  mapM (fun src =>
          match splitSpaces (trim src) with
          | [] => Ok []
          | p0 :: parts =>
            r <- handler.rewriteUrl config source p0 source ;;
            Ok (bundle.join (js " ") (r :: parts))
          end)
       (map (fun x => 32 :: render x) cs)
  = mapM (rewrite_candidate config source) cs.
Proof.
  induction cs as [|c cs IH]; intros C; [reflexivity|].
  cbn [forallb] in C. apply andb_true_iff in C. destruct C as [Cc C].
  pose proof (rewriteSrcset_part c true Cc) as P.
  change ((if true then [32] else []) ++ render c) with (32 :: render c) in P.
  cbn [map mapM]. rewrite P, (IH C). reflexivity.
Qed.

End Srcset.

(** X13.  [rewriteSrcset] keeps the descriptors: on a list of candidates
    joined by a comma and a space, each a URL followed or not by a
    descriptor (both without white space or comma), it rewrites the URL of
    each candidate with [rewriteUrl], leaves its descriptor as it is and
    joins the candidates again in their order. *)
Theorem rewriteSrcset_keeps_descriptors `{Host} (config : Config)
        (source : jsstring) (cs : list candidate) :
  cs <> [] ->
  forallb isCandidate cs = true ->
  handler_page.rewriteSrcset config source
                             (bundle.join (js ", ") (map render cs))
  = (l <- mapM (rewrite_candidate config source) cs ;;
     Ok (bundle.join (js ", ") l)).
Proof.
  intros N C. destruct cs as [|c cs]; [contradiction|].
  unfold handler_page.rewriteSrcset.
  rewrite (split_candidates c cs C).
  assert (bundle.join (js ", ") (map render (c :: cs)) <> []) as Nj.
  { pose proof C as C'. cbn [forallb] in C'.
    apply andb_true_iff in C'. destruct C' as [Cc _].
    unfold isCandidate in Cc. apply andb_true_iff in Cc.
    destruct Cc as [Tu _]. apply isToken_facts in Tu. destruct Tu as [Nu _].
    cbn [map]. unfold render at 1.
    destruct (fst c) as [|x u]; [contradiction|].
    destruct cs; destruct (snd c); discriminate. }
  destruct (bundle.join (js ", ") (map render (c :: cs))); [contradiction|].
  cbn [forallb] in C. apply andb_true_iff in C. destruct C as [Cc C].
  pose proof (rewriteSrcset_part config source c false Cc) as P.
  change ((if false then [32] else []) ++ render c) with (render c) in P.
  cbn [mapM]. rewrite P.
  rewrite (rewriteSrcset_parts config source cs C). reflexivity.
Qed.

Lemma rewriteSrcset_keeps_descriptors_witness :
  handler_page.rewriteSrcset (H := RefHost.host) uv_config
    (js "https://example.com/") (js "a.png 1x, b.png 2x")
  = Ok (js "/service/hvtrs8%2F-ezaopne%2Ccmm-a%2Cplg 1x, /service/hvtrs8%2F-ezaopne%2Ccmm-b%2Cplg 2x").
Proof.
  apply (@rewriteSrcset_keeps_descriptors RefHost.host uv_config
           (js "https://example.com/")
           [(js "a.png", Some (js "1x")); (js "b.png", Some (js "2x"))]).
  - discriminate.
  - reflexivity.
Defined.

(** ** sw.js: the [fetch] listener and [handleProxyRequest] *)

Lemma startsWith_split (p s : jsstring) :
  startsWith s p = true -> s = p ++ skipn (List.length p) s.
Proof.
  revert s. induction p as [|x p IH]; intros [|y s]; cbn;
    try discriminate; auto.
  intros E. apply andb_true_iff in E. destruct E as [E1 E2].
  apply Z.eqb_eq in E1. subst. f_equal. auto.
Qed.

Lemma startsWith_app (p q : jsstring) : startsWith (p ++ q) p = true.
Proof. apply (startsWith_app_l _ p q), startsWith_refl. Qed.

(** X14.  The [fetch] listener answers a request exactly when its scheme
    starts with [http] and its path starts with [/service/]: the paths it
    lists as its own assets never take a request away from the proxy. *)
Theorem fetch_listener_routing (u : URL) :
  sw_events.responds u
  = startsWith (url_protocol u) (js "http")
    && startsWith (url_pathname u) sw.PROXY_PREFIX.
Proof.
  unfold sw_events.responds.
  destruct (startsWith (url_protocol u) (js "http")); [|reflexivity].
  cbn [negb andb].
  destruct (startsWith (url_pathname u) sw.PROXY_PREFIX) eqn:P.
  - pose proof (startsWith_split _ _ P) as Q.
    set (r := skipn _ _) in Q. clearbody r. rewrite Q. reflexivity.
  - destruct (_ || _); reflexivity.
Qed.

Lemma decodeUrl_returns (e : jsstring) : exists d, sw.decodeUrl e = Ok d.
Proof.
  unfold sw.decodeUrl, try_catch.
  match goal with |- exists d, match ?b with _ => _ end = _ =>
    destruct b end; eexists; reflexivity.
Qed.

Lemma respond_valid (b : jsstring) (s : Z) (t : jsstring) (h : sw.Headers)
      (a : sw.Answer) :
  sw.respond b s t h = Ok a ->
  a = sw.new_Response b s t h /\ between 200 599 s = true.
Proof.
  unfold sw.respond. destruct (between 200 599 s); [|discriminate].
  intros E. inversion E. split; reflexivity.
Qed.

Lemma redirect_valid (u : jsstring) (s : Z) (a : sw.Answer) :
  sw.redirect u s = Ok a ->
  a = sw.Response_redirect u s /\ mem s sw.redirectStatuses = true.
Proof.
  unfold sw.redirect, mem.
  destruct (existsb (Z.eqb s) sw.redirectStatuses); [|discriminate].
  intros E. inversion E. split; reflexivity.
Qed.

(** The answers of [handleProxyRequest], by where they are made. *)
Lemma handleProxyRequest_cases `{Host}
      (fetch : sw.ProxyRequest -> outcome sw.Response)
      (request : sw.Request) (pathname search : jsstring) :
  exists a,
    sw.handleProxyRequest fetch request pathname search = Ok a /\
    (a = sw.new_Response (js "Invalid encoded URL") 400 [] []
     \/ (exists e, a = sw.new_Response (js "Proxy error: " ++ message e)
                                       502 [] [])
     \/ (exists r, fetch (sw.proxyRequest request) = Ok r /\
           (a = sw.new_Response (sw.resp_body r) (sw.resp_status r)
                                (sw.resp_statusText r)
                                (sw.passedHeaders (sw.resp_headers r))
            /\ between 200 599 (sw.resp_status r) = true
            \/ exists u,
                a = sw.Response_redirect u
                      (sw.status_or_302 (sw.resp_status r))
                /\ mem (sw.status_or_302 (sw.resp_status r))
                       sw.redirectStatuses = true))).
Proof.
  unfold sw.handleProxyRequest.
  destruct (decodeUrl_returns (slice (List.length sw.PROXY_PREFIX) pathname))
    as [d ->].
  cbn [bind].
  destruct d as [[|c t]|];
    try (eexists; split; [reflexivity | left; reflexivity]).
  unfold try_catch.
  match goal with |- exists a, match ?b with _ => _ end = _ /\ _ =>
    destruct b as [a|e] eqn:B end.
  2:{ eexists. split; [reflexivity | right; left; exists e; reflexivity]. }
  exists a. split; [reflexivity|]. right; right.
  destruct (sw.filteredHeaders request _) as [hs|]; [|discriminate].
  cbn [bind] in B.
  destruct (fetch (sw.proxyRequest request)) as [r|]; [|discriminate].
  cbn [bind] in B. exists r. split; [reflexivity|].
  assert (forall a',
             sw.respond (sw.resp_body r) (sw.resp_status r)
                        (sw.resp_statusText r)
                        (sw.passedHeaders (sw.resp_headers r)) = Ok a' ->
             a' = sw.new_Response (sw.resp_body r) (sw.resp_status r)
                                  (sw.resp_statusText r)
                                  (sw.passedHeaders (sw.resp_headers r))
             /\ between 200 599 (sw.resp_status r) = true) as Pass
      by (intros a'; apply respond_valid).
  destruct (sw.isRedirect r); [|left; apply Pass, B].
  destruct (sw.headers_get (sw.resp_headers r) (js "Location"))
    as [[|l loc]|]; try (left; apply Pass, B).
  destruct (new_URL (l :: loc) _) as [n|]; [|discriminate].
  cbn [bind] in B.
  destruct (sw.createProxyUrl (url_href n) _) as [p|]; [|discriminate].
  cbn [bind] in B. right. exists p. apply redirect_valid, B.
Qed.

(** X15.  [handleProxyRequest] never rejects: whatever the request and
    whatever [fetch] does, it answers, with a status in 200..599 or a
    redirect status. *)
Theorem handleProxyRequest_always_answers `{Host}
        (fetch : sw.ProxyRequest -> outcome sw.Response)
        (request : sw.Request) (pathname search : jsstring) :
  exists a,
    sw.handleProxyRequest fetch request pathname search = Ok a
    /\ validAnswer a = true.
Proof.
  destruct (handleProxyRequest_cases fetch request pathname search)
    as [a [E C]].
  exists a. split; [exact E|].
  destruct C as [-> | [[e ->] | [r [_ [[-> B] | [u [-> M]]]]]]];
    [reflexivity | reflexivity | exact B | exact M].
Qed.

Lemma badToken_decodeUrl (t : jsstring) :
  badToken t = true ->
  sw.decodeUrl t = Ok None \/ sw.decodeUrl t = Ok (Some []).
Proof.
  destruct t as [|c t]; [right; reflexivity|].
  unfold badToken. intros B. apply existsb_exists in B.
  destruct B as [x [I B]]. apply andb_true_iff in B. destruct B as [O N].
  apply negb_true_iff in N. left. exact (decodeUrl_bad_unit x _ I O N).
Qed.

(** X16.  A path whose token is empty, or has a code unit that is in no
    base64 alphabet, is answered with 400 [Invalid encoded URL], and
    [fetch] has no part in it. *)
Theorem invalid_token_400 `{Host}
        (fetch : sw.ProxyRequest -> outcome sw.Response)
        (request : sw.Request) (pathname search : jsstring) :
  badToken (slice (List.length sw.PROXY_PREFIX) pathname) = true ->
  sw.handleProxyRequest fetch request pathname search
  = Ok (sw.new_Response (js "Invalid encoded URL") 400 [] []).
Proof.
  intros B. unfold sw.handleProxyRequest.
  destruct (badToken_decodeUrl _ B) as [-> | ->]; reflexivity.
Qed.

Lemma invalid_token_400_witness :
  sw.handleProxyRequest (H := RefHost.host) (fun _ => Throw NetworkError)
    {| sw.req_url := js "https://proxy.example/service/a%b";
       sw.req_method := js "GET";
       sw.req_headers := [];
       sw.req_body := [] |}
    (js "/service/a%b") []
  = Ok (sw.new_Response (js "Invalid encoded URL") 400 [] []).
Proof.
  apply (@invalid_token_400 RefHost.host). reflexivity.
Defined.

(** X17.  When the token decodes to a target, a target that does not parse
    as a URL, or a [fetch] that fails, is answered with 502 and the
    error's message; in the first case [fetch] has no part in it. *)
Theorem upstream_failure_502 `{Host}
        (fetch : sw.ProxyRequest -> outcome sw.Response)
        (request : sw.Request) (pathname search t : jsstring) (e : exn) :
  sw.decodeUrl (slice (List.length sw.PROXY_PREFIX) pathname) = Ok (Some t) ->
  t <> [] ->
  new_URL (sw.appendQuery t search) None = Throw e
  \/ (exists u, new_URL (sw.appendQuery t search) None = Ok u)
     /\ fetch (sw.proxyRequest request) = Throw e ->
  sw.handleProxyRequest fetch request pathname search
  = Ok (sw.new_Response (js "Proxy error: " ++ message e) 502 [] []).
Proof.
  intros D N F. unfold sw.handleProxyRequest. rewrite D. cbn [bind].
  destruct t as [|c t]; [contradiction|].
  unfold sw.filteredHeaders.
  destruct F as [F | [[u F] G]]; rewrite F; cbn [bind try_catch];
    [|rewrite G]; reflexivity.
Qed.

Lemma upstream_failure_502_witness :
  sw.handleProxyRequest (H := RefHost.host) (fun _ => Throw NetworkError)
    {| sw.req_url := js "https://proxy.example/service/aHR0cHM6Ly9leGFtcGxlLmNvbS8";
       sw.req_method := js "GET";
       sw.req_headers := [];
       sw.req_body := [] |}
    (js "/service/aHR0cHM6Ly9leGFtcGxlLmNvbS8") []
  = Ok (sw.new_Response (js "Proxy error: Failed to fetch") 502 [] []).
Proof.
  apply (@upstream_failure_502 RefHost.host _ _ _ _
           (js "https://example.com/") NetworkError).
  - reflexivity.
  - discriminate.
  - right. split; [eexists; reflexivity | reflexivity].
Defined.

(** X18.  A redirect that [fetch] hands over as an opaque redirect, with a
    status outside 200..599 and no [Location] to read, is not followed:
    building the pass-through response fails and the answer is 502. *)
Theorem opaque_redirect_502 `{Host}
        (fetch : sw.ProxyRequest -> outcome sw.Response)
        (request : sw.Request) (pathname search t : jsstring)
        (u : URL) (r : sw.Response) :
  sw.decodeUrl (slice (List.length sw.PROXY_PREFIX) pathname) = Ok (Some t) ->
  t <> [] ->
  new_URL (sw.appendQuery t search) None = Ok u ->
  fetch (sw.proxyRequest request) = Ok r ->
  sw.resp_type r = sw.opaqueredirect ->
  sw.headers_get (sw.resp_headers r) (js "Location") = None ->
  between 200 599 (sw.resp_status r) = false ->
  sw.handleProxyRequest fetch request pathname search
  = Ok (sw.new_Response (js "Proxy error: " ++ message RangeError)
                        502 [] []).
Proof.
  intros D N U F T L S. unfold sw.handleProxyRequest. rewrite D. cbn [bind].
  destruct t as [|c t]; [contradiction|].
  unfold sw.filteredHeaders. rewrite U. cbn [bind]. rewrite F. cbn [bind].
  unfold sw.isRedirect. rewrite T, L. unfold sw.respond at 1. rewrite S.
  reflexivity.
Qed.

Lemma opaque_redirect_502_witness :
  sw.handleProxyRequest (H := RefHost.host)
    (fun _ => Ok {| sw.resp_type := sw.opaqueredirect;
                    sw.resp_status := 0;
                    sw.resp_statusText := [];
                    sw.resp_headers := [];
                    sw.resp_body := [] |})
    {| sw.req_url := js "https://proxy.example/service/aHR0cHM6Ly9leGFtcGxlLmNvbS8";
       sw.req_method := js "GET";
       sw.req_headers := [];
       sw.req_body := [] |}
    (js "/service/aHR0cHM6Ly9leGFtcGxlLmNvbS8") []
  = Ok (sw.new_Response (js "Proxy error: Invalid status") 502 [] []).
Proof.
  eapply (@opaque_redirect_502 RefHost.host _ _ _ _
            (js "https://example.com/")); try reflexivity.
  discriminate.
Defined.

Lemma toLowerCase_idem (s : jsstring) :
  toLowerCase (toLowerCase s) = toLowerCase s.
Proof.
  unfold toLowerCase. rewrite map_map. apply map_ext. intros c.
  unfold isUpper, between.
  destruct ((65 <=? c) && (c <=? 90)) eqn:E; [|rewrite E; reflexivity].
  apply andb_true_iff in E. destruct E as [E1 E2].
  apply Z.leb_le in E1, E2.
  replace (c + 32 <=? 90) with false by (symmetry; apply Z.leb_gt; lia).
  rewrite andb_false_r. reflexivity.
Qed.

Lemma passedHeaders_invariant (h acc : sw.Headers) :
  Forall (fun kv => toLowerCase (fst kv) = fst kv
                    /\ existsb (jsstring_eqb (fst kv)) sw.strippedHeaders
                       = false) acc ->
  Forall (fun kv => toLowerCase (fst kv) = fst kv
                    /\ existsb (jsstring_eqb (fst kv)) sw.strippedHeaders
                       = false)
         (fold_left
            (fun acc kv =>
               let lowerKey := toLowerCase (fst kv) in
               if existsb (jsstring_eqb lowerKey) sw.strippedHeaders then acc
               else sw.headers_set acc (toLowerCase (fst kv)) (snd kv))
            h acc).
Proof.
  revert acc. induction h as [|kv h IH]; intros acc P; [exact P|].
  cbn [fold_left]. apply IH. cbv zeta.
  destruct (existsb (jsstring_eqb (toLowerCase (fst kv))) sw.strippedHeaders)
    eqn:E; [exact P|].
  unfold sw.headers_set. apply Forall_app. split.
  - apply Forall_forall. intros x I. apply filter_In in I.
    destruct I as [I _]. rewrite Forall_forall in P. apply P, I.
  - constructor; [|constructor]. cbn [fst].
    split; [apply toLowerCase_idem | exact E].
Qed.

Lemma passedHeaders_stripped (h : sw.Headers) (n : jsstring) :
  In n sw.strippedHeaders -> sw.headers_has (sw.passedHeaders h) n = false.
Proof.
  intros I. unfold sw.headers_has.
  destruct (existsb _ (sw.passedHeaders h)) eqn:E; [|reflexivity].
  apply existsb_exists in E. destruct E as [kv [K S]].
  pose proof (passedHeaders_invariant h [] (Forall_nil _)) as P.
  rewrite Forall_forall in P. destruct (P kv K) as [L X].
  unfold sw.same_name in S. apply jsstring_eqb_eq in S. rewrite L in S.
  assert (toLowerCase n = n) as Ln.
  { cbn in I. destruct I as [<- | [<- | [<- | []]]]; reflexivity. }
  rewrite Ln in S. subst n.
  assert (existsb (jsstring_eqb (fst kv)) sw.strippedHeaders = true) as Y.
  { apply existsb_exists. exists (fst kv). split; [exact I|].
    apply jsstring_eqb_eq. reflexivity. }
  congruence.
Qed.

(** X19.  No response that [handleProxyRequest] builds carries a
    [Content-Security-Policy], [X-Frame-Options] or [Content-Encoding]
    header, in whatever case upstream wrote the name. *)
Theorem answers_without_stripped_headers `{Host}
        (fetch : sw.ProxyRequest -> outcome sw.Response)
        (request : sw.Request) (pathname search : jsstring)
        (body : jsstring) (status : Z) (statusText : jsstring)
        (headers : sw.Headers) (n : jsstring) :
  sw.handleProxyRequest fetch request pathname search
  = Ok (sw.new_Response body status statusText headers) ->
  In n sw.strippedHeaders ->
  sw.headers_has headers n = false.
Proof.
  intros E I.
  destruct (handleProxyRequest_cases fetch request pathname search)
    as [a [E' C]].
  rewrite E in E'. inversion E' as [A]. clear E'.
  destruct C as [C | [[e C] | [r [_ [[C _] | [u [C _]]]]]]];
    rewrite <- A in C; inversion C; subst; try reflexivity.
  apply passedHeaders_stripped, I.
Qed.

Lemma answers_without_stripped_headers_witness :
  sw.headers_has
    [(js "content-type", js "text/html"); (js "x-powered-by", js "none")]
    (js "x-frame-options") = false.
Proof.
  apply (@answers_without_stripped_headers RefHost.host
           (fun _ => Ok {| sw.resp_type := sw.basic;
                           sw.resp_status := 200;
                           sw.resp_statusText := js "OK";
                           sw.resp_headers :=
                             [(js "Content-Type", js "text/html");
                              (js "X-Frame-Options", js "DENY");
                              (js "X-Powered-By", js "none")];
                           sw.resp_body := js "<p>hi</p>" |})
           {| sw.req_url := js "https://proxy.example/service/aHR0cHM6Ly9leGFtcGxlLmNvbS8";
              sw.req_method := js "GET";
              sw.req_headers := [];
              sw.req_body := [] |}
           (js "/service/aHR0cHM6Ly9leGFtcGxlLmNvbS8") []
           (js "<p>hi</p>") 200 (js "OK")).
  - reflexivity.
  - right. left. reflexivity.
Defined.

(** ** sw.js: [createProxyUrl] and [getOriginalUrl] *)

(** X20.  [createProxyUrl] never throws, and what it returns is either the
    URL it was given or a path under [/service/]. *)
Theorem createProxyUrl_shape `{Host} (originalUrl baseUrl : jsstring) :
  exists r,
    sw.createProxyUrl originalUrl baseUrl = Ok r
    /\ (r = originalUrl \/ startsWith r sw.PROXY_PREFIX = true).
Proof.
  unfold sw.createProxyUrl.
  destruct (negb (sw.shouldProxy originalUrl));
    [eexists; split; [reflexivity | left; reflexivity]|].
  unfold try_catch.
  match goal with |- exists r, match ?b with _ => _ end = _ /\ _ =>
    destruct b as [r|e] eqn:B end;
    [|eexists; split; [reflexivity | left; reflexivity]].
  exists r. split; [reflexivity|]. right.
  match type of B with bind ?m _ = _ => destruct m as [a|]; [|discriminate] end.
  cbn [bind] in B.
  destruct (sw.encodeUrl a) as [enc|]; [|discriminate].
  cbn [bind] in B. inversion B.
  unfold sw.concat_nullable. destruct enc; apply startsWith_app.
Qed.

(** X21.  [getOriginalUrl] undoes [createProxyUrl]: for an absolute
    [http(s)] URL of ASCII code units, the URL comes back from any address
    whose path is the proxied URL. *)
Theorem getOriginalUrl_of_createProxyUrl `{Host} (u b : jsstring) :
  startsWith u (js "http://") = true \/ startsWith u (js "https://") = true ->
  Forall isAscii u ->
  exists r,
    sw.createProxyUrl u b = Ok r /\
    forall (proxyUrl : jsstring) (p : URL),
      new_URL proxyUrl None = Ok p -> url_pathname p = r ->
      sw_events.getOriginalUrl proxyUrl = Ok (Some u).
Proof.
  intros S A. eexists. split; [apply createProxyUrl_http; assumption|].
  intros proxyUrl p P E. unfold sw_events.getOriginalUrl.
  rewrite P. cbn [bind]. rewrite E, startsWith_app.
  unfold slice. rewrite skipn_length_app, decodeUrl_ascii by exact A.
  reflexivity.
Qed.

Lemma getOriginalUrl_of_createProxyUrl_witness :
  exists r,
    sw.createProxyUrl (H := RefHost.host) (js "https://example.com/")
                      (js "https://proxy.example/") = Ok r /\
    forall (proxyUrl : jsstring) (p : URL),
      new_URL (Host := RefHost.host) proxyUrl None = Ok p ->
      url_pathname p = r ->
      sw_events.getOriginalUrl (H := RefHost.host) proxyUrl
      = Ok (Some (js "https://example.com/")).
Proof.
  apply (@getOriginalUrl_of_createProxyUrl RefHost.host).
  - right. reflexivity.
  - unfold isAscii. repeat constructor; lia.
Defined.

(** ** sw.js: the [message] listener *)

Lemma Map_get_set (m : sw_events.UrlMap) (a b : jsstring)
      (u : option jsstring) :
  sw_events.Map_get b (sw_events.Map_set a u m)
  = if jsstring_eqb a b then Some u else sw_events.Map_get b m.
Proof.
  induction m as [|[k v] m IH]; [reflexivity|].
  cbn [sw_events.Map_set sw_events.Map_get].
  destruct (jsstring_eqb k a) eqn:Ka.
  - apply jsstring_eqb_eq in Ka. subst k.
    cbn [sw_events.Map_get]. destruct (jsstring_eqb a b); reflexivity.
  - cbn [sw_events.Map_get]. rewrite IH.
    destruct (jsstring_eqb k b) eqn:Kb; [|reflexivity].
    destruct (jsstring_eqb a b) eqn:Ab; [|reflexivity].
    apply jsstring_eqb_eq in Kb, Ab. subst.
    rewrite jsstring_eqb_refl in Ka. discriminate.
Qed.

(** X22.  After a client registers a URL, [get-original-url] replies that
    URL to this client, and to every other client what it replied
    before; the reply itself changes nothing. *)
Theorem registered_url_is_replied (m : sw_events.UrlMap) (a b : jsstring)
        (u : option jsstring) (d : option (option jsstring)) :
  exists m',
    sw_events.on_message m a
      (Some {| sw_events.msg_type := js "register-url";
               sw_events.msg_data := Some u |}) = Ok (m', None)
    /\ sw_events.on_message m' b
         (Some {| sw_events.msg_type := js "get-original-url";
                  sw_events.msg_data := d |})
       = Ok (m', Some (sw_events.original_url
                         (if jsstring_eqb a b then u else registered m b))).
Proof.
  exists (sw_events.Map_set a u m). split; [reflexivity|].
  unfold sw_events.on_message. cbn [sw_events.msg_type].
  change (jsstring_eqb (js "get-original-url") (js "register-url"))
    with false.
  change (jsstring_eqb (js "get-original-url") (js "get-original-url"))
    with true.
  cbv iota. rewrite Map_get_set. unfold registered.
  destruct (jsstring_eqb a b); reflexivity.
Qed.

(** ** uv.sw.js: [handleRequest] *)

(** X23.  [handleRequest] never rejects: it answers with the response of
    a [fetch] of the request's own URL with [redirect: 'manual'], or with
    a 400 or a 500 of its own. *)
Theorem uv_handleRequest_always_answers (config : Config)
        (fetch : uv_sw.FetchCall -> outcome sw.Response)
        (request : sw.Request) (pathname : jsstring) :
  exists a,
    uv_sw.handleRequest config fetch request pathname = Ok a /\
    match a with
    | uv_sw.fetched r =>
      exists c, fetch c = Ok r
                /\ uv_sw.call_url c = sw.req_url request
                /\ uv_sw.call_redirect c = js "manual"
    | uv_sw.new_Response _ status _ => status = 400 \/ status = 500
    end.
Proof.
  unfold uv_sw.handleRequest.
  destruct (slice _ pathname) as [|c t];
    [eexists; split; [reflexivity | left; reflexivity]|].
  destruct (config_decodeUrl config (c :: t));
    [|eexists; split; [reflexivity | right; reflexivity]].
  cbn [bind].
  match goal with |- context [fetch ?call] =>
    destruct (fetch call) as [r|e] eqn:F end.
  - eexists. split; [reflexivity|]. cbv beta iota.
    eexists. split; [exact F|]. split; reflexivity.
  - eexists. split; [reflexivity | right; reflexivity].
Qed.

(** X24.  A token that the configured codec cannot decode is answered
    with 500 and the error's message, and [fetch] has no part in it. *)
Theorem uv_handleRequest_decode_failure (config : Config)
        (fetch : uv_sw.FetchCall -> outcome sw.Response)
        (request : sw.Request) (pathname : jsstring) (e : exn) :
  config_decodeUrl config
    (slice (List.length (config_prefix config)) pathname) = Throw e ->
  slice (List.length (config_prefix config)) pathname <> [] ->
  uv_sw.handleRequest config fetch request pathname
  = Ok (uv_sw.new_Response (js "Proxy Error: " ++ message e) 500
                           [(js "Content-Type", js "text/plain")]).
Proof.
  intros D N. unfold uv_sw.handleRequest.
  destruct (slice _ pathname) as [|c t]; [contradiction|].
  rewrite D. reflexivity.
Qed.

Lemma uv_handleRequest_decode_failure_witness :
  uv_sw.handleRequest uv_config
    (fun _ => Ok {| sw.resp_type := sw.basic;
                    sw.resp_status := 200;
                    sw.resp_statusText := js "OK";
                    sw.resp_headers := [];
                    sw.resp_body := [] |})
    {| sw.req_url := js "https://proxy.example/service/%zz";
       sw.req_method := js "GET";
       sw.req_headers := [];
       sw.req_body := [] |}
    (js "/service/%zz")
  = Ok (uv_sw.new_Response (js "Proxy Error: URI malformed") 500
                           [(js "Content-Type", js "text/plain")]).
Proof.
  apply (uv_handleRequest_decode_failure uv_config _ _ _ URIError).
  - reflexivity.
  - discriminate.
Defined.

(** ** uv.client.js: [encodeUrl] and [resolveAndEncode] *)

Lemma uv_client_encodeUrl_sw (P u : jsstring) :
  uv_client.encodeUrl P u
  = match sw.encodeUrl u with
    | Ok (Some t) => Ok (P ++ t)
    | _ => Ok u
    end.
Proof.
  unfold uv_client.encodeUrl, sw.encodeUrl.
  destruct (encodeURIComponent u) as [e|]; [|reflexivity].
  cbn [bind]. destruct (btoa (unescape e)); reflexivity.
Qed.

(** X25.  The page and the worker agree on the token: what the page's
    [encodeUrl] puts after the prefix, for a URL of ASCII code units, the
    worker's [decodeUrl] turns back into the URL. *)
Theorem client_token_decoded_by_worker (P u : jsstring) :
  Forall isAscii u ->
  exists t,
    uv_client.encodeUrl P u = Ok (P ++ t)
    /\ sw.decodeUrl t = Ok (Some u).
Proof.
  intros A. exists (toUrlSafe (b64_encode u)). split.
  - rewrite uv_client_encodeUrl_sw, encodeUrl_ascii by exact A. reflexivity.
  - apply decodeUrl_ascii, A.
Qed.

Lemma client_token_decoded_by_worker_witness :
  exists t,
    uv_client.encodeUrl (js "/service/") (js "https://example.com/")
    = Ok (js "/service/" ++ t)
    /\ sw.decodeUrl t = Ok (Some (js "https://example.com/")).
Proof.
  apply (client_token_decoded_by_worker (js "/service/")
                                        (js "https://example.com/")).
  unfold isAscii. repeat constructor; lia.
Defined.

Lemma uv_client_skips_prefixed (P O t : jsstring) (base : option jsstring)
      `{Host} :
  uv_client.resolveAndEncode P O (P ++ t) base = Ok (P ++ t).
Proof.
  unfold uv_client.resolveAndEncode.
  assert (uv_client.shouldProxy P (P ++ t) = false) as ->; [|reflexivity].
  unfold uv_client.shouldProxy. destruct (P ++ t) eqn:E; [reflexivity|].
  rewrite <- E. apply negb_false_iff, existsb_exists.
  exists P. split; [|apply startsWith_app].
  unfold uv_client.skipPrefixes. cbn [In]. tauto.
Qed.

(** X26.  [resolveAndEncode] is idempotent when the resolved address has
    ASCII code units only: what it returns, it returns unchanged when it
    is given it again. *)
Theorem resolveAndEncode_idempotent `{Host} (P O u base : jsstring) :
  (forall a, new_URL u (Some base) = Ok a -> Forall isAscii (url_href a)) ->
  exists r,
    uv_client.resolveAndEncode P O u (Some base) = Ok r
    /\ uv_client.resolveAndEncode P O r (Some base) = Ok r.
Proof.
  intros A. unfold uv_client.resolveAndEncode at 1.
  destruct (negb (uv_client.shouldProxy P u)) eqn:S.
  - exists u. split; [reflexivity|].
    unfold uv_client.resolveAndEncode. rewrite S. reflexivity.
  - destruct (new_URL u (Some base)) as [a|e] eqn:N.
    + cbn [bind]. specialize (A a eq_refl).
      rewrite uv_client_encodeUrl_sw, encodeUrl_ascii by exact A.
      cbn [try_catch]. eexists. split; [reflexivity|].
      apply uv_client_skips_prefixed.
    + cbn [bind try_catch]. exists u. split; [reflexivity|].
      unfold uv_client.resolveAndEncode. rewrite S, N. reflexivity.
Qed.

Lemma resolveAndEncode_idempotent_witness :
  exists r,
    uv_client.resolveAndEncode (H := RefHost.host) (js "/service/")
      (js "https://example.com/") (js "a.png")
      (Some (js "https://example.com/dir/")) = Ok r
    /\ uv_client.resolveAndEncode (H := RefHost.host) (js "/service/")
         (js "https://example.com/") r
         (Some (js "https://example.com/dir/")) = Ok r.
Proof.
  apply (@resolveAndEncode_idempotent RefHost.host).
  intros a E. vm_compute in E. inversion E. subst a.
  unfold isAscii. cbn [url_href]. repeat constructor; lia.
Defined.

(** ** uv.bundle.js: the overrides without a listener, and [respondWith] *)

Lemma hooks_get_destructure (ks : list jsstring) (args : list hooks.value) :
  distinct ks = true ->
  map (fun k => hooks.get k (hooks.destructure ks args)) ks
  = firstArgs (List.length ks) args.
Proof.
  unfold firstArgs. revert args.
  induction ks as [|k ks IH]; intros args D; [reflexivity|].
  cbn [distinct] in D. apply andb_true_iff in D. destruct D as [N D].
  apply negb_true_iff in N.
  cbn [hooks.destructure map List.length seq hooks.get].
  rewrite jsstring_eqb_refl. f_equal; [destruct args; reflexivity|].
  assert (forall i, nth (S i) args client.Undefined
                    = nth i (tl args) client.Undefined) as T
      by (intros i; destruct args; [destruct i|]; reflexivity).
  rewrite <- seq_shift, map_map, (map_ext _ _ T), <- (IH (tl args) D).
  apply map_ext_in. intros k' I.
  destruct (jsstring_eqb k k') eqn:E; [|reflexivity].
  assert (existsb (jsstring_eqb k) ks = true) as X
      by (apply existsb_exists; exists k'; split; assumption).
  congruence.
Qed.

Lemma shapes_facts (s : hooks.shape) :
  In s hooks.shapes ->
  distinct (hooks.keys s) = true
  /\ hooks.inherited (hooks.event_name s) = false.
Proof.
  intros I.
  assert (forallb (fun s => distinct (hooks.keys s)
                            && negb (hooks.inherited (hooks.event_name s)))
                  hooks.shapes = true) as D by (vm_compute; reflexivity).
  rewrite forallb_forall in D. specialize (D s I).
  apply andb_true_iff in D. destruct D as [D N].
  apply negb_true_iff in N. split; assumption.
Qed.

(** X27.  Each of the fifteen overrides of [hooks.shapes], when no
    listener is registered for its event, calls the original once: with
    the arguments as they are when there are fewer than its minimum, and
    otherwise with as many arguments as it destructures, [undefined]
    standing for the missing ones, followed by the further arguments where
    the override takes a rest parameter. *)
Theorem override_without_listener (s : hooks.shape) (hook : hooks.events)
        (target : client.primitive) (args : list hooks.value) :
  In s hooks.shapes ->
  hooks.own (hooks.event_name s) hook = None ->
  hooks.wrapper s hook target args
  = client.invoke target
      (if (List.length args <? hooks.min_args s)%nat then args
       else firstArgs (List.length (hooks.keys s)) args
            ++ (if hooks.forwards_rest s
                then skipn (List.length (hooks.keys s)) args else [])).
Proof.
  intros I L. destruct (shapes_facts s I) as [D N].
  unfold hooks.wrapper, hooks.emit, hooks.lookup.
  destruct (List.length args <? hooks.min_args s)%nat; [reflexivity|].
  rewrite L, N.
  cbn [hooks.intercepted hooks.new_HookEvent hooks.event_data].
  rewrite hooks_get_destructure by exact D. reflexivity.
Qed.

Lemma override_without_listener_witness :
  hooks.wrapper hooks.fetch_shape [] (fun _ => Ok client.Undefined)
                [client.Str (js "https://example.com/")]
  = client.invoke (fun _ => Ok client.Undefined)
      [client.Str (js "https://example.com/"); client.Undefined]
  /\ hooks.wrapper hooks.pushState_shape [] (fun _ => Ok client.Undefined)
                   [client.Undefined; client.Str (js "title")]
     = client.invoke (fun _ => Ok client.Undefined)
         [client.Undefined; client.Str (js "title")].
Proof.
  split.
  - apply (override_without_listener hooks.fetch_shape []
             (fun _ => Ok client.Undefined)
             [client.Str (js "https://example.com/")]).
    + left. reflexivity.
    + reflexivity.
  - apply (override_without_listener hooks.pushState_shape []
             (fun _ => Ok client.Undefined)
             [client.Undefined; client.Str (js "title")]).
    + do 4 right. left. reflexivity.
    + reflexivity.
Defined.

(** X28.  For each of the fifteen overrides of [hooks.shapes], called
    with at least its minimal number of arguments, a listener that answers
    with [respondWith] takes the call over: [on] registers it, and when it
    is the last one registered and the listeners before it do not throw,
    the override returns its value and does not call the original.  (Below
    the minimum the original is called and no listener runs; the getter
    overrides, which call the original before they dispatch, are not among
    the fifteen.) *)
Theorem respondWith_replaces_call (s : hooks.shape) (hook : hooks.events)
        (target : client.primitive) (args : list hooks.value)
        (v : hooks.value) (e1 : hooks.HookEvent) :
  In s hooks.shapes ->
  (hooks.min_args s <= List.length args)%nat ->
  hooks.forEach
    (match hooks.own (hooks.event_name s) hook with
     | Some fns => fns
     | None => []
     end)
    (hooks.new_HookEvent (hooks.destructure (hooks.keys s) args)) = Ok e1 ->
  exists hook',
    hooks.on (hooks.event_name s)
             (fun e => Ok (hooks.respondWith v e)) hook = Ok hook'
    /\ hooks.wrapper s hook' target args = (Ok v, []).
Proof.
  intros I M F. destruct (shapes_facts s I) as [_ N].
  eexists. split; [apply hooks_on_fresh, N|].
  unfold hooks.wrapper, hooks.emit, hooks.lookup.
  apply Nat.ltb_ge in M. rewrite M.
  rewrite (proj1 (hooks_own_push (hooks.event_name s) (hooks.event_name s)
                    (fun e => Ok (hooks.respondWith v e)) hook)).
  destruct (hooks.own (hooks.event_name s) hook) as [fns|].
  - rewrite hooks_forEach_app, F. reflexivity.
  - reflexivity.
Qed.

Lemma respondWith_replaces_call_witness :
  exists hook',
    hooks.on (js "pushState")
             (fun e => Ok (hooks.respondWith (client.Str (js "done")) e)) []
    = Ok hook'
    /\ hooks.wrapper hooks.pushState_shape hook'
         (fun _ => Throw TypeError)
         [client.Undefined; client.Str (js "title"); client.Str (js "/next")]
       = (Ok (client.Str (js "done")), []).
Proof.
  eapply (respondWith_replaces_call hooks.pushState_shape []
            (fun _ => Throw TypeError)
            [client.Undefined; client.Str (js "title");
             client.Str (js "/next")]
            (client.Str (js "done"))).
  - do 4 right. left. reflexivity.
  - cbn. lia.
  - reflexivity.
Defined.

(** ** uv.bundle.js: [sourceUrl] after [rewriteUrl] *)

Lemma startsWith_before_slash (o x p : jsstring) :
  forallb (fun c => negb (c =? 47)) p = true ->
  startsWith (o ++ 47 :: x) p = startsWith o p.
Proof.
  revert o. induction p as [|a p IH]; intros o F; [destruct o; reflexivity|].
  cbn [forallb] in F. apply andb_true_iff in F. destruct F as [A F].
  apply negb_true_iff in A.
  destruct o as [|y o]; cbn [app startsWith].
  - rewrite A. reflexivity.
  - rewrite (IH o F). reflexivity.
Qed.

Lemma urlRegex_test_before_slash (o x : jsstring) :
  bundle.urlRegex_test (o ++ 47 :: x) = bundle.urlRegex_test o.
Proof.
  unfold bundle.urlRegex_test. cbn [existsb].
  rewrite !startsWith_before_slash by reflexivity. reflexivity.
Qed.

(** X29.  With the default options and any codec, [sourceUrl] gives back
    the address that [rewriteUrl] resolved: for a URL outside the skip
    list that resolves against the page to an address of ASCII code
    units, the source of the rewritten URL is that address. *)
Theorem bundle_sourceUrl_of_rewriteUrl `{Host} (k : codecs.id)
        (u : jsstring) (r : URL) :
  let this := bundle.new {| bundle.opt_prefix := [];
                            bundle.opt_codec := Some k;
                            bundle.opt_encodeUrl := None;
                            bundle.opt_decodeUrl := None;
                            bundle.opt_meta := None |} in
  u <> [] ->
  bundle.urlRegex_test (trim u) = false ->
  startsWith (trim u) (js "//") = false ->
  new_URL (trim u) (Some (url_href location)) = Ok r ->
  Forall isAscii (url_href r) ->
  bundle.urlRegex_test (url_origin location) = false ->
  exists p,
    bundle.rewriteUrl this u None = Ok p
    /\ bundle.sourceUrl this p None = Ok (url_href r).
Proof.
  intros this N T S R A O.
  destruct (bundle_roundtrip_ascii k (url_href r) A) as [t [E D]].
  assert (or_else (or_else [] (url_origin location)) (url_origin location)
          = url_origin location) as Oo
      by (cbn [or_else]; destruct (url_origin location); reflexivity).
  exists (url_origin location ++ js "/service/" ++ t). split.
  - unfold bundle.rewriteUrl. destruct u as [|c u]; [contradiction|].
    cbv zeta. rewrite T.
    assert (startsWith (trim (c :: u)) (js "javascript:") = false) as ->.
    { unfold bundle.urlRegex_test in T. cbn [existsb] in T.
      rewrite !orb_false_iff in T. tauto. }
    rewrite S.
    change (bundle.meta this)
      with {| bundle.base := [];
              bundle.origin := or_else [] (url_origin location);
              bundle.url := [] |}.
    cbn [bundle.base bundle.url bundle.origin].
    change (or_else [] (or_else [] (url_href location)))
      with (url_href location).
    rewrite R. cbn [bind].
    change (bundle.encodeUrl this) with (codecs.encode k).
    rewrite E. cbn [bind try_catch]. rewrite Oo. reflexivity.
  - unfold bundle.sourceUrl.
    destruct (url_origin location ++ js "/service/" ++ t) as [|c q] eqn:Q.
    { destruct (url_origin location); discriminate. }
    rewrite <- Q. clear Q c q. cbv zeta.
    change (js "/service/" ++ t) with (47 :: (js "service/" ++ t)) at 1.
    rewrite urlRegex_test_before_slash, O.
    change (bundle.meta this)
      with {| bundle.base := [];
              bundle.origin := or_else [] (url_origin location);
              bundle.url := [] |}.
    cbn [bundle.origin]. rewrite Oo.
    change (bundle.prefix this) with (js "/service/").
    change (bundle.decodeUrl this) with (codecs.decode k).
    rewrite app_assoc, startsWith_app. unfold slice.
    rewrite skipn_length_app, D. reflexivity.
Qed.

Lemma bundle_sourceUrl_of_rewriteUrl_witness :
  exists p,
    bundle.rewriteUrl (H := RefHost.host)
      (bundle.new (H := RefHost.host)
                  {| bundle.opt_prefix := [];
                     bundle.opt_codec := Some codecs.base64;
                     bundle.opt_encodeUrl := None;
                     bundle.opt_decodeUrl := None;
                     bundle.opt_meta := None |})
      (js " https://example.com/a ") None = Ok p
    /\ bundle.sourceUrl (H := RefHost.host)
         (bundle.new (H := RefHost.host)
                     {| bundle.opt_prefix := [];
                        bundle.opt_codec := Some codecs.base64;
                        bundle.opt_encodeUrl := None;
                        bundle.opt_decodeUrl := None;
                        bundle.opt_meta := None |})
         p None = Ok (js "https://example.com/a").
Proof.
  pose (r := match RefHost.URL_constructor (js "https://example.com/a") None
             with
             | Ok r => r
             | Throw _ => mkURL [] [] [] [] [] [] []
             end).
  change (Ok (js "https://example.com/a")) with (Ok (url_href r)).
  apply (@bundle_sourceUrl_of_rewriteUrl RefHost.host codecs.base64
           (js " https://example.com/a ") r).
  - discriminate.
  - reflexivity.
  - reflexivity.
  - reflexivity.
  - vm_compute. repeat constructor; discriminate.
  - reflexivity.
Defined.
